(** * pdblpi: request batching, response reconciliation and upload glue

    A shallow embedding of the parts of [pdblpi/main.py] and
    [pdblpi/cde.py] that decide how requests are grouped, how vendor
    responses are turned into rows, and how uploads are chunked and
    retried.

    Conventions of the embedding
    - a Python [str] is a [string] (ASCII code points);
    - a pandas frame is the list of its rows, a column is a list;
    - a Python exception is a value of [exn] carried by [Raise];
    - [NaN] cells are [None] in numeric columns and [SNaN] in object
      columns; a number is a rational ([Qc]) and arithmetic is exact,
      without the rounding of binary64;
    - a timestamp that is aware of its zone is its instant, in
      nanoseconds since the epoch;
    - the vendor session is an oracle applied to the request. *)

From Stdlib Require Import String Ascii ZArith QArith Qcanon List Lia.
From stdpp Require Import base option list gmap strings sorting.

Local Open Scope string_scope.
Local Open Scope list_scope.
Local Open Scope nat_scope.

(** ** Exceptions *)

Module Py.

(** The exception classes the modelled code raises. A [ValueError]
    is raised either with a message or with an object; the type [P] of
    that object is left to each caller. *)
Inductive exn (P : Type) : Type :=
| ValueError (payload : P)
| ValueErrorMsg (msg : string)
| KeyError (key : string)
| IndexError
| TypeError
| UnboundLocalError
| VendorError (what : string).

Arguments ValueError {P} payload.
Arguments ValueErrorMsg {P} msg.
Arguments KeyError {P} key.
Arguments IndexError {P}.
Arguments TypeError {P}.
Arguments UnboundLocalError {P}.
Arguments VendorError {P} what.

Inductive result (P A : Type) : Type :=
| Ok (a : A)
| Raise (e : exn P).

Arguments Ok {P A} a.
Arguments Raise {P A} e.

Definition bind {P A B} (m : result P A) (k : A -> result P B) : result P B :=
  match m with
  | Ok a => k a
  | Raise e => Raise e
  end.

(** An argument that may be a single string or a list of strings, and
    the list the functions make of it ([if isinstance(x, str): x = [x]]). *)
Inductive str_or_list : Type :=
| Str (s : string)
| Lst (l : list string).

Definition as_list (a : str_or_list) : list string :=
  match a with
  | Str s => [s]
  | Lst l => l
  end.

Definition is_ok {P A} (m : result P A) : bool :=
  match m with Ok _ => true | Raise _ => false end.

(** [repr(s)] of a str, what [{!r}] puts into a message: the text
    between apostrophes, or between double quotes when it holds an
    apostrophe and no double quote; the quote in use and the backslash
    are escaped, tab, newline and carriage return are written with
    their letter, and a character that does not print is written
    [\xhh]. *)
Definition apostrophe : ascii := ascii_of_nat 39.
Definition double_quote : ascii := ascii_of_nat 34.
Definition backslash : ascii := ascii_of_nat 92.

Definition hex_digit (n : nat) : ascii :=
  match String.get n "0123456789abcdef" with
  | Some c => c
  | None => "0"%char
  end.

Definition printable (c : ascii) : bool :=
  let n := nat_of_ascii c in
  ((32 <=? n) && (n <? 127)) || ((161 <=? n) && negb (n =? 173)).

Definition repr_char (quote c : ascii) : string :=
  let n := nat_of_ascii c in
  if bool_decide (c = quote) || bool_decide (c = backslash)
  then String backslash (String c "")
  else if n =? 9 then String backslash "t"
  else if n =? 10 then String backslash "n"
  else if n =? 13 then String backslash "r"
  else if printable c then String c ""
  else String backslash
         (String "x" (String (hex_digit (n / 16)) (String (hex_digit (n mod 16)) ""))).

Fixpoint repr_body (quote : ascii) (s : string) : string :=
  match s with
  | EmptyString => String quote ""
  | String c s' => repr_char quote c +:+ repr_body quote s'
  end.

Fixpoint holds (c : ascii) (s : string) : bool :=
  match s with
  | EmptyString => false
  | String c' s' => bool_decide (c' = c) || holds c s'
  end.

Definition repr (s : string) : string :=
  let quote :=
    if holds apostrophe s && negb (holds double_quote s)
    then double_quote else apostrophe in
  String quote (repr_body quote s).

(** [for x in xs: acc = body(acc, x)] with exceptions escaping the loop. *)
Fixpoint for_each {P A S} (body : S -> A -> result P S) (xs : list A) (acc : S)
  : result P S :=
  match xs with
  | [] => Ok acc
  | x :: xs' => bind (body acc x) (for_each body xs')
  end.

End Py.

Notation "'do!' x <- m ; k" := (Py.bind m (fun x => k))
  (at level 10, x pattern, m at level 100, k at level 200).

(** ** cde.py: cutting a frame into upload chunks *)

Module Chunks.

(** [range(start, stop, step)] for a positive [step]; [fuel] bounds the
    number of elements produced. *)
Fixpoint range_from (fuel start stop step : nat) : list nat :=
  match fuel with
  | O => []
  | S fuel' =>
      if start <? stop
      then start :: range_from fuel' (start + step) stop step
      else []
  end.

(** [range(0, stop, step)]; Python raises [ValueError] on a zero step. *)
Definition py_range {P} (stop step : nat) : Py.result P (list nat) :=
  if step =? 0
  then Py.Raise (Py.ValueErrorMsg "range() arg 3 must not be zero")
  else Py.Ok (range_from stop 0 stop step).

(** [iterable.iloc[i:j]]: positional slice, clipped to the frame. *)
Definition iloc {Row} (df : list Row) (i j : nat) : list Row :=
  take (j - i) (drop i df).

(** [_cut_into_chunks_gen(iterable, chunk_size)]. *)
Definition _cut_into_chunks_gen {P Row} (iterable : list Row) (chunk_size : nat)
  : Py.result P (list (list Row)) :=
  do! starts <- py_range (length iterable) chunk_size;
  Py.Ok (map (fun i => iloc iterable i (i + chunk_size)) starts).

End Chunks.

(** ** main.py: the ticker normalizer *)

Module Tickers.

Definition chars : string -> list ascii := list_ascii_of_string.
Definition str : list ascii -> string := string_of_list_ascii.

Definition code (c : ascii) : nat := nat_of_ascii c.

Definition in_range (lo hi c : ascii) : bool :=
  (code lo <=? code c) && (code c <=? code hi).

(** [str.isspace] on ASCII: tab to carriage return, the four
    separators 0x1c-0x1f, and the space. *)
Definition is_space (c : ascii) : bool :=
  ((9 <=? code c) && (code c <=? 13)) || ((28 <=? code c) && (code c <=? 32)).

Definition upper_char (c : ascii) : ascii :=
  if in_range "a" "z" c then ascii_of_nat (code c - 32) else c.

(** [s.upper()] *)
Definition py_upper (s : list ascii) : list ascii := map upper_char s.

Fixpoint lstrip (s : list ascii) : list ascii :=
  match s with
  | c :: s' => if is_space c then lstrip s' else s
  | [] => []
  end.

Definition rstrip (s : list ascii) : list ascii := rev (lstrip (rev s)).

(** [s.strip()] *)
Definition py_strip (s : list ascii) : list ascii := lstrip (rstrip s).

(** [s.split()]: maximal runs of non-whitespace, in order. [cur] holds
    the current run, reversed. *)
Fixpoint split_from (cur s : list ascii) : list (list ascii) :=
  match s with
  | [] => match cur with [] => [] | _ => [rev cur] end
  | c :: s' =>
      if is_space c
      then match cur with
           | [] => split_from [] s'
           | _ => rev cur :: split_from [] s'
           end
      else split_from (c :: cur) s'
  end.

Definition py_split (s : list ascii) : list (list ascii) := split_from [] s.

(** [needle in hay] *)
Fixpoint starts_with (needle hay : list ascii) : bool :=
  match needle, hay with
  | [], _ => true
  | n :: needle', h :: hay' => if decide (n = h) then starts_with needle' hay' else false
  | _ :: _, [] => false
  end.

Fixpoint contains (needle hay : list ascii) : bool :=
  starts_with needle hay ||
  match hay with
  | [] => false
  | _ :: hay' => contains needle hay'
  end.

(** The regular expressions of [_parse_tickers] are sequences of
    counted single-character items: a literal or a bracket class. *)
Inductive atom : Type :=
| Lit (c : ascii)
| Class (ranges : list (ascii * ascii)).

Definition regex : Type := list (atom * nat).

Definition atom_matches (a : atom) (c : ascii) : bool :=
  match a with
  | Lit l => if decide (l = c) then true else false
  | Class ranges => existsb (fun r => in_range r.1 r.2 c) ranges
  end.

Definition expand (r : regex) : list atom :=
  flat_map (fun item => repeat item.1 item.2) r.

(** Match the items at the start of [s]; the matched text on success. *)
Fixpoint match_atoms (p : list atom) (s : list ascii) : option (list ascii) :=
  match p with
  | [] => Some []
  | a :: p' =>
      match s with
      | [] => None
      | c :: s' =>
          if atom_matches a c
          then option_map (cons c) (match_atoms p' s')
          else None
      end
  end.

(** [r.match(s)] *)
Definition re_match (r : regex) (s : list ascii) : option (list ascii) :=
  match_atoms (expand r) s.

(** [r.findall(s)]: leftmost non-overlapping matches; [skip] counts the
    characters still covered by the previous match. *)
Fixpoint findall_from (p : list atom) (skip : nat) (s : list ascii)
  : list (list ascii) :=
  match s with
  | [] => []
  | _ :: s' =>
      match skip with
      | S k => findall_from p k s'
      | O =>
          match match_atoms p s with
          | Some m => m :: findall_from p (length m - 1) s'
          | None => findall_from p 0 s'
          end
      end
  end.

Definition re_findall (r : regex) (s : list ascii) : list (list ascii) :=
  findall_from (expand r) 0 s.

Definition AZ : ascii * ascii := ("A"%char, "Z"%char).
Definition D09 : ascii * ascii := ("0"%char, "9"%char).

(** [^[A-Z]{2}([A-Z0-9]){9}[0-9]] *)
Definition isin : regex :=
  [(Class [AZ], 2); (Class [AZ; D09], 9); (Class [D09], 1)].

(** [ [A-Z0-9]{2} ] with a space on each side *)
Definition exch : regex :=
  [(Lit " "%char, 1); (Class [AZ; D09], 2); (Lit " "%char, 1)].

(** The exchange suffix both branches compute from [exch.findall]. *)
Definition exch_suffix (ticker : list ascii) : list ascii :=
  match re_findall exch ticker with
  | e0 :: _ => " "%char :: py_strip e0
  | [] => []
  end.

(** [ticker.split()[0]] *)
Definition first_token {P} (ticker : list ascii) : Py.result P (list ascii) :=
  match py_split ticker with
  | tok :: _ => Py.Ok tok
  | [] => Py.Raise Py.IndexError
  end.

(** One turn of the loop over the cleaned tickers. *)
Definition parse_ticker {P} (new_tick : list string) (ticker : list ascii)
  : Py.result P (list string) :=
  match re_match isin ticker with
  | Some _ =>
      do! i <- first_token ticker;
      Py.Ok (new_tick ++ [str (chars "/isin/" ++ i ++ exch_suffix ticker)])
  | None =>
      if contains (chars " SEDOL") ticker then
        do! s <- first_token ticker;
        Py.Ok (new_tick ++ [str (chars "/sedol/" ++ s ++ exch_suffix ticker)])
      else Py.Ok (new_tick ++ [str ticker])
  end.

(** [_parse_tickers(tickers)] *)
Definition _parse_tickers {P} (tickers : Py.str_or_list) : Py.result P (list string) :=
  let tickers := Py.as_list tickers in
  let tickers := map (fun t => py_strip (py_upper (chars t))) tickers in
  Py.for_each parse_ticker tickers [].

End Tickers.

(** ** main.py: reading the events of a session *)

Module Events.

(** The event types of the vendor library: the six that [_EVENT_DICT]
    lists, and any other one by its number. *)
Inductive event_type : Type :=
| SESSION_STATUS
| RESPONSE
| PARTIAL_RESPONSE
| SERVICE_STATUS
| TIMEOUT
| REQUEST
| OTHER (number : Z).

#[global] Instance event_type_eq_dec : EqDecision event_type.
Proof. solve_decision. Defined.

(** [_EVENT_DICT[t]]; [None] stands for the [KeyError]. *)
Definition _EVENT_DICT (t : event_type) : option string :=
  match t with
  | SESSION_STATUS => Some "SESSION_STATUS"
  | RESPONSE => Some "RESPONSE"
  | PARTIAL_RESPONSE => Some "PARTIAL_RESPONSE"
  | SERVICE_STATUS => Some "SERVICE_STATUS"
  | TIMEOUT => Some "TIMEOUT"
  | REQUEST => Some "REQUEST"
  | OTHER _ => None
  end.

Definition _RESPONSE_TYPES : list event_type := [RESPONSE; PARTIAL_RESPONSE].

(** An event: its type and the messages it holds, in order. *)
Record event (M : Type) : Type := mk_event {
  eventType : event_type;
  messages : list M
}.

Arguments mk_event {M} eventType messages.
Arguments eventType {M} e.
Arguments messages {M} e.

Inductive error : Type :=
| RuntimeError (msg : string)
| KeyError (key : event_type).

(** How the generator ends: it returns, or it raises. *)
Inductive ending : Type :=
| StopIteration
| Raised (e : error).

(** One turn of the [while True] loop on the event [ev]: the messages
    it yields, then how the loop goes on: [inl] with the counter to
    continue with, [inr] with the ending. *)
Definition turn {M} (ev : event M) (sent_events : Z) : list M * (Z + ending) :=
  match _EVENT_DICT (eventType ev) with
  | None => ([], inr (Raised (KeyError (eventType ev))))
  | Some ev_name =>
      let yielded :=
        if bool_decide (eventType ev ∈ _RESPONSE_TYPES) then messages ev else [] in
      if decide (eventType ev = RESPONSE) then
        let sent_events := (sent_events - 1)%Z in
        if decide (sent_events = 0%Z) then (yielded, inr StopIteration)
        else (yielded, inl sent_events)
      else if bool_decide (eventType ev ∉ _RESPONSE_TYPES) then
        if decide (eventType ev = TIMEOUT)
        then (yielded, inr (Raised (RuntimeError "Timeout, increase BCon.timeout attribute")))
        else (yielded, inr (Raised (RuntimeError
                                      ("Unexpected Event Type: '" +:+ ev_name +:+ "'"))))
      else (yielded, inl sent_events)
  end.

(** [_receive_events(sent_events)] run to its end: the messages
    yielded, the ending, and the events left in the session. When no
    event is left, [nextEvent(self.timeout)] comes back with a
    [TIMEOUT] event, which holds no message. *)
Fixpoint _receive_events {M} (session : list (event M)) (sent_events : Z)
  : list M * ending * list (event M) :=
  match session with
  | [] => ([], Raised (RuntimeError "Timeout, increase BCon.timeout attribute"), [])
  | ev :: session' =>
      match turn ev sent_events with
      | (yielded, inr e) => (yielded, e, session')
      | (yielded, inl sent_events) =>
          let '(more, e, rest) := _receive_events session' sent_events in
          (yielded ++ more, e, rest)
      end
  end.

End Events.

(** ** cde.py: sending upload requests *)

Module Upload.

(** A row of the frame [_run_field_upload] builds: ticker, as-of date
    and the value of the uploaded field. *)
Record upload_row : Type := mk_upload_row {
  row_ticker : string;
  row_date : string;
  row_value : string
}.

(** [UploadRequest(sess_id, security_list, as_of_date, field)] *)
Record UploadRequest : Type := mk_UploadRequest {
  sess_id : string;
  ticker : list string;
  as_of_date : list string;
  values_list : string * list string
}.

(** What the code reads of an [uploadResponse]: the status under
    [returnStatus.returnStatus.status] and the messages under
    [returnStatus.returnStatus.notifications[i].notifications.message]. *)
Record upload_response : Type := mk_upload_response {
  status : string;
  notifications : list string
}.

(** What one attempt does on the session: [createRequest] or
    [fill_element] raises while the request is built, before anything
    is sent; [sendRequest] raises; or the request is sent and the
    session yields the messages of the response. *)
Inductive outcome : Type :=
| BuildRaises (what : string)
| SendRaises (what : string)
| Events (msgs : list upload_response).

(** The connection: [sent] counts the calls of [sendRequest] so far. *)
Record con : Type := mk_con { sent : nat }.

Section Session.

(** What the attempt made after [k] calls of [sendRequest] does. *)
Variable vendor : nat -> UploadRequest -> outcome.

(** The [while] loop of [_attempt_upload_request]. *)
Fixpoint attempt_loop (upload_request : UploadRequest)
    (attempts_remaining : nat) (result_status_code : option string)
    (resp : option upload_response) (c : con)
  : Py.result (upload_response * string) (option upload_response * option string) * con :=
  if decide (result_status_code = Some "S_SUCCESS")
  then (Py.Ok (resp, result_status_code), c)
  else
    match attempts_remaining with
    | O => (Py.Ok (resp, result_status_code), c)
    | S attempts_remaining =>
        let c' := mk_con (S (sent c)) in
        match vendor (sent c) upload_request with
        | BuildRaises what => (Py.Raise (Py.VendorError what), c)
        | SendRaises what => (Py.Raise (Py.VendorError what), c')
        | Events msgs =>
            match last msgs with
            | None => (Py.Raise Py.TypeError, c')
            | Some msg =>
                attempt_loop upload_request attempts_remaining
                  (Some (status msg)) (Some msg) c'
            end
        end
    end.

(** [_attempt_upload_request(con, upload_request, num_retries=4)] *)
Definition _attempt_upload_request (c : con) (upload_request : UploadRequest)
    (num_retries : nat)
  : Py.result (upload_response * string) (upload_response * string) * con :=
  match attempt_loop upload_request num_retries None None c with
  | (Py.Ok (Some resp, Some code), c') => (Py.Ok (resp, code), c')
  | (Py.Ok _, c') => (Py.Raise Py.UnboundLocalError, c')
  | (Py.Raise e, c') => (Py.Raise e, c')
  end.

Definition default_num_retries : nat := 4.

(** The [try] block computing [partial]: any failure to read the
    first notification leaves it [False]. *)
Definition partial_of (result : upload_response) : bool :=
  match notifications result with
  | message :: _ => if decide (message = "WRITE_PARTIALLY_FAILED") then true else false
  | [] => false
  end.

(** [_send_upload_requests(con, upload_requests)] *)
Fixpoint _send_upload_requests (c : con) (upload_requests : list UploadRequest)
  : Py.result (upload_response * string) unit * con :=
  match upload_requests with
  | [] => (Py.Ok tt, c)
  | upload_request :: rest =>
      match _attempt_upload_request c upload_request default_num_retries with
      | (Py.Raise e, c') => (Py.Raise e, c')
      | (Py.Ok (result, status), c') =>
          if negb (if decide (status = "S_SUCCESS") then true else false)
             && negb (partial_of result)
          then (Py.Raise (Py.ValueError (result, status)), c')
          else _send_upload_requests c' rest
      end
  end.

(** [_make_upload_requests(data_chunks, session_id, field)] *)
Definition _make_upload_requests (data_chunks : list (list upload_row))
    (session_id field : string) : list UploadRequest :=
  map (fun chunk =>
         mk_UploadRequest session_id (map row_ticker chunk)
           (map row_date chunk) (field, map row_value chunk))
      data_chunks.

(** [_run_field_upload]: [df] is the joined ticker/date/field frame. *)
Definition _run_field_upload (c : con) (session_id field_name : string)
    (df : list upload_row)
  : Py.result (upload_response * string) unit * con :=
  match Chunks._cut_into_chunks_gen df 1000 with
  | Py.Raise e => (Py.Raise e, c)
  | Py.Ok chunks =>
      _send_upload_requests c (_make_upload_requests chunks session_id field_name)
  end.

End Session.

End Upload.

(** ** main.py: parsing reference-data responses *)

Module Ref.

(** A cell of an output row. *)
Inductive scalar : Type :=
| SStr (s : string)
| SNum (q : Qc)
| SInt (i : Z)
| SNaN.

(** The value of a field in [fieldData]: a singleton, or the array of
    a bulk field, each element being the dictionary under the field's
    name, with its items in order. *)
Inductive field_value : Type :=
| Single (v : scalar)
| Bulk (elements : list (list (string * scalar))).

(** [fe_dict['fieldExceptions']]: the field and
    [errorInfo.errorInfo.subcategory]. *)
Record field_exception : Type := mk_field_exception {
  fieldId : string;
  subcategory : string
}.

(** [security_data_dict['securityData']] *)
Record securityData : Type := mk_securityData {
  security : string;
  securityError : option string;
  fieldExceptions : list field_exception;
  fieldData : gmap string field_value
}.

Record message : Type := mk_message {
  correlationIds : list Z;
  ReferenceDataResponse : list securityData
}.

(** [[ticker, fld, val] + corrId] *)
Record ref_datum : Type := mk_ref_datum {
  r_ticker : string;
  r_field : string;
  r_value : scalar;
  r_corr : list Z
}.

(** [[ticker, fld, name, value, i] + corrId] *)
Record bulk_datum : Type := mk_bulk_datum {
  b_ticker : string;
  b_field : string;
  b_name : scalar;
  b_value : scalar;
  b_position : scalar;
  b_corr : list Z
}.

Section Parse.

Context {P : Type}.

(** [_check_fieldExceptions(field_exceptions)] *)
Fixpoint _check_fieldExceptions (field_exceptions : list field_exception)
  : Py.result P unit :=
  match field_exceptions with
  | [] => Py.Ok tt
  | fe :: rest =>
      if decide (subcategory fe = "INVALID_FIELD")
      then Py.Raise (Py.ValueErrorMsg (fieldId fe +:+ ": INVALID_FIELD"))
      else _check_fieldExceptions rest
  end.

(** The sentinel chosen per security. *)
Definition na_val (secData : securityData) : scalar :=
  match securityError secData with
  | Some _ => SStr "security not found"
  | None => SNaN
  end.

Definition corrId_of (keep_corrId : bool) (msg : message) : list Z :=
  if keep_corrId then correlationIds msg else [].

(** The body of [for fld in flds] in [_parse_ref]. *)
Definition ref_field (secData : securityData) (corrId : list Z)
    (data : list ref_datum) (fld : string) : Py.result P (list ref_datum) :=
  let ticker := security secData in
  match fieldData secData !! fld with
  | Some (Bulk _) =>
      Py.Raise (Py.ValueErrorMsg
        ("Field " +:+ Py.repr fld +:+ " returns bulk reference data which is not supported"))
  | None => Py.Ok (data ++ [mk_ref_datum ticker fld (na_val secData) corrId])
  | Some (Single val) => Py.Ok (data ++ [mk_ref_datum ticker fld val corrId])
  end.

(** The body of [for security_data_dict in d] in [_parse_ref]. *)
Definition ref_security (flds : list string) (corrId : list Z)
    (data : list ref_datum) (secData : securityData)
  : Py.result P (list ref_datum) :=
  do! _ <- _check_fieldExceptions (fieldExceptions secData);
  Py.for_each (ref_field secData corrId) flds data.

Definition ref_message (flds : list string) (keep_corrId : bool)
    (data : list ref_datum) (msg : message) : Py.result P (list ref_datum) :=
  Py.for_each (ref_security flds (corrId_of keep_corrId msg))
    (ReferenceDataResponse msg) data.

(** The loop of [_parse_ref(flds, keep_corrId)] over the messages
    that [_receive_events] yields, for a generator that yields [events]
    and returns; [BCon._parse_ref] below runs the generator. *)
Definition _parse_ref (events : list message) (flds : list string)
    (keep_corrId : bool) : Py.result P (list ref_datum) :=
  Py.for_each (ref_message flds keep_corrId) events [].

(** The rows of one bulk element: [enumerate] index [i], items in order. *)
Definition bulk_element_rows (ticker fld : string) (corrId : list Z)
    (i : nat) (data_dict : list (string * scalar)) : list bulk_datum :=
  map (fun item =>
         mk_bulk_datum ticker fld (SStr item.1) item.2 (SInt (Z.of_nat i)) corrId)
      data_dict.

(** The body of [for fld in flds] in [_parse_bulkref]. *)
Definition bulkref_field (secData : securityData) (corrId : list Z)
    (data : list bulk_datum) (fld : string) : Py.result P (list bulk_datum) :=
  let ticker := security secData in
  match fieldData secData !! fld with
  | Some (Single _) =>
      Py.Raise (Py.ValueErrorMsg
        ("Cannot parse field " +:+ Py.repr fld +:+ " which is not bulk reference data"))
  | Some (Bulk elements) =>
      Py.Ok (data ++ concat (imap (bulk_element_rows ticker fld corrId) elements))
  | None =>
      let na := na_val secData in
      Py.Ok (data ++ [mk_bulk_datum ticker fld na na na corrId])
  end.

Definition bulkref_security (flds : list string) (corrId : list Z)
    (data : list bulk_datum) (secData : securityData)
  : Py.result P (list bulk_datum) :=
  do! _ <- _check_fieldExceptions (fieldExceptions secData);
  Py.for_each (bulkref_field secData corrId) flds data.

Definition bulkref_message (flds : list string) (keep_corrId : bool)
    (data : list bulk_datum) (msg : message) : Py.result P (list bulk_datum) :=
  Py.for_each (bulkref_security flds (corrId_of keep_corrId msg))
    (ReferenceDataResponse msg) data.

(** The loop of [_parse_bulkref(flds, keep_corrId)] over the messages
    that [_receive_events] yields, for a generator that yields [events]
    and returns; [BCon._parse_bulkref] below runs the generator. *)
Definition _parse_bulkref (events : list message) (flds : list string)
    (keep_corrId : bool) : Py.result P (list bulk_datum) :=
  Py.for_each (bulkref_message flds keep_corrId) events [].

End Parse.

End Ref.

(** ** main.py: the parsers reading a session

    [_parse_ref] and [_parse_bulkref] run the body of their loop on
    each message as [_receive_events] yields it: an error of the body
    ends the loop before the generator is resumed, and an error of the
    generator ends it once the messages yielded so far are parsed. *)

Module BCon.
Import Events.

(** What a loop over [_receive_events] raises: the error of its body,
    or the error of the generator. *)
Inductive raised (P : Type) : Type :=
| InBody (e : Py.exn P)
| InGenerator (e : error).

Arguments InBody {P} e.
Arguments InGenerator {P} e.

Inductive outcome (P A : Type) : Type :=
| Returns (a : A)
| Raises (e : raised P).

Arguments Returns {P A} a.
Arguments Raises {P A} e.

Section Loop.

Context {P M S : Type}.
Variable body : S -> M -> Py.result P S.

(** [for msg in self._receive_events(sent_events): body] on the events
    the session holds: the generator takes the next event, the body
    runs on each message the event yields, then the generator goes on,
    returns or raises. When no event is left,
    [nextEvent(self.timeout)] comes back with a [TIMEOUT] event. *)
Fixpoint for_events (session : list (event M)) (sent_events : Z) (acc : S)
  : outcome P S :=
  match session with
  | [] => Raises (InGenerator (RuntimeError "Timeout, increase BCon.timeout attribute"))
  | ev :: session' =>
      let '(yielded, next) := turn ev sent_events in
      match Py.for_each body yielded acc with
      | Py.Raise e => Raises (InBody e)
      | Py.Ok acc =>
          match next with
          | inr StopIteration => Returns acc
          | inr (Raised e) => Raises (InGenerator e)
          | inl sent_events => for_events session' sent_events acc
          end
      end
  end.

End Loop.

(** [self._parse_ref(flds, keep_corrId, sent_events)] *)
Definition _parse_ref {P} (session : list (event Ref.message)) (flds : list string)
    (keep_corrId : bool) (sent_events : Z) : outcome P (list Ref.ref_datum) :=
  for_events (Ref.ref_message flds keep_corrId) session sent_events [].

(** [self._parse_bulkref(flds, keep_corrId, sent_events)] *)
Definition _parse_bulkref {P} (session : list (event Ref.message)) (flds : list string)
    (keep_corrId : bool) (sent_events : Z) : outcome P (list Ref.bulk_datum) :=
  for_events (Ref.bulkref_message flds keep_corrId) session sent_events [].

End BCon.

(** ** main.py: the historical-data path *)

Module Hist.

(** [d['securityData']] of a [HistoricalDataResponse]; each entry of
    [fieldData] is the dictionary [fd['fieldData']], items in order. *)
Record securityData : Type := mk_securityData {
  security : string;
  securityError : option string;
  fieldExceptions : list Ref.field_exception;
  fieldData : list (list (string * Ref.scalar))
}.

(** [msg['element']['HistoricalDataResponse']] *)
Record HistoricalDataResponse : Type := mk_response {
  response_securityData : securityData
}.

(** [(date, ticker, field, value)] *)
Definition hist_row : Type := Ref.scalar * string * string * Ref.scalar.

Definition has_security_error (d : HistoricalDataResponse) : bool :=
  match securityError (response_securityData d) with
  | Some _ => true
  | None => false
  end.

Definition has_field_exception (d : HistoricalDataResponse) : bool :=
  0 <? length (fieldExceptions (response_securityData d)).

(** [fd['fieldData']['date']] *)
Definition dict_get (fd : list (string * Ref.scalar)) (key : string)
  : Py.result HistoricalDataResponse Ref.scalar :=
  match list_find (fun item => item.1 = key) fd with
  | Some (_, item) => Py.Ok item.2
  | None => Py.Raise (Py.KeyError key)
  end.

(** The body of [for fname, value in fd['fieldData'].items()]. *)
Definition hist_item (ticker : string) (fd : list (string * Ref.scalar))
    (data : list hist_row) (item : string * Ref.scalar)
  : Py.result HistoricalDataResponse (list hist_row) :=
  if decide (item.1 = "date") then Py.Ok data
  else
    do! date <- dict_get fd "date";
    Py.Ok (data ++ [(date, ticker, item.1, item.2)]).

Definition hist_fd (ticker : string) (data : list hist_row)
    (fd : list (string * Ref.scalar))
  : Py.result HistoricalDataResponse (list hist_row) :=
  Py.for_each (hist_item ticker fd) fd data.

(** The body of [for msg in self._receive_events()]. *)
Definition hist_message (data : list hist_row) (d : HistoricalDataResponse)
  : Py.result HistoricalDataResponse (list hist_row) :=
  if has_security_error d || has_field_exception d
  then Py.Raise (Py.ValueError d)
  else
    let ticker := security (response_securityData d) in
    let fldDatas := fieldData (response_securityData d) in
    Py.for_each (hist_fd ticker) fldDatas data.

(** [_bdh_list] once the request is sent: [events] is what
    [_receive_events] yields. *)
Definition _bdh_list (events : list HistoricalDataResponse)
  : Py.result HistoricalDataResponse (list hist_row) :=
  Py.for_each hist_message events [].

End Hist.

(** ** main.py: [BCon.ref] and the point-in-time entry point [_BDP]

    The override columns of the frames are kept apart from the frames'
    own columns ([trans_ticker], [orig_ticker], [field], [value]), and
    an override value is a string: a null value, whose rows [groupby]
    leaves out, is outside the embedding. *)

Module Bdp.

(** A keyword override as the caller passes it: one value for every
    ticker, or a sequence with one value per ticker. *)
Inductive ovrd_arg : Type :=
| One (v : string)
| Many (vs : list string).

Abbreviation str_or_list := Py.str_or_list.
Abbreviation Str := Py.Str.
Abbreviation Lst := Py.Lst.
Abbreviation as_list := Py.as_list.

(** [d[k] = v] on a dictionary kept as its items in insertion order. *)
Fixpoint dict_set {V} (d : list (string * V)) (k : string) (v : V)
  : list (string * V) :=
  match d with
  | [] => [(k, v)]
  | item :: d' =>
      if decide (item.1 = k) then (k, v) :: d' else item :: dict_set d' k v
  end.

(** The request [_create_req] fills for a [ReferenceDataRequest]. *)
Record request : Type := mk_request {
  securities : list string;
  fields : list string;
  overrides : list (string * string)
}.

(** The connection: the requests sent so far, oldest first. *)
Record con : Type := mk_con { sent : list request }.

(** A row of [params_df] before grouping: the translated ticker and
    its value for each name of [ovrd_names], in that order. *)
Definition param_row : Type := string * list string.

(** A row of [params_df] after [groupby(...).agg('unique')]: the group
    key and the unique tickers of the group. *)
Definition group_row : Type := list string * list string.

(** A row of [all_data]: a parsed datum with the override columns. *)
Record data_row : Type := mk_data_row {
  d_datum : Ref.ref_datum;
  d_ovrds : list string
}.

(** A row of [inp_df]: translated ticker, original ticker, overrides. *)
Record inp_row : Type := mk_inp_row {
  trans_ticker : string;
  orig_ticker : string;
  i_ovrds : list string
}.

(** A row of [inp_df] after the merge: the columns [field] and [value]
    are [NaN] where no row of [all_data] matched. *)
Record merged_row : Type := mk_merged_row {
  m_inp : inp_row;
  m_field : Ref.scalar;
  m_value : Ref.scalar
}.

(** [Series.unique()]: first occurrences, in order. *)
Fixpoint unique {A} `{EqDecision A} (l : list A) : list A :=
  match l with
  | [] => []
  | x :: l' => x :: filter (fun y => y <> x) (unique l')
  end.

(** Lexicographic order of group keys, as tuples of strings. *)
Fixpoint key_leb (k1 k2 : list string) : bool :=
  match k1, k2 with
  | [], _ => true
  | _ :: _, [] => false
  | a :: k1', b :: k2' =>
      if decide (a = b) then key_leb k1' k2' else bool_decide (String.le a b)
  end.

Definition key_le (k1 k2 : list string) : Prop := key_leb k1 k2 = true.

#[global] Instance key_le_dec : RelDecision key_le.
Proof. intros k1 k2. unfold key_le. apply _. Defined.

(** [df.groupby(ovrd_names)['trans_ticker'].agg('unique').reset_index()]:
    one row per distinct key, keys ascending. *)
Definition groupby_unique (params_df : list param_row) : list group_row :=
  let keys := merge_sort key_le (unique (map snd params_df)) in
  map (fun key =>
         (key, unique (map fst (filter (fun r => r.2 = key) params_df))))
      keys.

(** The value of each override column at position [i]. *)
Definition ovrds_at (ovrds2 : list (string * list string)) (i : nat) : list string :=
  map (fun kv => default "" (kv.2 !! i)) ovrds2.

Section Session.

Context {P : Type}.

(** The messages the vendor sends back for the [k]-th request. *)
Variable vendor : nat -> request -> list Ref.message.

(** [BCon.ref(tickers, flds, ovrds)]; building the frame fails on an
    empty parse, whose frame has no column to rename. *)
Definition ref (c : con) (tickers : list string) (flds : str_or_list)
    (ovrds : list (string * string))
  : Py.result P (list Ref.ref_datum) * con :=
  let flds := as_list flds in
  let req := mk_request tickers flds ovrds in
  let c' := mk_con (sent c ++ [req]) in
  match Ref._parse_ref (vendor (length (sent c)) req) flds false with
  | Py.Raise e => (Py.Raise e, c')
  | Py.Ok [] => (Py.Raise (Py.ValueErrorMsg "Length mismatch"), c')
  | Py.Ok data => (Py.Ok data, c')
  end.

(** The loop over [field_ovrds.items()] that fills [ovrds2]. *)
Definition broadcast (numb_tickers : nat) (ovrds2 : list (string * list string))
    (item : string * ovrd_arg) : Py.result P (list (string * list string)) :=
  match item.2 with
  | One v => Py.Ok (dict_set ovrds2 item.1 (replicate numb_tickers v))
  | Many vs =>
      if decide (length vs <> numb_tickers)
      then Py.Raise (Py.ValueErrorMsg
             ("Invalid number of overrides specified for " +:+ item.1))
      else Py.Ok (dict_set ovrds2 item.1 vs)
  end.

(** [params_df] before grouping. *)
Definition params_frame (trans_tickers : list string)
    (ovrds2 : list (string * list string)) : list param_row :=
  imap (fun i t => (t, ovrds_at ovrds2 i)) trans_tickers.

(** [kwargs]: the overrides of a group, the dummy column left out. *)
Definition kwargs_of (ovrd_names : list string) (row : group_row)
  : list (string * string) :=
  filter (fun kv => kv.1 <> "dummy") (zip ovrd_names row.1).

(** The loop [for row in params_df.to_dict(orient='records')]. *)
Fixpoint fetch_all (c : con) (field : str_or_list) (ovrd_names : list string)
    (rows : list group_row) (all_data : list data_row)
  : Py.result P (list data_row) * con :=
  match rows with
  | [] => (Py.Ok all_data, c)
  | row :: rest =>
      match ref c row.2 field (kwargs_of ovrd_names row) with
      | (Py.Raise e, c') => (Py.Raise e, c')
      | (Py.Ok data, c') =>
          fetch_all c' field ovrd_names rest
            (all_data ++ map (fun d => mk_data_row d row.1) data)
      end
  end.

Definition same_key (l : inp_row) (r : data_row) : Prop :=
  Ref.r_ticker (d_datum r) = trans_ticker l /\ d_ovrds r = i_ovrds l.

#[global] Instance same_key_dec l r : Decision (same_key l r).
Proof. unfold same_key. apply _. Defined.

Definition data_key (r : data_row) : string * list string :=
  (Ref.r_ticker (d_datum r), d_ovrds r).

(** The rows a left row produces in a left join. *)
Definition join_row (all_data : list data_row) (l : inp_row) : list merged_row :=
  match filter (same_key l) all_data with
  | [] => [mk_merged_row l Ref.SNaN Ref.SNaN]
  | matches =>
      map (fun r => mk_merged_row l (Ref.SStr (Ref.r_field (d_datum r)))
                      (Ref.r_value (d_datum r)))
          matches
  end.

(** [inp_df.merge(all_data, how='left', validate='m:1', on=...)]: a
    frame without the key columns raises [KeyError]; keys repeated on
    the right raise [MergeError], a [ValueError]. *)
Definition merge_left_m1 (inp_df : list inp_row) (all_data : list data_row)
  : Py.result P (list merged_row) :=
  match all_data with
  | [] => Py.Raise (Py.KeyError "trans_ticker")
  | _ =>
      if decide (NoDup (map data_key all_data))
      then Py.Ok (flat_map (join_row all_data) inp_df)
      else Py.Raise (Py.ValueErrorMsg
             "Merge keys are not unique in right dataset; not a many-to-one merge")
  end.

(** The end of [_BDP]: the row-count check and the value column. *)
Definition finish (inp_df : list merged_row) (tickers : list string)
  : Py.result P (list Ref.scalar) :=
  if decide (length inp_df <> length tickers)
  then Py.Raise (Py.ValueErrorMsg
         "uneven length of response tickers to request tickers")
  else Py.Ok (map m_value inp_df).

(** What [_BDP] computes before it opens the connection. *)
Definition prepare (tickers : list string) (field_ovrds : list (string * ovrd_arg))
  : Py.result P (list string * list (string * list string)) :=
  do! trans_tickers <- Tickers._parse_tickers (Lst tickers);
  let numb_tickers := length trans_tickers in
  let field_ovrds := dict_set field_ovrds "dummy" (One "dummy") in
  do! ovrds2 <- Py.for_each (broadcast numb_tickers) field_ovrds [];
  Py.Ok (trans_tickers, ovrds2).

Definition inp_frame (trans_tickers tickers : list string)
    (ovrds2 : list (string * list string)) : list inp_row :=
  imap (fun i t => mk_inp_row t (default "" (tickers !! i)) (ovrds_at ovrds2 i))
       trans_tickers.

(** [_BDP(tickers, field, **field_ovrds)] on a fresh connection. *)
Definition _BDP (tickers : str_or_list) (field : str_or_list)
    (field_ovrds : list (string * ovrd_arg))
  : Py.result P (list Ref.scalar) * con :=
  let tickers := as_list tickers in
  let c := mk_con [] in
  match prepare tickers field_ovrds with
  | Py.Raise e => (Py.Raise e, c)
  | Py.Ok (trans_tickers, ovrds2) =>
      let ovrd_names := map fst ovrds2 in
      let params_df := groupby_unique (params_frame trans_tickers ovrds2) in
      match fetch_all c field ovrd_names params_df [] with
      | (Py.Raise e, c') => (Py.Raise e, c')
      | (Py.Ok all_data, c') =>
          let inp_df := inp_frame trans_tickers tickers ovrds2 in
          (do! inp_df <- merge_left_m1 inp_df all_data;
           finish inp_df tickers, c')
      end
  end.

End Session.

End Bdp.

(** ** main.py: the bid/ask/trade statistics of [_bbat] *)

Module Bbat.

(** The columns of the pivoted frame that the statistics below read.
    The column [time] is aware of its time zone: a cell is an instant,
    in nanoseconds since the epoch, and the zone [tz_info] of the
    column tells the wall clock at that instant. Numbers are rationals
    and the sums, products and quotients are taken exactly; a [NaN]
    cell is [None]. *)
Record row : Type := mk_row {
  ticker : string;
  time : Z;
  bid_ask_spread_bps : option Qc;
  TRADE_SIZE : option Qc;
  TRADE_VALUE : option Qc
}.

Abbreviation column := (list (option Qc)).

(** Element-wise product of two cells; [NaN] propagates. *)
Definition fmul (a b : option Qc) : option Qc :=
  match a, b with
  | Some x, Some y => Some (x * y)%Qc
  | _, _ => None
  end.

(** Element-wise quotient; [NaN] propagates and a zero divisor gives a
    float that is not finite, also [None]. *)
Definition fdiv (a b : option Qc) : option Qc :=
  match a, b with
  | Some x, Some y => if decide (y = 0%Qc) then None else Some (x / y)%Qc
  | _, _ => None
  end.

(** [col.expanding().sum()]: the running sum of the cells that are not
    [NaN], itself [NaN] until the first such cell. *)
Fixpoint expanding_sum_from (acc : option Qc) (col : column) : column :=
  match col with
  | [] => []
  | x :: col' =>
      let acc' :=
        match x with
        | Some v => Some (default 0%Qc acc + v)%Qc
        | None => acc
        end in
      acc' :: expanding_sum_from acc' col'
  end.

Definition expanding_sum (col : column) : column := expanding_sum_from None col.

(** [col.fillna(method='ffill')] *)
Fixpoint ffill_from (last : option Qc) (col : column) : column :=
  match col with
  | [] => []
  | Some v :: col' => Some v :: ffill_from (Some v) col'
  | None :: col' => last :: ffill_from last col'
  end.

Definition ffill (col : column) : column := ffill_from None col.

(** [col.fillna(0)] *)
Definition fillna0 (col : column) : column :=
  map (fun x => Some (default 0%Qc x)) col.

(** [col.sum()]: [NaN] cells are skipped. *)
Definition col_sum (col : column) : Qc :=
  foldr (fun x acc => (default 0%Qc x + acc)%Qc) 0%Qc col.

(** [a.dot(b)] *)
Definition col_dot (a b : column) : option Qc :=
  foldr (fun xy acc => match fmul xy.1 xy.2, acc with
                       | Some p, Some s => Some (p + s)%Qc
                       | _, _ => None
                       end)
        (Some 0%Qc) (zip a b).

(** The column [df['vwap']] of the frame that is not a summary. *)
Definition vwap_column (df : list row) : column :=
  let size := map TRADE_SIZE df in
  let value := map TRADE_VALUE df in
  let vwap :=
    zip_with fdiv (zip_with fmul (expanding_sum size) (expanding_sum value))
                  (expanding_sum size) in
  fillna0 (ffill vwap).

(** The statistic [vwap] of the summary. *)
Definition summary_vwap (df : list row) : option Qc :=
  let size := fillna0 (map TRADE_SIZE df) in
  let value := fillna0 (map TRADE_VALUE df) in
  fdiv (col_dot size value) (Some (col_sum size)).

(** [time.dt.date]: the calendar day on the wall clock of the zone.
    [tz_info t] is the offset of the zone from UTC at the instant [t],
    in nanoseconds. *)
Definition ns_per_day : Z := 86400 * 1000000000.
Definition date_of (tz_info : Z -> Z) (t : Z) : Z := ((t + tz_info t) / ns_per_day)%Z.

(** [Timedelta.total_seconds()] *)
Definition total_seconds (ns : Z) : Qc := Q2Qc (Qmake ns 1000000000).

Definition group_key (tz_info : Z -> Z) (r : row) : string * Z :=
  (ticker r, date_of tz_info (time r)).

(** [df.sort_values(by=['ticker', 'time'])]: aware times compare as
    instants. *)
Definition row_le (r1 r2 : row) : Prop :=
  String.le (ticker r1) (ticker r2) /\
  (ticker r1 = ticker r2 -> (time r1 <= time r2)%Z).

#[global] Instance row_le_dec : RelDecision row_le.
Proof. intros r1 r2. unfold row_le. apply _. Defined.

Definition sort_values (df : list row) : list row := merge_sort row_le df.

(** [df.groupby([ticker, time.dt.date])['time'].diff()]: the rows are
    grouped by ticker and by the calendar day of the wall clock, and
    the difference to the previous row of the same group is the time
    elapsed between the two instants. [earlier] holds the rows already
    seen, the most recent first. *)
Fixpoint group_diff_from (tz_info : Z -> Z) (earlier : list row) (df : list row)
  : list (option Z) :=
  match df with
  | [] => []
  | r :: df' =>
      (match list_find (fun p => group_key tz_info p = group_key tz_info r) earlier with
       | Some (_, p) => Some (time r - time p)%Z
       | None => None
       end) :: group_diff_from tz_info (r :: earlier) df'
  end.

Definition group_diff (tz_info : Z -> Z) (df : list row) : list (option Z) :=
  group_diff_from tz_info [] df.

(** [col.shift(-1)] *)
Definition shift_up {A} (col : list (option A)) : list (option A) :=
  match col with
  | [] => []
  | _ :: col' => col' ++ [None]
  end.

(** [df['quote_life_secs']] *)
Definition quote_life_secs (tz_info : Z -> Z) (df : list row) : column :=
  map (fmap total_seconds) (shift_up (group_diff tz_info df)).

(** [df['adj_quote_life_secs']]: zero where the spread is [NaN]. *)
Definition adj_quote_life_secs (tz_info : Z -> Z) (df : list row) : column :=
  zip_with (fun r life => match bid_ask_spread_bps r with
                          | None => Some 0%Qc
                          | Some _ => life
                          end)
           df (quote_life_secs tz_info df).

(** The statistic [twa_spread_bps] of the summary. *)
Definition twa_spread_bps (tz_info : Z -> Z) (df : list row) : option Qc :=
  let bps := fillna0 (map bid_ask_spread_bps df) in
  let adj := fillna0 (adj_quote_life_secs tz_info df) in
  let sum_bas := zip_with fmul bps adj in
  fdiv (Some (col_sum sum_bas)) (Some (col_sum adj)).

(** What [_bbat] returns, as far as it is modelled: the [vwap] column
    of the frame, or the statistics [twa_spread_bps] and [vwap] of the
    one-row summary. *)
Inductive bbat_output : Type :=
| Frame (vwap : column)
| Summary (twas vwap : option Qc).

(** [_bbat(..., summary)] from the pivoted and merged frame on: [rows]
    holds the rows with their columns as computed, their times
    converted to the zone [tz_info] of the exchange, and
    [sort_values(by=['ticker', 'time'])] gives them their order. *)
Definition _bbat (tz_info : Z -> Z) (rows : list row) (summary : bool) : bbat_output :=
  let df := sort_values rows in
  if summary
  then Summary (twa_spread_bps tz_info df) (summary_vwap df)
  else Frame (vwap_column df).

End Bbat.

(** ** cde.py: uploading the fields of a frame *)

Module DfUpload.
Import Upload.

(** The frame given to [_run_df_upload]: the column names in order
    (distinct), the string columns [ticker] and [date], and the cells of
    the other columns by name, [None] for [NaN]. *)
Record frame : Type := mk_frame {
  columns : list string;
  df_ticker : list string;
  df_date : list string;
  df_field : string -> list (option string)
}.

(** What [_run_df_upload] raises: the [Exception] of its own check,
    with the columns it names, or what an upload raised. *)
Inductive error : Type :=
| Exception (cols : list string)
| UploadError (e : Py.exn (upload_response * string)).

(** [[x for x in cols if x not in ['ticker', 'date']]] *)
Definition fields_of (cols : list string) : list string :=
  filter (fun x => x ∉ ["ticker"; "date"]) cols.

(** [tmp.loc[~tmp[field].isna()].reset_index(drop=True)] joined back
    into the frame of [_run_field_upload]. *)
Definition field_frame (df : frame) (field : string) : list upload_row :=
  omap (fun r => mk_upload_row r.1.1 r.1.2 <$> r.2)
       (zip (zip (df_ticker df) (df_date df)) (df_field df field)).

Section Session.

Variable vendor : nat -> UploadRequest -> outcome.

(** The loop [for field in fields]. *)
Fixpoint field_loop (c : con) (session_id : string) (df : frame)
    (fields : list string) : option error * con :=
  match fields with
  | [] => (None, c)
  | field :: rest =>
      match _run_field_upload vendor c session_id field (field_frame df field) with
      | (Py.Raise e, c') => (Some (UploadError e), c')
      | (Py.Ok _, c') => field_loop c' session_id df rest
      end
  end.

(** [_run_df_upload(con, df)]; [None] is the normal return. *)
Definition _run_df_upload (c : con) (session_id : string) (df : frame)
  : option error * con :=
  let cols := columns df in
  let fields := fields_of cols in
  if (length fields <? 1)
     || negb (bool_decide ("ticker" ∈ cols))
     || negb (bool_decide ("date" ∈ cols))
  then (Some (Exception cols), c)
  else field_loop c session_id df fields.

End Session.

End DfUpload.

(** ** main.py: the request elements of the historical entry point [_BDH] *)

Module Bdh.

Abbreviation str_or_list := Py.str_or_list.
Abbreviation as_list := Py.as_list.

(** A value of a request element: a string or a boolean. *)
Inductive elm : Type :=
| EStr (s : string)
| EBool (b : bool).

(** [usedpdf]: one boolean, or a sequence of them. *)
Inductive bool_or_list : Type :=
| OneBool (b : bool)
| Bools (l : list bool).

Definition as_bools (a : bool_or_list) : list bool :=
  match a with
  | OneBool b => [b]
  | Bools l => l
  end.

(** The keyword arguments of [_BDH] that end up in request elements;
    [None] is Python's [None]. *)
Record args : Type := mk_args {
  start_date : str_or_list;
  end_date : str_or_list;
  cdr : option str_or_list;
  fx : option str_or_list;
  fill : str_or_list;
  usedpdf : bool_or_list;
  period : str_or_list
}.

(** [s.upper()] *)
Definition upper (s : string) : string :=
  Tickers.str (Tickers.py_upper (Tickers.chars s)).

(** The truth value of an optional sequence: [None] and the empty
    sequence are false. *)
Definition truthy (a : option (list string)) : bool :=
  match a with
  | Some (_ :: _) => true
  | _ => false
  end.

(** [a == b] on values that are a str or a list of str: a str and a
    list are never equal. *)
Definition py_eq (a b : str_or_list) : bool :=
  match a, b with
  | Py.Str s, Py.Str s' => bool_decide (s = s')
  | Py.Lst l, Py.Lst l' => bool_decide (l = l')
  | _, _ => false
  end.

(** The body of [for f in fill]; the error carries [fill]. *)
Definition clean_fill_step (fill : list string) (clean_fill : list string) (f : string)
  : Py.result (list string) (list string) :=
  if decide (upper f = "B") then Py.Ok (clean_fill ++ ["NIL_VALUE"])
  else if decide (upper f = "P") then Py.Ok (clean_fill ++ ["PREVIOUS_VALUE"])
  else Py.Raise (Py.ValueError fill).

Definition per_lookup (p : string) : option string :=
  if decide (p = "D") then Some "DAILY"
  else if decide (p = "W") then Some "WEEKLY"
  else if decide (p = "M") then Some "MONTHLY"
  else if decide (p = "S") then Some "SEMI_ANNUALLY"
  else if decide (p = "Q") then Some "QUARTERLY"
  else if decide (p = "A") then Some "YEARLY"
  else None.

(** The body of [for p in period]. *)
Definition clean_period_step (clean_period : list string) (p : string)
  : Py.result (list string) (list string) :=
  match per_lookup (upper p) with
  | Some v => Py.Ok (clean_period ++ [v])
  | None => Py.Raise (Py.KeyError (upper p))
  end.

(** [elms_dict1], its items in insertion order; [period] is a list by
    the time it is compared with ['DAILY']. *)
Definition elms_dict1 (a : args) : Py.result (list string) (list (string * list elm)) :=
  let start_date := as_list (start_date a) in
  let end_date := as_list (end_date a) in
  let cdr := as_list <$> cdr a in
  let fill := as_list (fill a) in
  let fx := as_list <$> fx a in
  let usedpdf := as_bools (usedpdf a) in
  let period := as_list (period a) in
  do! clean_fill <- Py.for_each (clean_fill_step fill) fill [];
  let d := Bdp.dict_set [] "nonTradingDayFillMethod" (map EStr clean_fill) in
  let d := Bdp.dict_set d "adjustmentFollowDPDF" (map EBool usedpdf) in
  let d := if truthy fx
           then Bdp.dict_set d "currency" (map EStr (default [] fx))
           else d in
  let d := Bdp.dict_set d "start_date" (map EStr start_date) in
  let d := Bdp.dict_set d "end_date" (map EStr end_date) in
  do! clean_period <- Py.for_each clean_period_step period [];
  let d := Bdp.dict_set d "periodicitySelection" (map EStr clean_period) in
  let d := if py_eq (Py.Lst period) (Py.Str "DAILY") && truthy cdr
           then Bdp.dict_set d "calendarCodeOverride"
                  (map (fun c => EStr (upper c)) (default [] cdr))
           else d in
  Py.Ok d.

(** The body of [for k, v in elms_dict1.items()]: every value is a
    sequence here; one of length one is repeated for every ticker. *)
Definition broadcast_elm (numb_tickers : nat) (elms_dict : list (string * list elm))
    (item : string * list elm) : Py.result (list string) (list (string * list elm)) :=
  if length item.2 =? 1
  then Py.Ok (Bdp.dict_set elms_dict item.1 (concat (replicate numb_tickers item.2)))
  else if decide (length item.2 <> numb_tickers)
  then Py.Raise (Py.ValueErrorMsg
         ("Invalid number of overrides specified for " +:+ item.1))
  else Py.Ok (Bdp.dict_set elms_dict item.1 item.2).

(** [elms_dict] as [_BDH] has it for [numb_tickers] tickers. *)
Definition elms_dict (numb_tickers : nat) (a : args)
  : Py.result (list string) (list (string * list elm)) :=
  do! d1 <- elms_dict1 a;
  Py.for_each (broadcast_elm numb_tickers) d1 [].

End Bdh.

(** ** main.py: the exchange data [_EPRX] returns for a ticker

    [_EPRX] is cached on its arguments, which are therefore hashable:
    the ticker is a str, and [subset] is [None] or the name of one
    column. What follows is a call that the cache does not answer. *)

Module Eprx.
Import Tickers.

Definition az : ascii * ascii := ("a"%char, "z"%char).

(** [ [A-Za-z0-9]{2} ] with a space on each side *)
Definition exch : regex :=
  [(Lit " "%char, 1); (Class [AZ; az; D09], 2); (Lit " "%char, 1)].

Definition comps : list string :=
  ["GR"; "RM"; "BZ"; "UZ"; "SW"; "EY"; "AR";
   "CB"; "VC"; "ED"; "MM"; "US"; "CI"; "CN";
   "UH"; "VN"; "PA"; "IN"; "KS"; "CH"; "JP";
   "IR"; "AU"; "EU"; "GA"; "RO"; "DC";
   "SM"; "RU"; "CP"; "LR"; "SS"; "CZ"].

(** The sheet [exchange_data] as a frame: the names of its columns and
    its rows, each the cells under the columns in order. *)
Record frame : Type := mk_frame {
  columns : list string;
  rows : list (list Ref.scalar)
}.

(** What [_EPRX] returns for a str: a cell, the first row as a Series,
    or the first row as a dictionary. *)
Inductive output : Type :=
| Cell (v : Ref.scalar)
| Series (items : list (string * Ref.scalar))
| Dict (items : list (string * Ref.scalar)).

(** [a == b] on two cells: texts are equal as texts, numbers as
    numbers, and a [NaN] equals nothing. *)
Definition cell_eq (a b : Ref.scalar) : bool :=
  match a, b with
  | Ref.SStr x, Ref.SStr y => bool_decide (x = y)
  | Ref.SNum x, Ref.SNum y => bool_decide (x = y)
  | Ref.SInt x, Ref.SInt y => bool_decide (x = y)
  | Ref.SNum x, Ref.SInt y => bool_decide (x = Q2Qc (inject_Z y))
  | Ref.SInt x, Ref.SNum y => bool_decide (Q2Qc (inject_Z x) = y)
  | _, _ => false
  end.

Section Session.

Context {P : Type}.

(** The vendor behind [_BDP]. *)
Variable vendor : nat -> Bdp.request -> list Ref.message.

(** [load_exchange_data()] *)
Variable data : frame.

(** The code [_EPRX] looks up for a ticker given as a str: a ticker of
    two characters is the code itself, otherwise the code is read off
    the first match of [exch]. *)
Definition exchange_code (tickers : string) : Py.result P string :=
  let loc :=
    if length (chars tickers) =? 2
    then [py_upper (chars tickers)]
    else re_findall exch (chars tickers) in
  match loc with
  | [] => Py.Raise (Py.ValueErrorMsg ("Could not derive exchange from " +:+ tickers))
  | loc0 :: _ => Py.Ok (str (py_upper (py_strip loc0)))
  end.

(** [if (loc in comps) and decomp: loc = _BDP(tickers, 'EQY_PRIM_EXCH_SHRT')[0]] *)
Definition primary_exchange (tickers loc : string) (decomp : bool)
  : Py.result P Ref.scalar :=
  if bool_decide (loc ∈ comps) && decomp
  then
    do! values <- (Bdp._BDP (P:=P) vendor (Py.Str tickers)
                     (Py.Str "EQY_PRIM_EXCH_SHRT") []).1;
    match values with
    | [] => Py.Raise Py.IndexError
    | v :: _ => Py.Ok v
    end
  else Py.Ok (Ref.SStr loc).

(** The position of the column [c]; [KeyError] when there is none. *)
Definition position (df : frame) (c : string) : Py.result P nat :=
  match list_find (fun x => x = c) (columns df) with
  | Some (i, _) => Py.Ok i
  | None => Py.Raise (Py.KeyError c)
  end.

Definition cell_at (i : nat) (row : list Ref.scalar) : Ref.scalar :=
  default Ref.SNaN (row !! i).

(** [df[c]] *)
Definition column (df : frame) (c : string) : Py.result P (list Ref.scalar) :=
  do! i <- position df c;
  Py.Ok (map (cell_at i) (rows df)).

(** [df[cols]] *)
Definition select (df : frame) (cols : list string) : Py.result P frame :=
  do! positions <-
    Py.for_each (fun acc c => do! i <- position df c; Py.Ok (acc ++ [i])) cols [];
  Py.Ok (mk_frame cols (map (fun row => map (fun i => cell_at i row) positions) (rows df))).

(** [df.loc[mask]] *)
Definition loc_rows (df : frame) (mask : list bool) : frame :=
  mk_frame (columns df) (map fst (filter (fun rm => rm.2 = true) (zip (rows df) mask))).

(** [df.to_dict(orient='records')] *)
Definition records (df : frame) : list (list (string * Ref.scalar)) :=
  map (zip (columns df)) (rows df).

Definition no_data (tickers : string) : Py.exn P :=
  Py.ValueErrorMsg ("No exchange data found for " +:+ tickers).

(** From [data.loc[data['bbg_exch_code']==loc]] to the end of the
    branch for a str. *)
Definition exchange_data (tickers : string) (subset : Py.str_or_list) (loc : Ref.scalar)
  : Py.result P output :=
  do! codes <- column data "bbg_exch_code";
  let found := loc_rows data (map (fun c => cell_eq c loc) codes) in
  match subset with
  | Py.Str s =>
      if decide (length (rows found) = 0) then Py.Raise (no_data tickers)
      else
        do! col <- column found s;
        match col with
        | [] => Py.Raise Py.IndexError
        | v :: _ => Py.Ok (Cell v)
        end
  | Py.Lst cols =>
      if decide (length cols = 1) then
        if decide (length (rows found) = 0) then Py.Raise (no_data tickers)
        else
          do! found <- select found cols;
          match records found with
          | [] => Py.Raise Py.IndexError
          | r :: _ => Py.Ok (Series r)
          end
      else
        do! found <- (if decide (cols = []) then Py.Ok found else select found cols);
        if decide (length (rows found) = 0) then Py.Raise (no_data tickers)
        else
          match records found with
          | [] => Py.Raise Py.IndexError
          | r :: _ => Py.Ok (Dict r)
          end
  end.

(** [_EPRX(tickers, subset, decomp)] for a str [tickers]; an empty
    [subset] stands for all columns. *)
Definition _EPRX (tickers : string) (subset : option string) (decomp : bool)
  : Py.result P output :=
  let subset :=
    match subset with
    | Some s => if decide (s = "") then Py.Lst (columns data) else Py.Str s
    | None => Py.Lst (columns data)
    end in
  do! loc <- exchange_code tickers;
  do! loc <- primary_exchange tickers loc decomp;
  exchange_data tickers subset loc.

End Session.

End Eprx.

(** * Vocabulary of the statements *)

(** ** The words of the ticker description *)

Module TickersSpec.
Import Tickers.

(** The words of the description, on uppercased text. *)
Definition is_letter (c : ascii) : Prop := 65 <= code c <= 90.

Definition is_digit (c : ascii) : Prop := 48 <= code c <= 57.

Definition is_alnum (c : ascii) : Prop := is_letter c \/ is_digit c.

(** Two letters, nine alphanumerics and a digit at the start. *)
Definition IsinForm (u : list ascii) : Prop :=
  exists a b mid d rest,
    u = a :: b :: mid ++ d :: rest /\
    is_letter a /\ is_letter b /\
    length mid = 9 /\ Forall is_alnum mid /\ is_digit d.

(** [needle] occurs in [u]. *)
Definition Contains (needle u : list ascii) : Prop :=
  exists before after, u = before ++ needle ++ after.

(** [tok] is the first maximal run of non-whitespace of [u]. *)
Definition FirstToken (u tok : list ascii) : Prop :=
  exists ws rest,
    u = ws ++ tok ++ rest /\
    Forall (fun c => is_space c = true) ws /\
    tok <> [] /\ Forall (fun c => is_space c = false) tok /\
    (rest = [] \/ exists c rest', rest = c :: rest' /\ is_space c = true).

(** A two-character code between two spaces starts at offset [n]. *)
Definition ExchAt (u : list ascii) (n : nat) (a b : ascii) : Prop :=
  exists after,
    drop n u = " "%char :: a :: b :: " "%char :: after /\
    n < length u /\ is_alnum a /\ is_alnum b.

(** The suffix for the leftmost exchange code, empty when there is none. *)
Definition ExchSuffix (u sfx : list ascii) : Prop :=
  (exists n a b, ExchAt u n a b /\
                 (forall n' a' b', ExchAt u n' a' b' -> n <= n') /\
                 sfx = [" "%char; a; b]) \/
  ((forall n a b, ~ ExchAt u n a b) /\ sfx = []).

(** The uppercased, stripped form of an input. *)
Definition canon (t : string) : list ascii := py_strip (py_upper (chars t)).

(** What the description promises for a cleaned ticker [u], the cases
    being tried in the order of the code. *)
Definition Normalized (u : list ascii) (o : string) : Prop :=
  (IsinForm u ->
   exists tok sfx, FirstToken u tok /\ ExchSuffix u sfx /\
                   o = str (chars "/isin/" ++ tok ++ sfx)) /\
  (~ IsinForm u -> Contains (chars " SEDOL") u ->
   exists tok sfx, FirstToken u tok /\ ExchSuffix u sfx /\
                   o = str (chars "/sedol/" ++ tok ++ sfx)) /\
  (~ IsinForm u -> ~ Contains (chars " SEDOL") u -> o = str u).

End TickersSpec.

(** ** The words of the upload description *)

Module UploadSpec.
Import Upload.

(** The [k]-th request of the session was answered, and not with success. *)
Definition answered_without_success (vendor : nat -> UploadRequest -> outcome)
    (upload_request : UploadRequest) (k : nat) : Prop :=
  exists msgs msg,
    vendor k upload_request = Events msgs /\ last msgs = Some msg /\
    status msg <> "S_SUCCESS".

(** The last request sent on [c] was answered with [msg]. *)
Definition last_answer (vendor : nat -> UploadRequest -> outcome)
    (upload_request : UploadRequest) (c : con) (msg : upload_response) : Prop :=
  exists msgs,
    vendor (sent c - 1) upload_request = Events msgs /\ last msgs = Some msg.

(** A session that answers [S_FAILURE] twice and then [S_SUCCESS]. *)
Definition flaky (k : nat) (upload_request : UploadRequest) : outcome :=
  if k <? 2 then Events [mk_upload_response "S_FAILURE" []]
  else Events [mk_upload_response "S_SUCCESS" []].

Definition one_request : UploadRequest :=
  mk_UploadRequest "sess" ["IBM US Equity"] ["2020-01-02"] ("PX", ["1"]).

End UploadSpec.

(** ** The words of the reference-data description *)

Module RefSpec.
Import Ref.

Definition invalid_field (fe : field_exception) : Prop :=
  subcategory fe = "INVALID_FIELD".

(** The value [_parse_ref] emits for a requested field. *)
Definition ref_value (secData : securityData) (fld : string) : scalar :=
  match fieldData secData !! fld with
  | Some (Single v) => v
  | _ => na_val secData
  end.

Definition not_bulk (secData : securityData) (fld : string) : Prop :=
  forall elements, fieldData secData !! fld <> Some (Bulk elements).

Definition not_single (secData : securityData) (fld : string) : Prop :=
  forall v, fieldData secData !! fld <> Some (Single v).

(** The rows [_parse_bulkref] emits for a requested field. *)
Definition bulk_rows (secData : securityData) (corrId : list Z) (fld : string)
  : list bulk_datum :=
  match fieldData secData !! fld with
  | Some (Bulk elements) =>
      concat (imap (bulk_element_rows (security secData) fld corrId) elements)
  | _ => [mk_bulk_datum (security secData) fld (na_val secData) (na_val secData)
            (na_val secData) corrId]
  end.

(** The sentinel of a security: the string for an unknown security,
    [NaN] otherwise. *)
Definition sentinel_of (secData : securityData) : scalar :=
  match securityError secData with
  | Some _ => SStr "security not found"
  | None => SNaN
  end.

(** The rows [_parse_ref] emits for a security: one per requested field. *)
Definition ref_rows (flds : list string) (corrId : list Z) (secData : securityData)
  : list ref_datum :=
  map (fun fld => mk_ref_datum (security secData) fld (ref_value secData fld) corrId) flds.

(** A security on which [_parse_ref], respectively [_parse_bulkref],
    has no reason to raise. *)
Definition clean_ref (flds : list string) (secData : securityData) : Prop :=
  (forall fe, fe ∈ fieldExceptions secData -> subcategory fe <> "INVALID_FIELD") /\
  Forall (not_bulk secData) flds.

Definition clean_bulk (flds : list string) (secData : securityData) : Prop :=
  (forall fe, fe ∈ fieldExceptions secData -> subcategory fe <> "INVALID_FIELD") /\
  Forall (not_single secData) flds.

(** An unknown security as the vendor reports it, and the same security
    with an invalid field among the field exceptions. *)
Definition unknown_security : securityData :=
  mk_securityData "XXX US Equity" (Some "BAD_SEC") [] ∅.

Definition unknown_security_invalid_field : securityData :=
  mk_securityData "XXX US Equity" (Some "BAD_SEC")
    [mk_field_exception "PX_LAST" "INVALID_FIELD"] ∅.

End RefSpec.

(** ** The words of the historical-data description *)

Module HistSpec.
Import Hist.

Definition has_error (d : HistoricalDataResponse) : bool :=
  has_security_error d || has_field_exception d.

(** A response the loop body accepts: no error, and every dictionary of
    field data carries its date. *)
Definition well_formed (d : HistoricalDataResponse) : Prop :=
  has_error d = false /\
  Forall (fun fd => exists date, dict_get fd "date" = Py.Ok date)
         (fieldData (response_securityData d)).

(** A row of the output is read off the field data of [d]. *)
Definition row_from (d : HistoricalDataResponse) (row : hist_row) : Prop :=
  let '(date, ticker, fname, value) := row in
  ticker = security (response_securityData d) /\
  exists fd, fd ∈ fieldData (response_securityData d) /\
             (fname, value) ∈ fd /\ fname <> "date" /\
             dict_get fd "date" = Py.Ok date.

End HistSpec.

(** ** The words of the batching description *)

Module BdpSpec.
Import Bdp.

(** The overrides of a group: the value of its combination for every
    override name, the dummy apart. *)
Definition group_overrides (ovrd_names : list string) (key : list string)
  : list (string * string) :=
  filter (fun kv => kv.1 <> "dummy") (zip ovrd_names key).

(** The request that the loop sends for a group: the unique tickers
    of the group, the field, and the overrides of the group. *)
Definition request_of (field : str_or_list) (ovrd_names : list string)
    (row : group_row) : request :=
  mk_request row.2 (as_list field) (group_overrides ovrd_names row.1).

(** What the [k]-th [con.ref] call of the loop returns or raises: the
    call for the group [row], made on the connection that has sent the
    requests of the [k] groups before it. *)
Definition kth_call {P} (vendor : nat -> request -> list Ref.message)
    (field : str_or_list) (ovrd_names : list string) (groups : list group_row)
    (k : nat) (row : group_row) : Py.result P (list Ref.ref_datum) :=
  (ref vendor (mk_con (map (request_of field ovrd_names) (take k groups)))
     row.2 field (kwargs_of ovrd_names row)).1.

(** Every [con.ref] call of the loop returns. *)
Definition all_calls_return {P} (vendor : nat -> request -> list Ref.message)
    (field : str_or_list) (ovrd_names : list string) (groups : list group_row) : Prop :=
  forall k row, groups !! k = Some row ->
    Py.is_ok (kth_call (P:=P) vendor field ovrd_names groups k row) = true.

(** The column of an override: the value of every ticker. *)
Definition ovrd_column (numb_tickers : nat) (item : string * ovrd_arg)
  : string * list string :=
  (item.1, match item.2 with
           | One v => replicate numb_tickers v
           | Many vs => vs
           end).

(** A sequence override has one value per ticker. *)
Definition fits (numb_tickers : nat) (item : string * ovrd_arg) : Prop :=
  match item.2 with
  | One _ => True
  | Many vs => length vs = numb_tickers
  end.

Definition data_key_of (l : inp_row) : string * list string :=
  (trans_ticker l, i_ovrds l).

(** The value the merge gives a left row: that of the row of
    [all_data] with its ticker and overrides, [NaN] when there is none. *)
Definition Reconciled (all_data : list data_row) (l : inp_row) (v : Ref.scalar) : Prop :=
  (forall r, r ∈ all_data -> same_key l r -> v = Ref.r_value (d_datum r)) /\
  ((forall r, r ∈ all_data -> ~ same_key l r) -> v = Ref.SNaN).

(** A vendor that answers every security of a request with the number
    of the request as its price. *)
Definition echo_vendor (k : nat) (req : request) : list Ref.message :=
  [Ref.mk_message []
     (map (fun sec => Ref.mk_securityData sec None []
                        {[ "PX_LAST" := Ref.Single (Ref.SInt (Z.of_nat k)) ]})
          (securities req))].

Definition three_tickers : str_or_list :=
  Lst ["ibm us equity"; "AAPL US Equity"; "IBM US Equity"].

Definition per_ticker_currency : list (string * ovrd_arg) :=
  [("EQY_FUND_CRNCY", Many ["USD"; "EUR"; "USD"])].

Definition two_requests : con :=
  mk_con [mk_request ["AAPL US EQUITY"] ["PX_LAST"] [("EQY_FUND_CRNCY", "EUR")];
          mk_request ["IBM US EQUITY"] ["PX_LAST"] [("EQY_FUND_CRNCY", "USD")]].

(** A vendor like [echo_vendor] whose second answer reports that the
    field is not valid, and three tickers with a currency each. *)
Definition second_call_fails (k : nat) (req : request) : list Ref.message :=
  if k =? 1
  then [Ref.mk_message []
          (map (fun sec => Ref.mk_securityData sec None
                             [Ref.mk_field_exception "PX_LAST" "INVALID_FIELD"] ∅)
               (securities req))]
  else echo_vendor k req.

Definition three_currencies : list (string * ovrd_arg) :=
  [("EQY_FUND_CRNCY", Many ["USD"; "EUR"; "GBP"])].

End BdpSpec.

(** ** The words of the statistics description *)

Module BbatSpec.
Import Bbat.

(** A zone: its offset from UTC at every instant, in nanoseconds. *)
Definition zone : Type := Z -> Z.

(** The calendar date of a row: the day, counted from the epoch, that
    the wall clock of the zone shows at the instant of the row. *)
Definition calendar_date (tz : zone) (r : row) : Z :=
  ((time r + tz (time r)) / 86400000000000)%Z.

Definition same_ticker_and_date (tz : zone) (r r' : row) : Prop :=
  ticker r = ticker r' /\ calendar_date tz r = calendar_date tz r'.

#[global] Instance same_ticker_and_date_dec tz r r' :
  Decision (same_ticker_and_date tz r r').
Proof. unfold same_ticker_and_date. apply _. Defined.

(** The time that passes from the instant of [r] to that of [r'], in
    seconds. *)
Definition seconds_between (r r' : row) : Qc :=
  Q2Qc (Qmake (time r' - time r) 1000000000).

(** The calendar date does not go back as time goes on: of two rows
    of one ticker the later one is not of an earlier date. *)
Definition dates_in_order (tz : zone) (rows : list row) : Prop :=
  forall r r', r ∈ rows -> r' ∈ rows -> ticker r = ticker r' ->
    (time r <= time r')%Z -> (calendar_date tz r <= calendar_date tz r')%Z.

(** A zone whose calendar date never goes back as time goes on. *)
Definition date_never_goes_back (tz : zone) : Prop :=
  forall t t', (t <= t')%Z ->
    ((t + tz t) / 86400000000000 <= (t' + tz t') / 86400000000000)%Z.

(** The difference to the most recent earlier row of the same group. *)
Definition prev_diff (tz : zone) (earlier : list row) (r : row) : option Z :=
  match list_find (fun p => group_key tz p = group_key tz r) earlier with
  | Some (_, p) => Some (time r - time p)%Z
  | None => None
  end.

(** The lifetime of the quote of row [i]: the time, in seconds, to the
    next row when that row has the same ticker and calendar date. *)
Definition next_row_life (tz : zone) (df : list row) (i : nat) : option Qc :=
  match df !! i, df !! S i with
  | Some r, Some r' =>
      if decide (same_ticker_and_date tz r r')
      then Some (seconds_between r r')
      else None
  | _, _ => None
  end.

(** The seconds row [i] counts for: none without a valid spread. *)
Definition live_seconds (tz : zone) (df : list row) (i : nat) : Qc :=
  match df !! i with
  | Some r =>
      match bid_ask_spread_bps r with
      | Some _ => default 0%Qc (next_row_life tz df i)
      | None => 0%Qc
      end
  | None => 0%Qc
  end.

(** The spread of row [i] in basis points, zero when it is not valid. *)
Definition spread_at (df : list row) (i : nat) : Qc :=
  default 0%Qc (df !! i ≫= bid_ask_spread_bps).

(** The sum of [f i] over the rows [0 .. n-1]. *)
Definition sum_rows (n : nat) (f : nat -> Qc) : Qc :=
  foldr (fun i acc => (f i + acc)%Qc) 0%Qc (seq 0 n).

(** The cells of a column as fractions in lowest terms. *)
Definition cells (col : column) : list (option Q) := map (fmap this) col.

(** The volume-weighted average price of the trades seen so far: the
    running sum of size times value over the running sum of size. *)
Definition volume_weighted_column (df : list row) : column :=
  let size := map TRADE_SIZE df in
  let value := map TRADE_VALUE df in
  fillna0 (ffill (zip_with fdiv (expanding_sum (zip_with fmul size value))
                                (expanding_sum size))).

(** A row of a quote event at time [t], with the spread as it stands. *)
Definition quote (t : Z) (bps : option Z) : row :=
  mk_row "IBM US Equity" t (fmap (fun b => Q2Qc (inject_Z b)) bps) None None.

(** A row of a trade event at time [t]. *)
Definition trade (t : Z) (bps : option Z) (size value : Z) : row :=
  mk_row "IBM US Equity" t (fmap (fun b => Q2Qc (inject_Z b)) bps)
    (Some (Q2Qc (inject_Z size))) (Some (Q2Qc (inject_Z value))).

(** A bid, an ask, then two trades: one share at 10, three shares at 20. *)
Definition two_trades : list row :=
  [quote 0 None; quote 1 (Some 5%Z); trade 2 (Some 5%Z) 1 10; trade 3 (Some 5%Z) 3 20].

(** The zone of UTC. *)
Definition utc : zone := fun _ => 0%Z.

Definition hour : Z := 3600000000000.

(** A zone two hours ahead of UTC that puts its clocks back by one
    hour three hours after the epoch. *)
Definition clocks_go_back : zone :=
  fun t => if (t <? 3 * hour)%Z then (2 * hour)%Z else hour.

(** Quotes around the hour in which the clocks go back, and one on the
    next day: the second quote of the day stands from half past two to
    half past three, one hour, while the clock shows half past four and
    then half past four again. *)
Definition quotes_over_clock_change : list row :=
  [quote (3 * hour + hour / 2) (Some 8%Z); quote hour (Some 2%Z);
   quote (2 * hour + hour / 2) (Some 6%Z); quote (30 * hour) (Some 100%Z)].

End BbatSpec.

(** ** The words on chunks, retries and frames *)

Module UploadWords.
Import Upload.

(** The requests [_run_field_upload] builds for a frame. *)
Definition field_requests (session_id field : string) (df : list upload_row)
  : list UploadRequest :=
  match Chunks._cut_into_chunks_gen (P:=Empty_set) df 1000 with
  | Py.Ok chunks => _make_upload_requests chunks session_id field
  | Py.Raise _ => []
  end.

(** Every request is answered, never with success, and the first
    notification of the answer reports a partial write failure. *)
Definition always_partial (vendor : nat -> UploadRequest -> outcome) : Prop :=
  forall k upload_request, exists msgs msg,
    vendor k upload_request = Events msgs /\ last msgs = Some msg /\
    status msg <> "S_SUCCESS" /\ partial_of msg = true.

(** The result of an upload as [_run_df_upload] passes it on. *)
Definition passed_on (r : Py.result (upload_response * string) unit * con)
  : option DfUpload.error * con :=
  match r with
  | (Py.Ok _, c) => (None, c)
  | (Py.Raise e, c) => (Some (DfUpload.UploadError e), c)
  end.

(** A session whose third request cannot be sent. *)
Definition breaks_at_third (k : nat) (upload_request : UploadRequest) : outcome :=
  if k <? 2 then Events [mk_upload_response "S_FAILURE" []]
  else SendRaises "connection lost".

(** A session that rejects every write in part. *)
Definition partly (k : nat) (upload_request : UploadRequest) : outcome :=
  Events [mk_upload_response "S_FAILURE" ["WRITE_PARTIALLY_FAILED"]].

(** A frame with a price column holding a [NaN] and an empty column. *)
Definition small_frame : DfUpload.frame :=
  DfUpload.mk_frame ["ticker"; "date"; "PX"; "VOL"]
    ["IBM US Equity"; "AAPL US Equity"] ["2020-01-02"; "2020-01-02"]
    (fun f => if decide (f = "PX") then [Some "134"; None] else [None; None]).

End UploadWords.

(** ** The words on the event loop *)

Module EventsWords.
Import Events.

(** An event that carries an answer, whole or in part. *)
Definition answering {M} (ev : event M) : Prop :=
  eventType ev = RESPONSE \/ eventType ev = PARTIAL_RESPONSE.

(** The number of [RESPONSE] events among [evs]. *)
Definition responses {M} (evs : list (event M)) : nat :=
  length (filter (fun ev => eventType ev = RESPONSE) evs).

(** The messages of [evs], in order. *)
Definition messages_of {M} (evs : list (event M)) : list M := flat_map messages evs.

(** The counter does not reach zero on [evs]: it starts at zero or
    below, or above the number of [RESPONSE] events. *)
Definition outstanding {M} (evs : list (event M)) (sent_events : Z) : Prop :=
  (sent_events <= 0 \/ Z.of_nat (responses evs) < sent_events)%Z.

(** What an event that carries no answer makes the loop raise. *)
Definition failure_of {M} (ev : event M) : error :=
  match _EVENT_DICT (eventType ev) with
  | None => KeyError (eventType ev)
  | Some ev_name =>
      if decide (eventType ev = TIMEOUT)
      then RuntimeError "Timeout, increase BCon.timeout attribute"
      else RuntimeError ("Unexpected Event Type: '" +:+ ev_name +:+ "'")
  end.

(** Two requests answered in three events, then a status event. *)
Definition two_answers : list (event string) :=
  [mk_event PARTIAL_RESPONSE ["a1"]; mk_event RESPONSE ["a2"; "a3"];
   mk_event RESPONSE ["b1"]; mk_event SESSION_STATUS ["down"]].

End EventsWords.

(** ** The words on parsed streams *)

Module ParseWords.
Import Ref Hist.

(** The securities of a stream of messages, in order. *)
Definition securities_of (events : list message) : list Ref.securityData :=
  flat_map ReferenceDataResponse events.

(** Every security of the stream is one the parser has no reason to
    raise on. *)
Definition all_clean (clean : Ref.securityData -> Prop) (events : list message) : Prop :=
  Forall (fun msg => Forall clean (ReferenceDataResponse msg)) events.

(** The error is a [ValueError] raised with a message. *)
Definition is_value_error {P} (e : Py.exn P) : Prop :=
  exists msg, e = Py.ValueErrorMsg msg.

(** The messages the generator yields on a session when it is run to
    its end, and how it ends. *)
Definition yielded {M} (session : list (Events.event M)) (sent_events : Z) : list M :=
  (Events._receive_events session sent_events).1.1.

Definition ending_of {M} (session : list (Events.event M)) (sent_events : Z)
  : Events.ending :=
  (Events._receive_events session sent_events).1.2.

(** A session that answers one request in two events, the second
    security of the answer with a field that is not valid. *)
Definition answer_with_invalid_field : list (Events.event message) :=
  [Events.mk_event Events.PARTIAL_RESPONSE
     [mk_message [] [Ref.mk_securityData "IBM US Equity" None []
                       {[ "PX_LAST" := Ref.Single (Ref.SInt 134) ]}]];
   Events.mk_event Events.RESPONSE
     [mk_message [] [Ref.mk_securityData "AAPL US Equity" None
                       [mk_field_exception "PX_LST" "INVALID_FIELD"] ∅]]].

(** A session that answers in part and then times out. *)
Definition answer_then_timeout : list (Events.event message) :=
  [Events.mk_event Events.PARTIAL_RESPONSE
     [mk_message [] [Ref.mk_securityData "IBM US Equity" None []
                       {[ "PX_LAST" := Ref.Single (Ref.SInt 134) ]}]];
   Events.mk_event Events.TIMEOUT []].

(** The rows [_bdh_list] builds from one dictionary of field data: one
    per item other than the date, each with the date of the dictionary. *)
Definition rows_of_fd (ticker : string) (fd : list (string * Ref.scalar)) : list hist_row :=
  match dict_get fd "date" with
  | Py.Ok date =>
      map (fun item => (date, ticker, item.1, item.2))
          (filter (fun item => item.1 <> "date") fd)
  | Py.Raise _ => []
  end.

Definition rows_of (d : HistoricalDataResponse) : list hist_row :=
  flat_map (rows_of_fd (Hist.security (response_securityData d)))
           (Hist.fieldData (response_securityData d)).

(** Two days of prices of one security. *)
Definition two_days : HistoricalDataResponse :=
  mk_response (Hist.mk_securityData "IBM US Equity" None []
    [[("date", SStr "2020-01-02"); ("PX_LAST", SInt 134); ("PX_BID", SInt 133)];
     [("date", SStr "2020-01-03"); ("PX_LAST", SInt 135)]]).

End ParseWords.

(** ** The words on single requests and fields *)

Module BdpWords.
Import Bdp.

(** Overrides given as one value each. *)
Definition scalar_ovrds (scalars : list (string * string)) : list (string * ovrd_arg) :=
  map (fun kv => (kv.1, One kv.2)) scalars.

(** A frame of parsed rows that is empty or starts with two rows of
    the same security. *)
Definition twin (data : list Ref.ref_datum) : Prop :=
  match data with
  | [] => True
  | [_] => False
  | r1 :: r2 :: _ => Ref.r_ticker r1 = Ref.r_ticker r2
  end.

(** A vendor that answers every security with a price and a currency. *)
Definition two_field_vendor (k : nat) (req : request) : list Ref.message :=
  [Ref.mk_message []
     (map (fun sec => Ref.mk_securityData sec None []
                        {[ "PX_LAST" := Ref.Single (Ref.SInt 134);
                           "CRNCY" := Ref.Single (Ref.SStr "USD") ]})
          (securities req))].

(** A vendor that knows one security only: it reports a price for it
    and a security error for any other. *)
Definition one_known_vendor (k : nat) (req : request) : list Ref.message :=
  [Ref.mk_message []
     (map (fun sec =>
             if decide (sec = "IBM US EQUITY")
             then Ref.mk_securityData sec None []
                    {[ "PX_LAST" := Ref.Single (Ref.SInt 134) ]}
             else Ref.mk_securityData sec (Some "BAD_SEC") [] ∅)
          (securities req))].

End BdpWords.

(** ** The words on normalizing twice *)

Module TickersWords.
Import Tickers.

(** [s.upper()] on a string. *)
Definition upper_text (s : string) : string := str (py_upper (chars s)).

(** Text that does not start, respectively end, with whitespace. *)
Definition starts_clean (l : list ascii) : Prop :=
  match l with
  | c :: _ => is_space c = false
  | [] => True
  end.

Definition ends_clean (l : list ascii) : Prop := starts_clean (rev l).

End TickersWords.

(** ** The words on request elements *)

Module BdhWords.
Import Bdh.

(** The names of the elements in the order set, [currency] only when
    [fx] is given and not empty. *)
Definition element_names (a : args) : list string :=
  ["nonTradingDayFillMethod"; "adjustmentFollowDPDF"]
  ++ (if truthy (as_list <$> fx a) then ["currency"] else [])
  ++ ["start_date"; "end_date"; "periodicitySelection"].

(** The fill method a letter stands for. *)
Definition fill_method (f : string) : option string :=
  if decide (upper f = "B") then Some "NIL_VALUE"
  else if decide (upper f = "P") then Some "PREVIOUS_VALUE"
  else None.

(** A daily request for two tickers with a calendar. *)
Definition daily_with_calendar : args :=
  mk_args (Py.Str "20200101") (Py.Str "20200131") (Some (Py.Str "US")) None
          (Py.Lst ["b"; "P"]) (OneBool true) (Py.Str "d").

End BdhWords.

(** ** The words on exchange data *)

Module EprxWords.
Import Tickers Eprx.

(** The exchange code of a ticker: the ticker itself when it has two
    characters, otherwise the code that the ticker normalizer reads
    from the ticker in upper case, the leftmost two-character code
    between two spaces; [None] when there is no such code. *)
Definition code_of (tickers : string) : option string :=
  if decide (length (chars tickers) = 2)
  then Some (str (py_strip (py_upper (chars tickers))))
  else match exch_suffix (py_upper (chars tickers)) with
       | _ :: code => Some (str code)
       | [] => None
       end.

(** The sheet is a table: the names of its columns are distinct and
    every row has a cell for every column. *)
Definition table (df : frame) : Prop :=
  NoDup (columns df) /\
  Forall (fun row => length row = length (columns df)) (rows df).

(** The row holds [code] in the column [bbg_exch_code]. *)
Definition has_code (df : frame) (code : string) (row : list Ref.scalar) : Prop :=
  exists i, columns df !! i = Some "bbg_exch_code" /\ row !! i = Some (Ref.SStr code).

(** [row] is the first row of the sheet that holds [code]. *)
Definition first_with_code (df : frame) (code : string) (row : list Ref.scalar) : Prop :=
  exists k, rows df !! k = Some row /\ has_code df code row /\
            forall j row', j < k -> rows df !! j = Some row' -> ~ has_code df code row'.

(** What a call that looks [code] up in the sheet comes to: a
    [ValueError] when no row holds the code; otherwise, from the first
    row that holds it, the cell under the column [subset] names, a
    [KeyError] when there is no such column, and the whole row as a
    dictionary when no column is named. *)
Definition looked_up {P} (df : frame) (tickers : string) (subset : option string)
    (code : string) (run : Py.result P output) : Prop :=
  ((forall row, row ∈ rows df -> ~ has_code df code row) ->
   run = Py.Raise (Py.ValueErrorMsg ("No exchange data found for " +:+ tickers))) /\
  (forall row, first_with_code df code row ->
     (forall s i, subset = Some s -> s <> "" -> columns df !! i = Some s ->
        exists v, row !! i = Some v /\ run = Py.Ok (Cell v)) /\
     (forall s, subset = Some s -> s <> "" -> s ∉ columns df ->
        run = Py.Raise (Py.KeyError s)) /\
     (subset = None \/ subset = Some "" -> length (columns df) <> 1 ->
        run = Py.Ok (Dict (zip (columns df) row)))).

(** Three exchanges with their time zone and opening time. *)
Definition small_sheet : frame :=
  mk_frame ["bbg_exch_code"; "pytz_timezone"; "equity_market_open"]
    [[Ref.SStr "LN"; Ref.SStr "Europe/London"; Ref.SStr "08:00"];
     [Ref.SStr "UN"; Ref.SStr "America/New_York"; Ref.SStr "09:30"];
     [Ref.SStr "GY"; Ref.SStr "Europe/Berlin"; Ref.SStr "09:00"]].

(** A vendor that reports [UN] as the primary exchange of every
    security. *)
Definition primary_un (k : nat) (req : Bdp.request) : list Ref.message :=
  [Ref.mk_message []
     (map (fun sec => Ref.mk_securityData sec None []
                        {[ "EQY_PRIM_EXCH_SHRT" := Ref.Single (Ref.SStr "UN") ]})
          (Bdp.securities req))].

End EprxWords.

(** * Properties *)

(** ** Loops with exceptions *)

Module PyFacts.
Import Py.

Lemma for_each_app {P A S} (body : S -> A -> result P S) (xs ys : list A) (acc : S) :
  for_each body (xs ++ ys) acc = bind (for_each body xs acc) (for_each body ys).
Proof.
  revert acc. induction xs as [|x xs IH]; intros acc; simpl; [done|].
  destruct (body acc x); simpl; [apply IH|done].
Qed.

(** A property of the accumulator kept by every turn holds at the end. *)
Lemma for_each_invariant {P A S} (body : S -> A -> result P S) (I : S -> Prop)
    (xs : list A) :
  (forall acc x acc', x ∈ xs -> I acc -> body acc x = Ok acc' -> I acc') ->
  forall acc r, I acc -> for_each body xs acc = Ok r -> I r.
Proof.
  induction xs as [|x xs IH]; intros Hstep acc r Hacc Hrun; simpl in Hrun.
  - by injection Hrun as <-.
  - destruct (body acc x) as [acc'|e] eqn:Hb; simpl in Hrun; [|done].
    apply (IH (fun a y a' Hy => Hstep a y a' (list_elem_of_further _ _ _ Hy)) acc').
    + eapply Hstep; [apply list_elem_of_here|done..].
    + done.
Qed.

(** A turn that raises whatever the accumulator makes the loop raise. *)
Lemma for_each_raises {P A S} (body : S -> A -> result P S) (xs : list A) (x : A) :
  x ∈ xs -> (forall acc, exists e, body acc x = Raise e) ->
  forall acc, exists e, for_each body xs acc = Raise e.
Proof.
  intros Hin Hx. induction xs as [|y xs IH]; intros acc; [by apply not_elem_of_nil in Hin|].
  simpl. apply elem_of_cons in Hin as [<-|Hin].
  - destruct (Hx acc) as [e ->]. eauto.
  - destruct (body acc y) as [acc'|e]; simpl; [by apply IH|eauto].
Qed.

(** Turns that each append rows append, in all, the rows of every turn. *)
Lemma for_each_appends {P A B} (body : list B -> A -> result P (list B))
    (f : A -> list B) (xs : list A) :
  (forall x, x ∈ xs -> forall acc, body acc x = Ok (acc ++ f x)) ->
  forall acc, for_each body xs acc = Ok (acc ++ flat_map f xs).
Proof.
  induction xs as [|x xs IH]; intros Hbody acc; simpl.
  - by rewrite app_nil_r.
  - rewrite (Hbody x (list_elem_of_here _ _)). simpl.
    rewrite IH; [by rewrite <- app_assoc|].
    intros y Hy. apply Hbody. by apply list_elem_of_further.
Qed.

End PyFacts.

(** ** The upload chunker *)

Module ChunksFacts.
Import Chunks.

Lemma iloc_window {Row} (df : list Row) (i c : nat) :
  iloc df i (i + c) = take c (drop i df).
Proof. unfold iloc. f_equal. lia. Qed.

Lemma range_from_lookup (fuel start stop step k i : nat) :
  range_from fuel start stop step !! k = Some i ->
  i = start + k * step /\ i < stop.
Proof.
  revert start k. induction fuel as [|fuel IH]; intros start k; simpl; [done|].
  destruct (Nat.ltb_spec start stop) as [Hlt|Hge]; [|done].
  destruct k as [|k]; simpl.
  - intros [= <-]. lia.
  - intros H. apply IH in H. lia.
Qed.

(** With enough fuel the slices taken at the starts of the range
    rebuild the rest of the frame. *)
Lemma range_from_concat {Row} (df : list Row) (c fuel start : nat) :
  0 < c -> length df - start <= fuel ->
  concat (map (fun i => take c (drop i df)) (range_from fuel start (length df) c))
  = drop start df.
Proof.
  intros Hc. revert start. induction fuel as [|fuel IH]; intros start Hfuel; simpl.
  - rewrite drop_ge; [done|lia].
  - destruct (Nat.ltb_spec start (length df)) as [Hlt|Hge]; simpl.
    + rewrite IH by lia.
      rewrite <- (take_drop c (drop start df)) at 2.
      f_equal. rewrite drop_drop. f_equal.
    + rewrite drop_ge; [done|lia].
Qed.

Lemma range_from_length_bound (fuel start stop step k : nat) :
  0 < step -> stop - start <= fuel ->
  S k < length (range_from fuel start stop step) ->
  start + S k * step < stop.
Proof.
  intros Hs. revert start k. induction fuel as [|fuel IH]; intros start k Hf; simpl; [lia|].
  destruct (Nat.ltb_spec start stop) as [Hlt|Hge]; simpl; [|lia].
  intros Hlen. destruct k as [|k].
  - destruct fuel as [|fuel]; simpl in Hlen; [lia|].
    destruct (Nat.ltb_spec (start + step) stop); simpl in Hlen; lia.
  - specialize (IH (start + step) k). simpl in IH. 
    assert (start + step + (step + k * step) < stop); [apply IH; lia|lia].
Qed.

(** C10: for a positive chunk size the chunker returns consecutive
    slices in input order, every slice non-empty and of exactly the chunk
    size except possibly a shorter last one, and the concatenation of
    the chunks in order is the input frame. *)
Theorem cut_into_chunks_roundtrip {P Row} (df : list Row) (chunk_size : nat) :
  0 < chunk_size ->
  exists chunks,
    _cut_into_chunks_gen (P:=P) df chunk_size = Py.Ok chunks /\
    concat chunks = df /\
    (forall k chunk, chunks !! k = Some chunk ->
       chunk = take chunk_size (drop (k * chunk_size) df) /\
       0 < length chunk <= chunk_size /\
       (S k < length chunks -> length chunk = chunk_size)).
Proof.
  intros Hc. unfold _cut_into_chunks_gen, py_range.
  destruct (Nat.eqb_spec chunk_size 0) as [?|_]; [lia|]. simpl.
  eexists. split; [reflexivity|]. split.
  - erewrite map_ext by (intros; apply iloc_window).
    rewrite range_from_concat by lia. apply drop_0.
  - intros k chunk Hk.
    rewrite list_lookup_fmap in Hk.
    destruct (range_from _ _ _ _ !! k) as [i|] eqn:Hi; [|done].
    simpl in Hk. injection Hk as <-.
    pose proof (range_from_lookup _ _ _ _ _ _ Hi) as [-> Hlt]. simpl in Hlt.
    rewrite iloc_window. simpl. split; [done|].
    rewrite length_take, length_drop. split; [lia|].
    rewrite length_map. intros Hlen.
    pose proof (range_from_length_bound (length df) 0 (length df) chunk_size k Hc) as Hb.
    simpl in Hb. specialize (Hb ltac:(lia) Hlen). lia.
Qed.

Lemma cut_into_chunks_roundtrip_witness :
  0 < 2 /\
  exists chunks,
    _cut_into_chunks_gen (P:=Empty_set) [10; 20; 30; 40; 50] 2 = Py.Ok chunks /\
    concat chunks = [10; 20; 30; 40; 50] /\
    (forall k chunk, chunks !! k = Some chunk ->
       chunk = take 2 (drop (k * 2) [10; 20; 30; 40; 50]) /\
       0 < length chunk <= 2 /\
       (S k < length chunks -> length chunk = 2)).
Proof.
  split; [lia|]. apply (cut_into_chunks_roundtrip [10; 20; 30; 40; 50] 2). lia.
Defined.

End ChunksFacts.

(** ** The upload retry loop *)

Module UploadFacts.
Import Upload UploadSpec.

Section Session.

Variable vendor : nat -> UploadRequest -> outcome.
Variable upload_request : UploadRequest.

Lemma attempt_loop_done (n : nat) (resp : option upload_response) (c : con) :
  attempt_loop vendor upload_request n (Some "S_SUCCESS") resp c
  = (Py.Ok (resp, Some "S_SUCCESS"), c).
Proof. destruct n; simpl; reflexivity. Qed.

Lemma attempt_loop_spec (n : nat) :
  forall code0 resp0 c res c',
    attempt_loop vendor upload_request n code0 resp0 c = (res, c') ->
    code0 <> Some "S_SUCCESS" ->
    sent c <= sent c' <= sent c + n /\
    (forall k, sent c <= k -> S k < sent c' -> answered_without_success vendor upload_request k) /\
    (forall resp code, res = Py.Ok (resp, code) ->
       (resp = resp0 /\ code = code0 /\ n = 0) \/
       (exists msg, resp = Some msg /\ code = Some (status msg) /\
                    last_answer vendor upload_request c' msg /\ sent c < sent c' /\
                    (status msg = "S_SUCCESS" \/ sent c' = sent c + n))).
Proof.
  induction n as [|n IH]; intros code0 resp0 c res c' Hrun Hcode; simpl in Hrun.
  - destruct (decide (code0 = Some "S_SUCCESS")); [done|].
    injection Hrun as <- <-. split; [lia|]. split; [intros; lia|].
    intros resp code [= <- <-]. by left.
  - destruct (decide (code0 = Some "S_SUCCESS")); [done|].
    destruct (vendor (sent c) upload_request) as [what|what|msgs] eqn:Hv.
    1,2: injection Hrun as <- <-; simpl; (split; [lia|]); (split; [intros; lia|]); done.
    destruct (last msgs) as [msg|] eqn:Hlast.
    2:{ injection Hrun as <- <-. simpl. split; [lia|]. split; [intros; lia|]. done. }
    destruct (decide (status msg = "S_SUCCESS")) as [Hs|Hs].
    + rewrite Hs, attempt_loop_done in Hrun. injection Hrun as <- <-. simpl.
      split; [lia|]. split; [intros; lia|].
      intros resp code [= <- <-]. right. exists msg. rewrite Hs.
      split; [done|]. split; [done|]. split; [|split; [lia|by left]].
      exists msgs. simpl. by rewrite Nat.sub_0_r.
    + apply IH in Hrun as (Hb & Hbefore & Hres); [|congruence]. simpl in *.
      split; [lia|]. split.
      * intros k Hk1 Hk2. destruct (decide (k = sent c)) as [->|Hne].
        -- by exists msgs, msg.
        -- apply Hbefore; lia.
      * intros resp code Hok. right.
        destruct (Hres resp code Hok) as [(-> & -> & ->)|(msg' & -> & -> & Hla & Hlt & Hfin)].
        -- exists msg. split; [done|]. split; [done|].
           assert (sent c' = S (sent c)) as Hc' by lia.
           split; [|split; [lia|right; lia]].
           exists msgs. rewrite Hc'. simpl. by rewrite Nat.sub_0_r.
        -- exists msg'. split; [done|]. split; [done|]. split; [done|].
           split; [lia|]. destruct Hfin as [?|?]; [by left|right; lia].
Qed.

(** C9: one call of [_attempt_upload_request] with the default retry
    count sends at most four requests; every request before the last one
    was answered with a status other than [S_SUCCESS], so the loop stops
    at the first success; a returned status other than [S_SUCCESS] means
    all four attempts were used; and [_send_upload_requests] raises
    [ValueError] exactly when the returned status is not [S_SUCCESS] and
    the response reports no partial write failure. *)
Theorem upload_attempts_bounded (c c' : con) (rest : list UploadRequest)
    (res : Py.result (upload_response * string) (upload_response * string)) :
  _attempt_upload_request vendor c upload_request default_num_retries = (res, c') ->
  sent c <= sent c' <= sent c + 4 /\
  (forall k, sent c <= k -> S k < sent c' -> answered_without_success vendor upload_request k) /\
  (forall result code, res = Py.Ok (result, code) ->
     last_answer vendor upload_request c' result /\ code = status result /\
     (code = "S_SUCCESS" \/ sent c' = sent c + 4)) /\
  (forall result code, res = Py.Ok (result, code) ->
     code <> "S_SUCCESS" -> partial_of result = false ->
     _send_upload_requests vendor c (upload_request :: rest)
     = (Py.Raise (Py.ValueError (result, code)), c')) /\
  (forall result code, res = Py.Ok (result, code) ->
     code = "S_SUCCESS" \/ partial_of result = true ->
     _send_upload_requests vendor c (upload_request :: rest)
     = _send_upload_requests vendor c' rest).
Proof.
  intros Hrun. pose proof Hrun as Hrun0.
  unfold _attempt_upload_request, default_num_retries in Hrun.
  destruct (attempt_loop vendor upload_request 4 None None c) as [lres lc] eqn:Hloop.
  apply attempt_loop_spec in Hloop as (Hb & Hbefore & Hres); [|done].
  assert (lc = c') as ->.
  { destruct lres as [[[r|] [cd|]]|e]; by injection Hrun as _ <-. }
  split; [done|]. split; [done|].
  assert (forall result code, res = Py.Ok (result, code) ->
            lres = Py.Ok (Some result, Some code)) as Hlres.
  { intros result code ->.
    destruct lres as [[[r|] [cd|]]|e]; by simplify_eq. }
  split; [|split].
  - intros result code Hok. apply Hlres in Hok.
    destruct (Hres _ _ Hok) as [(? & ? & ?)|(msg & [= ->] & [= ->] & Hla & Hlt & Hfin)];
      [done|].
    split; [done|]. split; [done|]. destruct Hfin; [by left|by right].
  - intros result code -> Hcode Hpartial. simpl. rewrite Hrun0.
    destruct (decide (code = "S_SUCCESS")); [done|]. simpl. by rewrite Hpartial.
  - intros result code -> Hor. simpl. rewrite Hrun0.
    destruct Hor as [->|Hp]; [done|].
    rewrite Hp. simpl. by rewrite andb_false_r.
Qed.

End Session.

Lemma upload_attempts_bounded_witness :
  sent (mk_con 3) = 3 /\
  (forall result code,
     Py.Ok (P:=upload_response * string)
       (mk_upload_response "S_SUCCESS" [], "S_SUCCESS") = Py.Ok (result, code) ->
     last_answer flaky one_request (mk_con 3) result /\ code = status result /\
     (code = "S_SUCCESS" \/ sent (mk_con 3) = sent (mk_con 0) + 4)).
Proof.
  split; [reflexivity|].
  apply (upload_attempts_bounded flaky one_request (mk_con 0) (mk_con 3) []
           (Py.Ok (mk_upload_response "S_SUCCESS" [], "S_SUCCESS"))).
  reflexivity.
Defined.

(** A session that never answers with success uses all four attempts
    and the caller raises. *)
Example upload_exhausted :
  _send_upload_requests
    (fun _ _ => Events [mk_upload_response "S_FAILURE" []]) (mk_con 0) [one_request]
  = (Py.Raise (Py.ValueError (mk_upload_response "S_FAILURE" [], "S_FAILURE")), mk_con 4).
Proof. reflexivity. Qed.

End UploadFacts.

(** ** Reference-data parsing *)

Module RefFacts.
Import Ref RefSpec.

Section Parse.

Context {P : Type}.

Lemma check_ok_iff (fes : list field_exception) :
  _check_fieldExceptions (P:=P) fes = Py.Ok tt <-> Forall (fun fe => ~ invalid_field fe) fes.
Proof.
  unfold invalid_field. induction fes as [|fe fes IH]; simpl.
  - split; [constructor|done].
  - destruct (decide (subcategory fe = "INVALID_FIELD")) as [Hi|Hn].
    + split; [done|]. intros H. by inversion H.
    + rewrite IH. split; [by constructor|]. intros H. by inversion H.
Qed.

Lemma check_raise_iff (fes : list field_exception) :
  (exists msg, _check_fieldExceptions (P:=P) fes = Py.Raise (Py.ValueErrorMsg msg))
  <-> Exists invalid_field fes.
Proof.
  unfold invalid_field. induction fes as [|fe fes IH]; simpl.
  - split; [by intros [? ?]|]. intros H. by inversion H.
  - destruct (decide (subcategory fe = "INVALID_FIELD")) as [Hi|Hn].
    + split; [by constructor|]. eauto.
    + rewrite IH. split; [by constructor 2|]. intros H. by inversion H.
Qed.

Lemma check_result (fes : list field_exception) :
  _check_fieldExceptions (P:=P) fes = Py.Ok tt \/
  exists msg, _check_fieldExceptions (P:=P) fes = Py.Raise (Py.ValueErrorMsg msg).
Proof.
  induction fes as [|fe fes IH]; simpl; [by left|].
  destruct (decide (subcategory fe = "INVALID_FIELD")); [right; eauto|done].
Qed.

(** C8: the checker raises [ValueError] if and only if some field
    exception has subcategory [INVALID_FIELD], returns normally if and
    only if none has, never fails otherwise, and when it returns the rows
    accumulated for the security are those of the field loop alone: the
    checker adds and removes nothing. *)
Theorem check_fieldExceptions_invalid_field (fes : list field_exception) :
  ((exists msg, _check_fieldExceptions (P:=P) fes = Py.Raise (Py.ValueErrorMsg msg))
   <-> exists fe, fe ∈ fes /\ subcategory fe = "INVALID_FIELD") /\
  (_check_fieldExceptions (P:=P) fes = Py.Ok tt
   <-> forall fe, fe ∈ fes -> subcategory fe <> "INVALID_FIELD") /\
  (forall e, _check_fieldExceptions (P:=P) fes = Py.Raise e ->
             exists msg, e = Py.ValueErrorMsg msg) /\
  (_check_fieldExceptions (P:=P) fes = Py.Ok tt ->
   forall ticker err fieldData flds corrId data bulk_data,
     let secData := mk_securityData ticker err fes fieldData in
     ref_security (P:=P) flds corrId data secData
     = Py.for_each (ref_field secData corrId) flds data /\
     bulkref_security (P:=P) flds corrId bulk_data secData
     = Py.for_each (bulkref_field secData corrId) flds bulk_data).
Proof.
  split; [|split; [|split]].
  - rewrite check_raise_iff, Exists_exists. reflexivity.
  - rewrite check_ok_iff, Forall_forall. reflexivity.
  - intros e He. destruct (check_result fes) as [Hok|[msg Hmsg]]; [congruence|].
    exists msg. congruence.
  - intros Hok ticker err fd flds corrId data bulk_data secData.
    unfold ref_security, bulkref_security. subst secData. simpl.
    rewrite Hok. done.
Qed.

Lemma ref_fields_ok (secData : securityData) (corrId : list Z) (flds : list string) :
  forall data,
    Forall (not_bulk secData) flds ->
    Py.for_each (P:=P) (ref_field secData corrId) flds data
    = Py.Ok (data ++ map (fun fld => mk_ref_datum (security secData) fld
                                       (ref_value secData fld) corrId) flds).
Proof.
  induction flds as [|fld flds IH]; intros data Hnb; simpl.
  - by rewrite app_nil_r.
  - inversion Hnb as [|? ? Hfld Hrest]; subst.
    unfold ref_field at 1, ref_value at 1.
    destruct (fieldData secData !! fld) as [[v|els]|] eqn:Hfd; simpl.
    + rewrite IH by done. by rewrite <- app_assoc.
    + by destruct (Hfld els).
    + rewrite IH by done. by rewrite <- app_assoc.
Qed.

Lemma bulkref_fields_ok (secData : securityData) (corrId : list Z) (flds : list string) :
  forall data,
    Forall (not_single secData) flds ->
    Py.for_each (P:=P) (bulkref_field secData corrId) flds data
    = Py.Ok (data ++ flat_map (bulk_rows secData corrId) flds).
Proof.
  induction flds as [|fld flds IH]; intros data Hns; simpl.
  - by rewrite app_nil_r.
  - inversion Hns as [|? ? Hfld Hrest]; subst.
    unfold bulkref_field at 1, bulk_rows at 1.
    destruct (fieldData secData !! fld) as [[v|els]|] eqn:Hfd; simpl.
    + by destruct (Hfld v).
    + rewrite IH by done. by rewrite <- app_assoc.
    + rewrite IH by done. by rewrite <- app_assoc.
Qed.

Lemma ref_security_ok (flds : list string) (corrId : list Z) (secData : securityData)
    (data : list ref_datum) :
  clean_ref flds secData ->
  ref_security (P:=P) flds corrId data secData
  = Py.Ok (data ++ ref_rows flds corrId secData).
Proof.
  intros [Hfe Hnb]. unfold ref_security.
  assert (_check_fieldExceptions (P:=P) (fieldExceptions secData) = Py.Ok tt) as ->.
  { apply check_ok_iff, Forall_forall. exact Hfe. }
  simpl. by apply ref_fields_ok.
Qed.

Lemma bulkref_security_ok (flds : list string) (corrId : list Z) (secData : securityData)
    (data : list bulk_datum) :
  clean_bulk flds secData ->
  bulkref_security (P:=P) flds corrId data secData
  = Py.Ok (data ++ flat_map (bulk_rows secData corrId) flds).
Proof.
  intros [Hfe Hns]. unfold bulkref_security.
  assert (_check_fieldExceptions (P:=P) (fieldExceptions secData) = Py.Ok tt) as ->.
  { apply check_ok_iff, Forall_forall. exact Hfe. }
  simpl. by apply bulkref_fields_ok.
Qed.

Lemma absent_ref_value (secData : securityData) (fld : string) :
  fieldData secData !! fld = None -> ref_value secData fld = sentinel_of secData.
Proof. unfold ref_value. by intros ->. Qed.

Lemma absent_bulk_rows (secData : securityData) (corrId : list Z) (fld : string) :
  fieldData secData !! fld = None ->
  bulk_rows secData corrId fld
  = [mk_bulk_datum (security secData) fld (sentinel_of secData) (sentinel_of secData)
       (sentinel_of secData) corrId].
Proof. unfold bulk_rows. by intros ->. Qed.

(** C3, as the code has it: a [securityError] is never a reason to
    raise. When no field exception of a security is an [INVALID_FIELD],
    [_parse_ref] turns the security into one row per requested field as
    long as no requested field holds bulk data, and [_parse_bulkref]
    turns it into rows as long as no requested field holds a singleton;
    a requested field absent from the field data gets the string
    [security not found] when the security carries a [securityError]
    and [NaN] when it does not; and a stream of such securities is
    parsed without raising into the rows of its securities, in order. *)
Theorem security_error_sentinel (flds : list string) :
  (forall secData corrId data,
     clean_ref flds secData ->
     exists rows,
       ref_security (P:=P) flds corrId data secData = Py.Ok (data ++ rows) /\
       map r_field rows = flds /\
       forall i fld, flds !! i = Some fld -> fieldData secData !! fld = None ->
         rows !! i
         = Some (mk_ref_datum (security secData) fld (sentinel_of secData) corrId)) /\
  (forall secData corrId bulk_data,
     clean_bulk flds secData ->
     exists rows,
       bulkref_security (P:=P) flds corrId bulk_data secData
       = Py.Ok (bulk_data ++ rows) /\
       forall fld, fld ∈ flds -> fieldData secData !! fld = None ->
         mk_bulk_datum (security secData) fld (sentinel_of secData)
           (sentinel_of secData) (sentinel_of secData) corrId ∈ rows) /\
  (forall events keep_corrId,
     Forall (fun msg => Forall (clean_ref flds) (ReferenceDataResponse msg)) events ->
     _parse_ref (P:=P) events flds keep_corrId
     = Py.Ok (flat_map (fun msg =>
                flat_map (ref_rows flds (corrId_of keep_corrId msg))
                         (ReferenceDataResponse msg))
              events)) /\
  (forall events keep_corrId,
     Forall (fun msg => Forall (clean_bulk flds) (ReferenceDataResponse msg)) events ->
     _parse_bulkref (P:=P) events flds keep_corrId
     = Py.Ok (flat_map (fun msg =>
                flat_map (fun secData =>
                            flat_map (bulk_rows secData (corrId_of keep_corrId msg)) flds)
                         (ReferenceDataResponse msg))
              events)).
Proof.
  split_and!.
  - intros secData corrId data Hclean. exists (ref_rows flds corrId secData).
    split; [by apply ref_security_ok|]. split.
    + unfold ref_rows. rewrite map_map. simpl. apply map_id.
    + intros i fld Hi Hnone. unfold ref_rows. rewrite list_lookup_fmap, Hi. simpl.
      by rewrite absent_ref_value.
  - intros secData corrId bulk_data Hclean. eexists.
    split; [by apply bulkref_security_ok|].
    intros fld Hin Hnone. apply list_elem_of_In, in_flat_map.
    exists fld. split; [by apply list_elem_of_In|].
    rewrite absent_bulk_rows by done. by left.
  - intros events keep_corrId Hall. unfold _parse_ref.
    rewrite (PyFacts.for_each_appends _
               (fun msg => flat_map (ref_rows flds (corrId_of keep_corrId msg))
                                    (ReferenceDataResponse msg))); [done|].
    intros msg Hmsg acc. unfold ref_message.
    apply PyFacts.for_each_appends. intros secData Hsec acc'.
    apply ref_security_ok.
    rewrite Forall_forall in Hall. specialize (Hall msg Hmsg).
    rewrite Forall_forall in Hall. by apply Hall.
  - intros events keep_corrId Hall. unfold _parse_bulkref.
    rewrite (PyFacts.for_each_appends _
               (fun msg => flat_map (fun secData =>
                                       flat_map (bulk_rows secData (corrId_of keep_corrId msg))
                                                flds)
                                    (ReferenceDataResponse msg))); [done|].
    intros msg Hmsg acc. unfold bulkref_message.
    apply PyFacts.for_each_appends. intros secData Hsec acc'.
    apply bulkref_security_ok.
    rewrite Forall_forall in Hall. specialize (Hall msg Hmsg).
    rewrite Forall_forall in Hall. by apply Hall.
Qed.

End Parse.

Lemma security_error_sentinel_witness :
  clean_ref ["PX_LAST"] unknown_security /\
  exists rows,
    ref_security (P:=Empty_set) ["PX_LAST"] [] [] unknown_security = Py.Ok ([] ++ rows) /\
    map r_field rows = ["PX_LAST"] /\
    forall i fld, ["PX_LAST"] !! i = Some fld ->
      fieldData unknown_security !! fld = None ->
      rows !! i
      = Some (mk_ref_datum "XXX US Equity" fld (SStr "security not found") []).
Proof.
  assert (clean_ref ["PX_LAST"] unknown_security) as Hclean.
  { split.
    - intros fe Hfe. simpl in Hfe. by apply not_elem_of_nil in Hfe.
    - constructor; [|constructor]. intros els. unfold unknown_security. simpl.
      by rewrite lookup_empty. }
  split; [exact Hclean|].
  pose proof (security_error_sentinel (P:=Empty_set) ["PX_LAST"]) as (Href & _).
  exact (Href unknown_security [] [] Hclean).
Defined.

(** An unknown security and a known one in one response. *)
Example parse_ref_unknown_and_known :
  _parse_ref (P:=Empty_set)
    [mk_message []
       [unknown_security;
        mk_securityData "IBM US Equity" None [] {[ "PX_LAST" := Single (SInt 134) ]}]]
    ["PX_LAST"; "CRNCY"] false
  = Py.Ok [mk_ref_datum "XXX US Equity" "PX_LAST" (SStr "security not found") [];
           mk_ref_datum "XXX US Equity" "CRNCY" (SStr "security not found") [];
           mk_ref_datum "IBM US Equity" "PX_LAST" (SInt 134) [];
           mk_ref_datum "IBM US Equity" "CRNCY" SNaN []].
Proof. vm_compute. reflexivity. Qed.

(** A security marked with a [securityError] for which the parsers
    raise all the same. *)
Lemma security_error_can_raise :
  securityError unknown_security_invalid_field = Some "BAD_SEC" /\
  _parse_ref (P:=Empty_set) [mk_message [] [unknown_security_invalid_field]]
    ["PX_LAST"] false
  = Py.Raise (Py.ValueErrorMsg "PX_LAST: INVALID_FIELD") /\
  _parse_bulkref (P:=Empty_set) [mk_message [] [unknown_security_invalid_field]]
    ["PX_LAST"] false
  = Py.Raise (Py.ValueErrorMsg "PX_LAST: INVALID_FIELD").
Proof. split; [reflexivity|]. split; reflexivity. Qed.

End RefFacts.

(** ** The historical-data path *)

Module HistFacts.
Import Hist HistSpec.

Lemma hist_item_rows (ticker : string) (fd : list (string * Ref.scalar))
    (Q : hist_row -> Prop) (items : list (string * Ref.scalar)) :
  (forall item date, item ∈ items -> item.1 <> "date" ->
     dict_get fd "date" = Py.Ok date -> Q (date, ticker, item.1, item.2)) ->
  forall data r, Forall Q data ->
    Py.for_each (hist_item ticker fd) items data = Py.Ok r -> Forall Q r.
Proof.
  intros HQ. apply PyFacts.for_each_invariant.
  intros acc item acc' Hin Hacc. unfold hist_item.
  destruct (decide (item.1 = "date")) as [|Hne]; [by intros [= <-]|].
  destruct (dict_get fd "date") as [date|e] eqn:Hd; simpl; [|done].
  intros [= <-]. apply Forall_app. split; [done|].
  constructor; [|constructor]. by apply HQ.
Qed.

Lemma hist_message_rows (d : HistoricalDataResponse) (Q : hist_row -> Prop) :
  (forall row, row_from d row -> Q row) ->
  forall data r, Forall Q data -> hist_message data d = Py.Ok r -> Forall Q r.
Proof.
  intros HQ data r Hdata. unfold hist_message.
  destruct (has_security_error d || has_field_exception d); [done|].
  revert data r Hdata. apply PyFacts.for_each_invariant.
  intros acc fd acc' Hfd Hacc. unfold hist_fd.
  apply hist_item_rows; [|done].
  intros [fname value] date Hin Hne Hdate. apply HQ. simpl in *.
  split; [done|]. by exists fd.
Qed.

Lemma hist_message_ok (d : HistoricalDataResponse) (data : list hist_row) :
  well_formed d -> exists r, hist_message data d = Py.Ok r.
Proof.
  intros [Herr Hwf]. unfold hist_message. unfold has_error in Herr. rewrite Herr.
  revert data. induction Hwf as [|fd fds [date Hdate] _ IH]; intros data; simpl; [eauto|].
  assert (forall items acc, exists r,
            Py.for_each (hist_item (security (response_securityData d)) fd) items acc
            = Py.Ok r) as Hitems.
  { induction items as [|item items IHi]; intros acc; simpl; [eauto|].
    unfold hist_item at 1. destruct (decide (item.1 = "date")); simpl; [apply IHi|].
    rewrite Hdate. simpl. apply IHi. }
  unfold hist_fd at 1. destruct (Hitems fd data) as [r ->]. simpl. apply IH.
Qed.

(** C7: a response with a [securityError] or a field exception makes the
    loop body raise [ValueError] carrying that response; the function
    never returns normally when some response of the stream has one; the
    error raised carries the first such response when the responses
    before it are well formed; and every row of a normal return is read
    off the field data of a response, so no sentinel is put in. *)
Theorem bdh_list_errors_raise :
  (forall data d, has_error d = true ->
     hist_message data d = Py.Raise (Py.ValueError d)) /\
  (forall events d, d ∈ events -> has_error d = true ->
     exists e, _bdh_list events = Py.Raise e) /\
  (forall before d after, Forall well_formed before -> has_error d = true ->
     _bdh_list (before ++ d :: after) = Py.Raise (Py.ValueError d)) /\
  (forall events data, _bdh_list events = Py.Ok data ->
     Forall (fun d => has_error d = false) events /\
     Forall (fun row => exists d, d ∈ events /\ row_from d row) data).
Proof.
  assert (forall data d, has_error d = true ->
            hist_message data d = Py.Raise (Py.ValueError d)) as Hmsg.
  { intros data d He. unfold hist_message. unfold has_error in He. by rewrite He. }
  split; [exact Hmsg|]. split; [|split].
  - intros events d Hin He. unfold _bdh_list.
    eapply PyFacts.for_each_raises; [exact Hin|].
    intros acc. eexists. by apply Hmsg.
  - intros before d after Hwf He. unfold _bdh_list.
    rewrite PyFacts.for_each_app.
    assert (forall acc, exists r, Py.for_each hist_message before acc = Py.Ok r) as Hb.
    { induction Hwf as [|x xs Hx _ IH]; intros acc; simpl; [eauto|].
      destruct (hist_message_ok x acc Hx) as [r ->]. simpl. apply IH. }
    destruct (Hb []) as [r ->]. simpl. by rewrite Hmsg.
  - intros events data Hrun. split.
    + apply Forall_forall. intros d Hin.
      destruct (has_error d) eqn:He; [|done].
      assert (exists e, _bdh_list events = Py.Raise e) as [e Hr].
      { unfold _bdh_list. eapply PyFacts.for_each_raises; [exact Hin|].
        intros acc. eexists. by apply Hmsg. }
      congruence.
    + unfold _bdh_list in Hrun. revert Hrun.
      apply (PyFacts.for_each_invariant hist_message
               (Forall (fun row => exists d, d ∈ events /\ row_from d row))); [|constructor].
      intros acc d acc' Hin Hacc. apply hist_message_rows; [|done].
      intros row Hrow. by exists d.
Qed.

(** A stream whose second response reports an unknown security. *)
Example bdh_list_unknown_security :
  let good := mk_response (mk_securityData "IBM US Equity" None []
                 [[("date", Ref.SStr "2020-01-02"); ("PX_LAST", Ref.SInt 134)]]) in
  let bad := mk_response (mk_securityData "XXX US Equity" (Some "BAD_SEC") [] []) in
  _bdh_list [good] = Py.Ok [(Ref.SStr "2020-01-02", "IBM US Equity", "PX_LAST", Ref.SInt 134)] /\
  _bdh_list [good; bad] = Py.Raise (Py.ValueError bad).
Proof. split; reflexivity. Qed.

End HistFacts.

(** ** The ticker normalizer *)

Module TickersFacts.
Import Tickers TickersSpec.

Lemma in_range_spec (lo hi c : ascii) :
  in_range lo hi c = true <-> code lo <= code c <= code hi.
Proof.
  unfold in_range. rewrite andb_true_iff, !Nat.leb_le. reflexivity.
Qed.

Lemma class_AZ (c : ascii) : atom_matches (Class [AZ]) c = true <-> is_letter c.
Proof.
  simpl. rewrite orb_false_r, in_range_spec. reflexivity.
Qed.

Lemma class_D09 (c : ascii) : atom_matches (Class [D09]) c = true <-> is_digit c.
Proof.
  simpl. rewrite orb_false_r, in_range_spec. reflexivity.
Qed.

Lemma class_AZ09 (c : ascii) : atom_matches (Class [AZ; D09]) c = true <-> is_alnum c.
Proof.
  simpl. rewrite orb_false_r, orb_true_iff, !in_range_spec. reflexivity.
Qed.

Lemma lit_spec (l c : ascii) : atom_matches (Lit l) c = true <-> c = l.
Proof. simpl. destruct (decide (l = c)); split; congruence. Qed.

Lemma is_space_spec (c : ascii) :
  is_space c = true <-> (9 <= code c <= 13 \/ 28 <= code c <= 32).
Proof.
  unfold is_space. rewrite orb_true_iff, !andb_true_iff, !Nat.leb_le. reflexivity.
Qed.

Lemma alnum_not_space (c : ascii) : is_alnum c -> is_space c = false.
Proof.
  intros H. apply not_true_is_false. rewrite is_space_spec.
  unfold is_alnum, is_letter, is_digit in H. lia.
Qed.

(** A match consumes exactly the characters the items accept. *)
Lemma match_atoms_spec (p : list atom) (s m : list ascii) :
  match_atoms p s = Some m <->
  (exists rest, s = m ++ rest) /\ Forall2 (fun a c => atom_matches a c = true) p m.
Proof.
  revert s m. induction p as [|a p IH]; intros s m; simpl.
  - split.
    + intros [= <-]. split; [by exists s|constructor].
    + intros [_ H]. by inversion H.
  - destruct s as [|c s].
    { split; [done|]. intros [[rest Hs] H]. inversion H; subst. done. }
    destruct (atom_matches a c) eqn:Hac.
    + destruct (match_atoms p s) as [m'|] eqn:Hm; simpl.
      * apply IH in Hm as [[rest ->] Hall]. split.
        -- intros [= <-]. split; [by exists rest|by constructor].
        -- intros [[rest' Hs] H]. inversion H as [|? c' ? m'' Hc Hm'']; subst.
           simpl in Hs. injection Hs as <- Hs.
           f_equal. f_equal.
           assert (length m' = length m'') as Hlen.
           { apply Forall2_length in Hall, Hm''. lia. }
           apply (f_equal (take (length m'))) in Hs.
           rewrite take_app_length in Hs. rewrite Hlen in Hs.
           by rewrite take_app_length in Hs.
      * split; [done|]. intros [[rest' Hs] H].
        inversion H as [|? c' ? m'' Hc Hm'']; subst.
        simpl in Hs. injection Hs as <- ->.
        assert (match_atoms p (m'' ++ rest') = Some m'') as Hyes.
        { apply IH. split; [by exists rest'|done]. }
        congruence.
    + split; [done|]. intros [[rest' Hs] H].
      inversion H as [|? c' ? m'' Hc Hm'']; subst.
      simpl in Hs. injection Hs as <- ->. congruence.
Qed.

Ltac invert_Forall2 :=
  repeat match goal with
         | H : Forall2 _ (_ :: _) _ |- _ => inversion H; clear H; subst
         | H : Forall2 _ [] _ |- _ => inversion H; clear H; subst
         end.

Ltac invert_Forall :=
  repeat match goal with
         | H : Forall _ (_ :: _) |- _ => inversion H; clear H; subst
         end.

(** The [isin] expression matches exactly the texts of the ISIN form. *)
Lemma isin_match_iff (u : list ascii) : is_Some (re_match isin u) <-> IsinForm u.
Proof.
  unfold re_match. change (expand isin) with
    [Class [AZ]; Class [AZ]; Class [AZ; D09]; Class [AZ; D09]; Class [AZ; D09];
     Class [AZ; D09]; Class [AZ; D09]; Class [AZ; D09]; Class [AZ; D09];
     Class [AZ; D09]; Class [AZ; D09]; Class [D09]].
  split.
  - intros [m Hm]. apply match_atoms_spec in Hm as [[rest ->] Hall].
    invert_Forall2.
    repeat match goal with
           | H : atom_matches (Class [AZ]) _ = true |- _ => apply class_AZ in H
           | H : atom_matches (Class [D09]) _ = true |- _ => apply class_D09 in H
           | H : atom_matches (Class [AZ; D09]) _ = true |- _ => apply class_AZ09 in H
           end.
    match goal with
    | |- IsinForm ((?a :: ?b :: ?c1 :: ?c2 :: ?c3 :: ?c4 :: ?c5 :: ?c6 :: ?c7 :: ?c8
                      :: ?c9 :: ?d :: []) ++ _) =>
        exists a, b, [c1; c2; c3; c4; c5; c6; c7; c8; c9], d, rest
    end.
    split; [reflexivity|]. split; [done|]. split; [done|]. split; [done|].
    split; [|done]. repeat (constructor; [done|]). constructor.
  - intros (a & b & mid & d & rest & -> & Ha & Hb & Hlen & Hmid & Hd).
    do 10 (destruct mid as [|? mid]; simpl in Hlen; try lia).
    invert_Forall.
    eexists. apply match_atoms_spec. split.
    + match goal with
      | |- exists r, ?a :: ?b :: [?c1; ?c2; ?c3; ?c4; ?c5; ?c6; ?c7; ?c8; ?c9] ++ ?d :: rest
                     = _ ++ r =>
          exists rest;
          instantiate (1 := [a; b; c1; c2; c3; c4; c5; c6; c7; c8; c9; d]);
          reflexivity
      end.
    + repeat constructor;
        first [by apply class_AZ | by apply class_D09 | by apply class_AZ09].
Qed.

Lemma isin_no_match_iff (u : list ascii) : re_match isin u = None <-> ~ IsinForm u.
Proof.
  rewrite <- isin_match_iff, <- eq_None_not_Some. reflexivity.
Qed.

Lemma starts_with_spec (needle hay : list ascii) :
  starts_with needle hay = true <-> exists after, hay = needle ++ after.
Proof.
  revert hay. induction needle as [|n needle IH]; intros hay; simpl.
  - split; [by exists hay|done].
  - destruct hay as [|h hay]; [split; [done|by intros [? ?]]|].
    destruct (decide (n = h)) as [->|Hne].
    + rewrite IH. split; intros [after H]; exists after; congruence.
    + split; [done|]. intros [after H]. congruence.
Qed.

Lemma contains_spec (needle hay : list ascii) :
  contains needle hay = true <-> Contains needle hay.
Proof.
  unfold Contains. induction hay as [|h hay IH]; simpl.
  - rewrite orb_false_r, starts_with_spec. split.
    + intros [after H]. by exists [], after.
    + intros (before & after & H). symmetry in H.
      apply app_eq_nil in H as [-> H]. by exists after.
  - rewrite orb_true_iff, starts_with_spec, IH. split.
    + intros [[after H]|(before & after & H)].
      * by exists [], after.
      * exists (h :: before), after. by rewrite H.
    + intros (before & after & H). destruct before as [|b before].
      * left. by exists after.
      * right. injection H as _ H. by exists before, after.
Qed.

(** With a run in progress the first token is that run, continued. *)
Lemma split_from_run (s : list ascii) :
  forall cur, cur <> [] ->
    exists run rest toks,
      s = run ++ rest /\
      Forall (fun c => is_space c = false) run /\
      (rest = [] \/ exists c rest', rest = c :: rest' /\ is_space c = true) /\
      split_from cur s = (rev cur ++ run) :: toks.
Proof.
  induction s as [|c s IH]; intros cur Hcur; simpl.
  - exists [], [], [].
    destruct cur; [done|].
    split_and!; [done|constructor|by left|by rewrite app_nil_r].
  - destruct (is_space c) eqn:Hc.
    + exists [], (c :: s), (split_from [] s).
      destruct cur; [done|].
      split_and!; [done|constructor| |by rewrite app_nil_r].
      right. by exists c, s.
    + destruct (IH (c :: cur) ltac:(done)) as (run & rest & toks & -> & Hrun & Hrest & ->).
      exists (c :: run), rest, toks. simpl. rewrite <- app_assoc. simpl.
      split_and!; [done|by constructor|done|done].
Qed.

(** Text with a character that is not whitespace has a first token. *)
Lemma split_first_token (s : list ascii) :
  Exists (fun c => is_space c = false) s ->
  exists tok toks, py_split s = tok :: toks /\ FirstToken s tok.
Proof.
  unfold py_split, FirstToken. induction s as [|c s IH]; intros Hex.
  - by inversion Hex.
  - simpl. destruct (is_space c) eqn:Hc.
    + inversion Hex as [? ? Hc'|? ? Hs]; subst; [congruence|].
      destruct (IH Hs) as (tok & toks & -> & ws & rest & -> & Hws & Hne & Htok & Hrest).
      exists tok, toks. split; [done|].
      exists (c :: ws), rest. split_and!; [done|by constructor|done..].
    + destruct (split_from_run s [c] ltac:(done))
        as (run & rest & toks & -> & Hrun & Hrest & ->).
      exists (c :: run), toks. split; [done|].
      exists [], rest. split_and!; [done|constructor|done|by constructor|done].
Qed.

Lemma first_token_ok {P} (s : list ascii) :
  Exists (fun c => is_space c = false) s ->
  exists tok, first_token (P:=P) s = Py.Ok tok /\ FirstToken s tok.
Proof.
  intros H. destruct (split_first_token s H) as (tok & toks & Hs & Htok).
  exists tok. unfold first_token. by rewrite Hs.
Qed.

(** The head of [findall] is the leftmost match. *)
Lemma findall_head (p : list atom) (s : list ascii) :
  match findall_from p 0 s with
  | [] => forall n, n < length s -> match_atoms p (drop n s) = None
  | m :: _ =>
      exists n, n < length s /\ match_atoms p (drop n s) = Some m /\
                forall n', n' < n -> match_atoms p (drop n' s) = None
  end.
Proof.
  induction s as [|c s IH]; [simpl; intros; lia|].
  cbn [findall_from].
  destruct (match_atoms p (c :: s)) as [m|] eqn:Hm.
  - exists 0. split; [simpl; lia|]. split; [done|]. intros; lia.
  - destruct (findall_from p 0 s) as [|m ms].
    + intros [|n] Hn; [done|]. simpl. apply IH. simpl in Hn. lia.
    + destruct IH as (n & Hn & Hmatch & Hfirst).
      exists (S n). split; [simpl; lia|]. split; [done|].
      intros [|n'] Hn'; [done|]. simpl. apply Hfirst. lia.
Qed.

Lemma exch_match_spec (u : list ascii) (n : nat) (m : list ascii) :
  n < length u ->
  (match_atoms (expand exch) (drop n u) = Some m <->
   exists a b, m = [" "%char; a; b; " "%char] /\ ExchAt u n a b).
Proof.
  intros Hn. rewrite match_atoms_spec.
  change (expand exch) with [Lit " "%char; Class [AZ; D09]; Class [AZ; D09]; Lit " "%char].
  split.
  - intros [[rest Hrest] Hall]. invert_Forall2.
    repeat match goal with
           | H : atom_matches (Class [AZ; D09]) _ = true |- _ => apply class_AZ09 in H
           | H : atom_matches (Lit _) _ = true |- _ => apply lit_spec in H; subst
           end.
    eexists _, _. split; [reflexivity|]. exists rest. by split_and!.
  - intros (a & b & -> & after & Hdrop & _ & Ha & Hb). split; [by exists after|].
    repeat constructor; first [by apply class_AZ09 | by apply lit_spec].
Qed.

Lemma strip_exch_code (a b : ascii) :
  is_alnum a -> is_alnum b -> py_strip [" "%char; a; b; " "%char] = [a; b].
Proof.
  intros Ha%alnum_not_space Hb%alnum_not_space.
  unfold py_strip, rstrip. simpl. rewrite Hb. simpl. by rewrite Ha.
Qed.

(** [exch_suffix] is the suffix for the leftmost exchange code. *)
Lemma exch_suffix_spec (u : list ascii) : ExchSuffix u (exch_suffix u).
Proof.
  unfold ExchSuffix, exch_suffix, re_findall.
  pose proof (findall_head (expand exch) u) as Hhead.
  destruct (findall_from (expand exch) 0 u) as [|m ms].
  - right. split; [|done]. intros n a b Hat.
    pose proof Hat as (after & _ & Hn & _).
    specialize (Hhead n Hn).
    assert (match_atoms (expand exch) (drop n u) = Some [" "%char; a; b; " "%char]) as Hyes.
    { apply exch_match_spec; [done|]. by exists a, b. }
    congruence.
  - left. destruct Hhead as (n & Hn & Hmatch & Hfirst).
    apply exch_match_spec in Hmatch as (a & b & -> & Hat); [|done].
    exists n, a, b. split; [done|]. split.
    + intros n' a' b' Hat'. destruct (decide (n <= n')) as [|Hlt]; [done|].
      pose proof Hat' as (after & _ & Hn' & _).
      assert (match_atoms (expand exch) (drop n' u) = Some [" "%char; a'; b'; " "%char])
        as Hyes.
      { apply exch_match_spec; [done|]. by exists a', b'. }
      rewrite Hfirst in Hyes by lia. done.
    + destruct Hat as (_ & _ & _ & Ha & Hb). by rewrite strip_exch_code.
Qed.

Lemma isin_form_has_text (u : list ascii) :
  IsinForm u -> Exists (fun c => is_space c = false) u.
Proof.
  intros (a & b & mid & d & rest & -> & Ha & _). constructor.
  apply alnum_not_space. by left.
Qed.

Lemma sedol_has_text (u : list ascii) :
  Contains (chars " SEDOL") u -> Exists (fun c => is_space c = false) u.
Proof.
  intros (before & after & ->). apply Exists_app. right.
  simpl. constructor 2. by constructor.
Qed.

(** One turn of the loop appends the normalized ticker and never raises. *)
Lemma parse_ticker_ok {P} (new_tick : list string) (u : list ascii) :
  exists o, parse_ticker (P:=P) new_tick u = Py.Ok (new_tick ++ [o]) /\ Normalized u o.
Proof.
  unfold parse_ticker, Normalized.
  destruct (re_match isin u) as [m|] eqn:Hisin.
  - assert (IsinForm u) as Hform by (apply isin_match_iff; eauto).
    destruct (first_token_ok (P:=P) u (isin_form_has_text u Hform)) as (tok & -> & Htok).
    simpl. eexists. split; [reflexivity|].
    split_and!; [|done..].
    intros _. exists tok, (exch_suffix u). split_and!; [done|apply exch_suffix_spec|done].
  - apply isin_no_match_iff in Hisin.
    destruct (contains (chars " SEDOL") u) eqn:Hsedol.
    + apply contains_spec in Hsedol.
      destruct (first_token_ok (P:=P) u (sedol_has_text u Hsedol)) as (tok & -> & Htok).
      simpl. eexists. split; [reflexivity|].
      split_and!; [done| |done].
      intros _ _. exists tok, (exch_suffix u).
      split_and!; [done|apply exch_suffix_spec|done].
    + eexists. split; [reflexivity|].
      split_and!; [done| |done].
      intros _ Hc. apply contains_spec in Hc. congruence.
Qed.

Lemma parse_loop_ok {P} (us : list (list ascii)) :
  forall new_tick, exists out,
    Py.for_each (P:=P) parse_ticker us new_tick = Py.Ok (new_tick ++ out) /\
    Forall2 Normalized us out.
Proof.
  induction us as [|u us IH]; intros new_tick; simpl.
  - exists []. by rewrite app_nil_r.
  - destruct (parse_ticker_ok (P:=P) new_tick u) as (o & -> & Ho). simpl.
    destruct (IH (new_tick ++ [o])) as (out & -> & Hout).
    exists (o :: out). rewrite <- app_assoc. split; [done|by constructor].
Qed.

(** The normalizer never raises and normalizes input by input. *)
Lemma parse_tickers_ok {P} (tickers : Py.str_or_list) :
  exists out,
    _parse_tickers (P:=P) tickers = Py.Ok out /\
    Forall2 Normalized (map canon (Py.as_list tickers)) out.
Proof.
  unfold _parse_tickers.
  destruct (parse_loop_ok (P:=P) (map canon (Py.as_list tickers)) []) as (out & Hrun & Hall).
  exists out. split; [exact Hrun|done].
Qed.

(** C6, as the code has it: the normalizer never raises and returns one
    ticker per input, in order. With [u] the uppercased, stripped form of
    an input: if [u] has the ISIN form the output is [/isin/], the first
    whitespace-separated token of [u] and, when [u] holds a two-character
    code between two spaces, a space and the leftmost such code;
    otherwise, if [u] contains [ SEDOL], the output is [/sedol/] followed
    by the same two parts; otherwise the output is [u]. *)
Theorem parse_tickers_normalizes {P} (tickers : Py.str_or_list) :
  exists out,
    _parse_tickers (P:=P) tickers = Py.Ok out /\
    length out = length (Py.as_list tickers) /\
    forall i t, Py.as_list tickers !! i = Some t ->
      exists o, out !! i = Some o /\ Normalized (canon t) o.
Proof.
  destruct (parse_tickers_ok (P:=P) tickers) as (out & Hrun & Hall).
  exists out. split; [done|].
  pose proof (Forall2_length _ _ _ Hall) as Hlen. rewrite length_map in Hlen.
  split; [done|].
  intros i t Hi.
  assert (map canon (Py.as_list tickers) !! i = Some (canon t)) as Hu.
  { rewrite list_lookup_fmap, Hi. done. }
  destruct (Forall2_lookup_l _ _ _ _ _ Hall Hu) as (o & Ho & Hnorm).
  by exists o.
Qed.

(** The clauses of the description, read on the input as given, fail:
    an ISIN followed by a two-character exchange code and nothing else
    loses the code, which is only taken between two spaces; text of the
    ISIN form that contains [ SEDOL] is rewritten as an ISIN; and
    lower-case text, which does not contain [ SEDOL] and has not the ISIN
    form, is rewritten as a SEDOL instead of being returned uppercased. *)
Lemma sedol_clause_counterexample :
  (IsinForm (canon "IE00B4L5Y983 LN") /\
   py_split (canon "IE00B4L5Y983 LN") = [chars "IE00B4L5Y983"; chars "LN"] /\
   _parse_tickers (P:=Empty_set) (Py.Lst ["IE00B4L5Y983 LN"])
   = Py.Ok ["/isin/IE00B4L5Y983"] /\
   "/isin/IE00B4L5Y983" <> "/isin/IE00B4L5Y983 LN") /\
  (Contains (chars " SEDOL") (chars "AB1234567890 SEDOL") /\
   _parse_tickers (P:=Empty_set) (Py.Lst ["AB1234567890 SEDOL"])
   = Py.Ok ["/isin/AB1234567890"] /\
   "/isin/AB1234567890" <> "/sedol/AB1234567890") /\
  (~ Contains (chars " SEDOL") (chars "b0yqyw5 sedol") /\
   ~ IsinForm (canon "b0yqyw5 sedol") /\
   _parse_tickers (P:=Empty_set) (Py.Str "b0yqyw5 sedol") = Py.Ok ["/sedol/B0YQYW5"] /\
   "/sedol/B0YQYW5" <> str (canon "b0yqyw5 sedol")).
Proof.
  split_and!.
  - apply isin_match_iff. by eexists.
  - reflexivity.
  - reflexivity.
  - done.
  - by apply contains_spec.
  - reflexivity.
  - done.
  - rewrite <- contains_spec. by vm_compute.
  - rewrite <- isin_no_match_iff. reflexivity.
  - reflexivity.
  - by vm_compute.
Qed.

(** The three cases on concrete inputs. *)
Example parse_tickers_examples :
  _parse_tickers (P:=Empty_set)
    (Py.Lst ["us0378331005 us equity"; " B0YQYW5 SEDOL "; "ibm us equity";
             "B0YQYW5 LN SEDOL"])
  = Py.Ok ["/isin/US0378331005 US"; "/sedol/B0YQYW5"; "IBM US EQUITY"; "/sedol/B0YQYW5 LN"].
Proof. reflexivity. Qed.

End TickersFacts.

(** ** Grouping requests by override combination *)

Module BdpFacts.
Import Bdp BdpSpec.

Section Unique.

Context {A : Type} `{EqDecision A}.

Lemma unique_elem_of (l : list A) (x : A) : x ∈ unique l <-> x ∈ l.
Proof.
  induction l as [|y l IH]; simpl; [done|].
  rewrite !elem_of_cons, list_elem_of_filter, IH.
  destruct (decide (x = y)); tauto.
Qed.

Lemma unique_NoDup (l : list A) : NoDup (unique l).
Proof.
  induction l as [|y l IH]; simpl; [constructor|].
  apply NoDup_cons. split.
  - rewrite list_elem_of_filter. intros [Hne _]. by apply Hne.
  - by apply NoDup_filter.
Qed.

End Unique.

(** The groups are keyed by the distinct combinations, each once. *)
Lemma groupby_keys_NoDup (params_df : list param_row) :
  NoDup (map fst (groupby_unique params_df)).
Proof.
  unfold groupby_unique. rewrite map_map. simpl. rewrite map_id.
  rewrite merge_sort_Permutation. apply unique_NoDup.
Qed.

Lemma groupby_keys (params_df : list param_row) (key : list string) :
  key ∈ map fst (groupby_unique params_df) <-> exists t, (t, key) ∈ params_df.
Proof.
  unfold groupby_unique. rewrite map_map. simpl. rewrite map_id.
  rewrite merge_sort_Permutation, unique_elem_of, list_elem_of_fmap.
  split.
  - intros ([t k] & -> & Hin). by exists t.
  - intros [t Hin]. by exists (t, key).
Qed.

(** A group carries the tickers of its combination, each once. *)
Lemma groupby_group (params_df : list param_row) (key : list string)
    (tickers : list string) :
  (key, tickers) ∈ groupby_unique params_df ->
  NoDup tickers /\ forall t, t ∈ tickers <-> (t, key) ∈ params_df.
Proof.
  unfold groupby_unique. intros Hin.
  apply list_elem_of_fmap in Hin as (k & [= <- ->] & _).
  split; [apply unique_NoDup|].
  intros t. rewrite unique_elem_of, list_elem_of_fmap. split.
  - intros ([t' k] & -> & Hin). apply list_elem_of_filter in Hin as [Hk Hin].
    simpl in *. by subst.
  - intros Hin. exists (t, key). split; [done|]. by apply list_elem_of_filter.
Qed.

Section Session.

Context {P : Type}.
Variable vendor : nat -> request -> list Ref.message.

Lemma ref_sent (c c' : con) (tickers : list string) (flds : str_or_list)
    (ovrds : list (string * string)) (res : Py.result P (list Ref.ref_datum)) :
  ref (P:=P) vendor c tickers flds ovrds = (res, c') ->
  sent c' = sent c ++ [mk_request tickers (as_list flds) ovrds].
Proof.
  unfold ref. destruct (Ref._parse_ref _ _ _) as [[|d data]|e]; by intros [= <- <-].
Qed.

(** The loop sends the requests of the groups in order, one per group,
    and stops at the first that raises. *)
Lemma fetch_all_sent (field : str_or_list) (ovrd_names : list string)
    (rows : list group_row) :
  forall c all_data res c',
    fetch_all (P:=P) vendor c field ovrd_names rows all_data = (res, c') ->
    exists n,
      n <= length rows /\
      sent c' = sent c ++ map (request_of field ovrd_names) (take n rows) /\
      (Py.is_ok res = true -> n = length rows).
Proof.
  induction rows as [|row rows IH]; intros c all_data res c' Hrun; simpl in Hrun.
  - injection Hrun as <- <-. exists 0. simpl. by rewrite app_nil_r.
  - destruct (ref vendor c row.2 field (kwargs_of ovrd_names row)) as [[data|e] c1] eqn:Href;
      apply ref_sent in Href.
    + apply IH in Hrun as (n & Hn & Hsent & Hok).
      exists (S n). simpl. split; [lia|]. split.
      * rewrite Hsent, Href, <- app_assoc. done.
      * intros H. by rewrite Hok.
    + injection Hrun as <- <-. exists 1. simpl. split; [lia|]. split.
      * rewrite Href. by destruct rows.
      * done.
Qed.

(** The result of a call depends on the connection through the
    requests it has sent only. *)
Lemma ref_result (c : con) (tickers : list string) (flds : str_or_list)
    (ovrds : list (string * string)) :
  ref (P:=P) vendor c tickers flds ovrds
  = ((ref (P:=P) vendor (mk_con (sent c)) tickers flds ovrds).1,
     mk_con (sent c ++ [mk_request tickers (as_list flds) ovrds])).
Proof.
  unfold ref. simpl. by destruct (Ref._parse_ref _ _ _) as [[|d data]|e].
Qed.

(** The loop calls [con.ref] for the groups in order: when every call
    returns it has sent the requests of all groups and returns; when
    the calls before the [k]-th return and the [k]-th raises, it has
    sent the requests of the groups up to that one and raises the same
    error. *)
Lemma fetch_all_trace (field : str_or_list) (ovrd_names : list string)
    (rows : list group_row) :
  forall c all_data res c',
    fetch_all (P:=P) vendor c field ovrd_names rows all_data = (res, c') ->
    let call k row :=
      (ref (P:=P) vendor
         (mk_con (sent c ++ map (request_of field ovrd_names) (take k rows)))
         row.2 field (kwargs_of ovrd_names row)).1 in
    ((forall k row, rows !! k = Some row -> Py.is_ok (call k row) = true) ->
     Py.is_ok res = true /\
     sent c' = sent c ++ map (request_of field ovrd_names) rows) /\
    (forall k row e,
       rows !! k = Some row ->
       (forall j row', j < k -> rows !! j = Some row' -> Py.is_ok (call j row') = true) ->
       call k row = Py.Raise e ->
       res = Py.Raise e /\
       sent c' = sent c ++ map (request_of field ovrd_names) (take (S k) rows)).
Proof.
  induction rows as [|row rows IH]; intros c all_data res c' Hrun call; simpl in Hrun.
  - injection Hrun as <- <-. split; [by rewrite app_nil_r|]. by intros k row e Hk.
  - rewrite ref_result in Hrun.
    assert (forall row',
              call 0 row'
              = (ref (P:=P) vendor (mk_con (sent c)) row'.2 field
                   (kwargs_of ovrd_names row')).1) as Hfirst.
    { intros row'. unfold call. simpl. by rewrite app_nil_r. }
    assert (forall k row',
              call (S k) row'
              = (ref (P:=P) vendor
                   (mk_con (sent (mk_con (sent c ++ [request_of field ovrd_names row]))
                            ++ map (request_of field ovrd_names) (take k rows)))
                   row'.2 field (kwargs_of ovrd_names row')).1) as Hnext.
    { intros k row'. unfold call. simpl. by rewrite <- app_assoc. }
    clearbody call.
    destruct ((ref vendor (mk_con (sent c)) row.2 field (kwargs_of ovrd_names row)).1)
      as [data|e0] eqn:Href; simpl in Hrun.
    + apply IH in Hrun as [Hall Hraise]. simpl in Hall, Hraise. split.
      * intros Hcalls.
        destruct Hall as [Hok Hsent].
        { intros k row' Hk. rewrite <- Hnext. by apply (Hcalls (S k)). }
        split; [done|]. rewrite Hsent, <- app_assoc. done.
      * intros [|k] row' e Hk Hbefore Hcall.
        { simpl in Hk. injection Hk as <-. rewrite Hfirst in Hcall. congruence. }
        simpl in Hk. rewrite Hnext in Hcall.
        destruct (Hraise k row' e Hk) as [Hres Hsent]; [|done|].
        { intros j row'' Hj Hrow''. rewrite <- Hnext. apply (Hbefore (S j)); [lia|done]. }
        split; [done|]. rewrite Hsent, <- app_assoc. done.
    + injection Hrun as <- <-. split.
      * intros Hcalls. specialize (Hcalls 0 row eq_refl).
        rewrite Hfirst, Href in Hcalls. simpl in Hcalls. done.
      * intros [|k] row' e Hk Hbefore Hcall.
        -- simpl in Hk. injection Hk as <-. rewrite Hfirst, Href in Hcall.
           split; [congruence|]. simpl. by destruct rows.
        -- specialize (Hbefore 0 row ltac:(lia) eq_refl).
           rewrite Hfirst, Href in Hbefore. simpl in Hbefore. done.
Qed.

Lemma dict_set_fresh {V} (d : list (string * V)) (k : string) (v : V) :
  k ∉ map fst d -> dict_set d k v = d ++ [(k, v)].
Proof.
  induction d as [|item d IH]; simpl; [done|].
  intros Hk. apply not_elem_of_cons in Hk as [Hne Hk].
  destruct (decide (item.1 = k)); [by destruct Hne|]. by rewrite IH.
Qed.

(** With distinct names the loop over the overrides appends one column
    per override, in order. *)
Lemma broadcast_columns (numb_tickers : nat) (items : list (string * ovrd_arg)) :
  forall ovrds2,
    NoDup (map fst ovrds2 ++ map fst items) ->
    Forall (fits numb_tickers) items ->
    Py.for_each (P:=P) (broadcast numb_tickers) items ovrds2
    = Py.Ok (ovrds2 ++ map (ovrd_column numb_tickers) items).
Proof.
  induction items as [|item items IH]; intros ovrds2 Hnd Hfit; simpl.
  - by rewrite app_nil_r.
  - inversion Hfit as [|? ? Hitem Hrest]; subst.
    assert (item.1 ∉ map fst ovrds2) as Hfresh.
    { apply NoDup_app in Hnd as (_ & Hdisj & _). intros Hin.
      apply (Hdisj _ Hin). apply list_elem_of_here. }
    assert (broadcast (P:=P) numb_tickers ovrds2 item
            = Py.Ok (ovrds2 ++ [ovrd_column numb_tickers item])) as ->.
    { unfold broadcast, ovrd_column, fits in *. destruct (item.2) as [v|vs].
      - by rewrite dict_set_fresh.
      - destruct (decide (length vs <> numb_tickers)); [done|].
        by rewrite dict_set_fresh. }
    simpl. rewrite IH; [by rewrite <- app_assoc| |done].
    rewrite map_app, <- app_assoc. exact Hnd.
Qed.

(** What [_BDP] prepares from overrides with distinct names, none of
    them [dummy]: the translated tickers and one column per override,
    the dummy column last. *)
Lemma prepare_columns (tickers : list string) (field_ovrds : list (string * ovrd_arg)) :
  NoDup (map fst field_ovrds) -> "dummy" ∉ map fst field_ovrds ->
  Forall (fits (length tickers)) field_ovrds ->
  exists trans_tickers,
    Tickers._parse_tickers (P:=P) (Lst tickers) = Py.Ok trans_tickers /\
    length trans_tickers = length tickers /\
    prepare (P:=P) tickers field_ovrds
    = Py.Ok (trans_tickers,
             map (ovrd_column (length tickers)) field_ovrds
             ++ [("dummy", replicate (length tickers) "dummy")]).
Proof.
  intros Hnd Hdummy Hfit. unfold prepare.
  destruct (TickersFacts.parse_tickers_ok (P:=P) (Lst tickers)) as (out & Hrun & Hall).
  apply Forall2_length in Hall. rewrite length_map in Hall. simpl in Hall.
  exists out. split; [done|]. split; [done|].
  rewrite Hrun. simpl. rewrite dict_set_fresh by done.
  rewrite broadcast_columns.
  - simpl. rewrite map_app. simpl. by rewrite <- Hall.
  - simpl. rewrite map_app. simpl. apply NoDup_app. split_and!; [done| |].
    + intros k Hk Hk'. apply list_elem_of_singleton in Hk'. by subst.
    + apply NoDup_singleton.
  - rewrite <- Hall. apply Forall_app. split; [done|]. by repeat constructor.
Qed.

Lemma params_frame_rows (trans_tickers : list string)
    (ovrds2 : list (string * list string)) (row : param_row) :
  row ∈ params_frame trans_tickers ovrds2 <->
  exists i t, trans_tickers !! i = Some t /\ row = (t, ovrds_at ovrds2 i).
Proof.
  unfold params_frame. rewrite list_elem_of_lookup. split.
  - intros [i Hi]. rewrite list_lookup_imap in Hi.
    destruct (trans_tickers !! i) as [t|] eqn:Ht; [|done].
    injection Hi as <-. by exists i, t.
  - intros (i & t & Ht & ->). exists i. by rewrite list_lookup_imap, Ht.
Qed.

(** C1: with [params_df] the frame of the translated tickers and their
    override values, the groups that [_BDP] requests are keyed by the
    distinct combinations of override values, each once; the group of a
    combination carries exactly the tickers that have it, each once; and
    the requests sent are those of the groups in order, one [con.ref]
    call per group, each with the tickers of its group. When every call
    returns, exactly the requests of all groups have been sent, whether
    [_BDP] then returns or the merge raises; when the calls before the
    [k]-th return and the [k]-th raises, [_BDP] raises the same error
    and exactly the requests of the groups up to and including that one
    have been sent. *)
Theorem bdp_one_request_per_combination (tickers field : str_or_list)
    (field_ovrds : list (string * ovrd_arg)) (trans_tickers : list string)
    (ovrds2 : list (string * list string))
    (res : Py.result P (list Ref.scalar)) (c' : con) :
  prepare (P:=P) (as_list tickers) field_ovrds = Py.Ok (trans_tickers, ovrds2) ->
  _BDP (P:=P) vendor tickers field field_ovrds = (res, c') ->
  let params_df := params_frame trans_tickers ovrds2 in
  let groups := groupby_unique params_df in
  let ovrd_names := map fst ovrds2 in
  (forall row, row ∈ params_df <->
     exists i t, trans_tickers !! i = Some t /\ row = (t, ovrds_at ovrds2 i)) /\
  NoDup (map fst groups) /\
  (forall key, key ∈ map fst groups <-> exists t, (t, key) ∈ params_df) /\
  (forall key group, (key, group) ∈ groups ->
     NoDup group /\ forall t, t ∈ group <-> (t, key) ∈ params_df) /\
  (exists n, n <= length groups /\
     sent c' = map (request_of field ovrd_names) (take n groups)) /\
  (Py.is_ok res = true ->
     sent c' = map (request_of field ovrd_names) groups) /\
  (all_calls_return (P:=P) vendor field ovrd_names groups ->
     sent c' = map (request_of field ovrd_names) groups) /\
  (forall k row e,
     groups !! k = Some row ->
     (forall j row', j < k -> groups !! j = Some row' ->
        Py.is_ok (kth_call (P:=P) vendor field ovrd_names groups j row') = true) ->
     kth_call (P:=P) vendor field ovrd_names groups k row = Py.Raise e ->
     res = Py.Raise e /\
     sent c' = map (request_of field ovrd_names) (take (S k) groups)).
Proof.
  intros Hprep Hrun params_df groups ovrd_names.
  split; [apply params_frame_rows|].
  split; [apply groupby_keys_NoDup|].
  split; [apply groupby_keys|].
  split; [intros key group; apply groupby_group|].
  unfold _BDP in Hrun. rewrite Hprep in Hrun.
  match type of Hrun with
  | context [fetch_all ?v ?c ?f ?names ?rows ?acc] =>
      destruct (fetch_all v c f names rows acc) as [fres c1] eqn:Hfetch
  end.
  pose proof (fetch_all_trace _ _ _ _ _ _ _ Hfetch) as [Hall Hraise].
  apply fetch_all_sent in Hfetch as (n & Hn & Hsent & Hok). simpl in Hsent.
  assert (c1 = c') as ->.
  { destruct fres; by apply (f_equal snd) in Hrun. }
  split; [by exists n|].
  split; [|split].
  - intros Hres. destruct fres as [all_data|e].
    + rewrite Hsent, Hok by done. by rewrite take_ge.
    + apply (f_equal fst) in Hrun. simpl in Hrun. by subst res.
  - intros Hcalls. by destruct (Hall Hcalls) as [_ ->].
  - intros k row e Hk Hbefore Hcall.
    destruct (Hraise k row e Hk Hbefore Hcall) as [-> Hlog].
    split; [|exact Hlog]. by apply (f_equal fst) in Hrun.
Qed.

Lemma same_key_data_key (l : inp_row) (r : data_row) :
  same_key l r <-> data_key r = data_key_of l.
Proof.
  unfold same_key, data_key, data_key_of. split.
  - by intros [-> ->].
  - by intros [= -> ->].
Qed.

(** With keys unique on the right a left row matches at most one row. *)
Lemma filter_same_key (all_data : list data_row) (l : inp_row) :
  NoDup (map data_key all_data) ->
  (filter (same_key l) all_data = [] /\ forall r, r ∈ all_data -> ~ same_key l r) \/
  (exists r, filter (same_key l) all_data = [r] /\ r ∈ all_data /\ same_key l r /\
             forall r', r' ∈ all_data -> same_key l r' -> r' = r).
Proof.
  induction all_data as [|r0 all_data IH]; intros Hnd.
  - left. split; [done|]. intros r Hr. by apply elem_of_nil in Hr.
  - simpl in Hnd. apply NoDup_cons in Hnd as [Hnotin Hnd].
    rewrite filter_cons. destruct (decide (same_key l r0)) as [Hk|Hk].
    + right. exists r0.
      assert (forall r, r ∈ all_data -> ~ same_key l r) as Hnone.
      { intros r Hr Hkr. apply Hnotin.
        apply same_key_data_key in Hk, Hkr. rewrite Hk, <- Hkr.
        by apply list_elem_of_fmap_2. }
      split_and!.
      * f_equal. destruct (IH Hnd) as [[-> _]|(r & _ & Hr & Hkr & _)]; [done|].
        by destruct (Hnone r Hr).
      * apply list_elem_of_here.
      * done.
      * intros r' Hr' Hkr'. apply elem_of_cons in Hr' as [->|Hr']; [done|].
        by destruct (Hnone r' Hr').
    + destruct (IH Hnd) as [[Hf Hnone]|(r & Hf & Hr & Hkr & Huniq)].
      * left. split; [done|]. intros r Hr.
        apply elem_of_cons in Hr as [->|Hr]; [done|by apply Hnone].
      * right. exists r. split_and!; [done|by apply list_elem_of_further|done|].
        intros r' Hr' Hkr'. apply elem_of_cons in Hr' as [->|Hr']; [done|].
        by apply Huniq.
Qed.

Lemma join_row_single (all_data : list data_row) (l : inp_row) :
  NoDup (map data_key all_data) ->
  exists m, join_row all_data l = [m] /\ m_inp m = l /\
            Reconciled all_data l (m_value m).
Proof.
  intros Hnd. unfold join_row, Reconciled.
  destruct (filter_same_key all_data l Hnd) as [[-> Hnone]|(r & -> & Hr & Hkr & Huniq)].
  - eexists. split; [done|]. split; [done|]. simpl. split; [|done].
    intros r Hr Hkr. by destruct (Hnone r Hr).
  - eexists. split; [done|]. split; [done|]. simpl. split.
    + intros r' Hr' Hkr'. by rewrite (Huniq r' Hr' Hkr').
    + intros Hnone. by destruct (Hnone r Hr).
Qed.

Lemma merge_rows (all_data : list data_row) (inp_df : list inp_row) :
  NoDup (map data_key all_data) ->
  Forall2 (fun l m => m_inp m = l /\ Reconciled all_data l (m_value m))
          inp_df (flat_map (join_row all_data) inp_df).
Proof.
  intros Hnd. induction inp_df as [|l inp_df IH]; simpl; [constructor|].
  destruct (join_row_single all_data l Hnd) as (m & -> & Hm). simpl.
  by constructor.
Qed.

Lemma prepare_length (tickers : list string) (field_ovrds : list (string * ovrd_arg))
    (trans_tickers : list string) (ovrds2 : list (string * list string)) :
  prepare (P:=P) tickers field_ovrds = Py.Ok (trans_tickers, ovrds2) ->
  length trans_tickers = length tickers.
Proof.
  unfold prepare.
  destruct (TickersFacts.parse_tickers_ok (P:=P) (Lst tickers)) as (out & -> & Hall).
  apply Forall2_length in Hall. rewrite length_map in Hall. simpl in Hall.
  simpl. destruct (Py.for_each _ _ _); simpl; [|done]. by intros [= <- _].
Qed.

(** C2: when [_BDP] returns, its output has one value per input ticker
    and the value at position [i] is the one reconciled for the [i]-th
    input ticker: the value of the row of the gathered data that has
    its translated ticker and its override values, [NaN] when there is
    no such row, whether or not the ticker occurs elsewhere in the
    input; and a merged frame whose row count differs from the number of
    input tickers makes the last step raise [ValueError]. *)
Theorem bdp_output_aligned (tickers field : str_or_list)
    (field_ovrds : list (string * ovrd_arg)) (out : list Ref.scalar) (c' : con) :
  _BDP (P:=P) vendor tickers field field_ovrds = (Py.Ok out, c') ->
  length out = length (as_list tickers) /\
  (exists trans_tickers ovrds2 all_data,
     prepare (P:=P) (as_list tickers) field_ovrds = Py.Ok (trans_tickers, ovrds2) /\
     fetch_all (P:=P) vendor (mk_con []) field (map fst ovrds2)
       (groupby_unique (params_frame trans_tickers ovrds2)) []
     = (Py.Ok all_data, c') /\
     forall i t, as_list tickers !! i = Some t ->
       exists tt v,
         trans_tickers !! i = Some tt /\ out !! i = Some v /\
         Reconciled all_data (mk_inp_row tt t (ovrds_at ovrds2 i)) v) /\
  (forall (inp_df : list merged_row) (ts : list string),
     length inp_df <> length ts ->
     finish (P:=P) inp_df ts
     = Py.Raise (Py.ValueErrorMsg "uneven length of response tickers to request tickers")).
Proof.
  intros Hrun. unfold _BDP in Hrun.
  destruct (prepare (as_list tickers) field_ovrds) as [[trans_tickers ovrds2]|e] eqn:Hprep;
    [|done].
  pose proof (prepare_length _ _ _ _ Hprep) as Hlen.
  destruct (fetch_all vendor (mk_con []) field (map fst ovrds2) _ [])
    as [[all_data|e] c1] eqn:Hfetch; [|done].
  injection Hrun as Hrun <-.
  unfold merge_left_m1 in Hrun.
  destruct all_data as [|d0 all_data0]; [done|].
  set (all_data := d0 :: all_data0) in *.
  destruct (decide (NoDup (map data_key all_data))) as [Hnd|]; [|done].
  simpl in Hrun. unfold finish in Hrun.
  destruct (decide (length _ <> length (as_list tickers))); [done|].
  injection Hrun as <-.
  pose proof (merge_rows all_data (inp_frame trans_tickers (as_list tickers) ovrds2) Hnd)
    as Hmerge.
  split.
  { rewrite length_map. apply Forall2_length in Hmerge. rewrite <- Hmerge.
    unfold inp_frame. by rewrite length_imap. }
  split.
  - exists trans_tickers, ovrds2, all_data. split; [done|]. split; [done|].
    intros i t Hi.
    destruct (lookup_lt_is_Some_2 trans_tickers i) as [tt Htt].
    { rewrite Hlen. by eapply lookup_lt_Some. }
    assert (inp_frame trans_tickers (as_list tickers) ovrds2 !! i
            = Some (mk_inp_row tt t (ovrds_at ovrds2 i))) as Hrow.
    { unfold inp_frame. rewrite list_lookup_imap, Htt. simpl. by rewrite Hi. }
    destruct (Forall2_lookup_l _ _ _ _ _ Hmerge Hrow) as (m & Hm & _ & Hrec).
    exists tt, (m_value m). split; [done|]. split; [|done].
    by rewrite list_lookup_fmap, Hm.
  - intros inp_df ts Hne. unfold finish.
    by destruct (decide (length inp_df <> length ts)).
Qed.

End Session.

(** Three tickers, two of them the same security, with two currencies:
    two requests, and the output follows the input order. *)
Example bdp_three_tickers :
  _BDP (P:=Empty_set) echo_vendor three_tickers (Str "PX_LAST") per_ticker_currency
  = (Py.Ok [Ref.SInt 1; Ref.SInt 0; Ref.SInt 1], two_requests).
Proof. vm_compute. reflexivity. Qed.

Lemma bdp_one_request_per_combination_witness :
  let trans_tickers := ["IBM US EQUITY"; "AAPL US EQUITY"; "IBM US EQUITY"] in
  let ovrds2 := [("EQY_FUND_CRNCY", ["USD"; "EUR"; "USD"]);
                 ("dummy", ["dummy"; "dummy"; "dummy"])] in
  NoDup (map fst (groupby_unique (params_frame trans_tickers ovrds2))) /\
  sent two_requests
  = map (request_of (Str "PX_LAST") (map fst ovrds2))
        (groupby_unique (params_frame trans_tickers ovrds2)).
Proof.
  intros trans_tickers ovrds2.
  pose proof (bdp_one_request_per_combination (P:=Empty_set) echo_vendor
                three_tickers (Str "PX_LAST") per_ticker_currency trans_tickers ovrds2
                (Py.Ok [Ref.SInt 1; Ref.SInt 0; Ref.SInt 1]) two_requests
                ltac:(vm_compute; reflexivity) ltac:(vm_compute; reflexivity))
    as (_ & Hnodup & _ & _ & _ & Hall & _).
  split; [exact Hnodup|]. apply Hall. reflexivity.
Defined.

(** Three groups and a second call that raises: the third request is
    never sent. *)
Example bdp_second_call_raises :
  _BDP (P:=Empty_set) second_call_fails three_tickers (Str "PX_LAST") three_currencies
  = (Py.Raise (Py.ValueErrorMsg "PX_LAST: INVALID_FIELD"),
     mk_con [mk_request ["AAPL US EQUITY"] ["PX_LAST"] [("EQY_FUND_CRNCY", "EUR")];
             mk_request ["IBM US EQUITY"] ["PX_LAST"] [("EQY_FUND_CRNCY", "GBP")]]).
Proof. vm_compute. reflexivity. Qed.

Lemma bdp_output_aligned_witness :
  length [Ref.SInt 1; Ref.SInt 0; Ref.SInt 1] = length (as_list three_tickers).
Proof.
  apply (bdp_output_aligned (P:=Empty_set) echo_vendor three_tickers (Str "PX_LAST")
           per_ticker_currency [Ref.SInt 1; Ref.SInt 0; Ref.SInt 1] two_requests).
  vm_compute. reflexivity.
Defined.

End BdpFacts.

(** ** The bid/ask/trade statistics *)

Module BbatFacts.
Import Bbat BbatSpec.

#[local] Instance row_le_total : Total row_le.
Proof.
  intros r1 r2. unfold row_le.
  destruct (total String.le (ticker r1) (ticker r2)) as [H12|H21].
  - destruct (decide (ticker r1 = ticker r2)) as [Heq|Hne].
    + destruct (Z.le_gt_cases (time r1) (time r2)).
      * left. by split.
      * right. split; [by rewrite Heq|]. intros _. lia.
    + left. split; [done|]. intros Heq. by destruct Hne.
  - destruct (decide (ticker r1 = ticker r2)) as [Heq|Hne].
    + destruct (Z.le_gt_cases (time r1) (time r2)).
      * left. split; [by rewrite Heq|done].
      * right. split; [done|]. intros _. lia.
    + right. split; [done|]. intros Heq. by destruct Hne.
Qed.

#[local] Instance row_le_trans : Transitive row_le.
Proof.
  intros r1 r2 r3 [Ht12 Hs12] [Ht23 Hs23]. split; [by etrans|].
  intros Heq. rewrite Heq in Ht12.
  assert (ticker r2 = ticker r3) as H23 by (by apply (anti_symm String.le)).
  assert (ticker r1 = ticker r2) as H12 by congruence.
  specialize (Hs12 H12). specialize (Hs23 H23). lia.
Qed.

Lemma sort_values_sorted (df : list row) : StronglySorted row_le (sort_values df).
Proof. apply StronglySorted_merge_sort; apply _. Qed.

(** The words of the description and the columns of the code name the
    same day, the same group and the same seconds. *)
Lemma calendar_date_date_of (tz : zone) (r : row) :
  calendar_date tz r = date_of tz (time r).
Proof. reflexivity. Qed.

Lemma group_key_same (tz : zone) (r r' : row) :
  group_key tz r = group_key tz r' <-> same_ticker_and_date tz r r'.
Proof.
  unfold group_key, same_ticker_and_date. rewrite !calendar_date_date_of. split.
  - by intros [= -> ->].
  - by intros [-> ->].
Qed.

Lemma seconds_between_total (r r' : row) :
  seconds_between r r' = total_seconds (time r' - time r).
Proof. reflexivity. Qed.

Lemma dates_in_order_perm (tz : zone) (rows df : list row) :
  df ≡ₚ rows -> dates_in_order tz rows -> dates_in_order tz df.
Proof.
  intros Hperm Hord r r' Hr Hr'. apply Hord; by rewrite <- Hperm.
Qed.

(** Rows of one calendar date are in order. *)
Lemma one_date_in_order (tz : zone) (rows : list row) (day : Z) :
  (forall r, r ∈ rows -> calendar_date tz r = day) -> dates_in_order tz rows.
Proof.
  intros Hday r r' Hr Hr' _ _. rewrite (Hday r Hr), (Hday r' Hr'). lia.
Qed.

(** In a zone whose date never goes back every frame has its dates in
    order, whatever the clock changes of the zone. *)
Lemma zone_in_order (tz : zone) (rows : list row) :
  date_never_goes_back tz -> dates_in_order tz rows.
Proof. intros Hzone r r' _ _ _ Hle. by apply Hzone. Qed.

(** Between two rows of one group a sorted frame has rows of that
    group, when the dates are in order. *)
Lemma group_between (tz : zone) (df : list row) (p q r : row) :
  dates_in_order tz df -> p ∈ df -> q ∈ df -> r ∈ df ->
  row_le p q -> row_le q r ->
  same_ticker_and_date tz p r -> same_ticker_and_date tz q r.
Proof.
  intros Hord Hp Hq Hr [Hpq Hspq] [Hqr Hsqr] [Ht Hd].
  rewrite Ht in Hpq.
  assert (ticker q = ticker r) as Hqr' by (by apply (anti_symm String.le)).
  assert (ticker p = ticker q) as Hpq' by congruence.
  specialize (Hspq Hpq'). specialize (Hsqr Hqr').
  split; [done|].
  pose proof (Hord p q Hp Hq Hpq' Hspq). pose proof (Hord q r Hq Hr Hqr' Hsqr). lia.
Qed.

Lemma group_diff_from_lookup (tz : zone) (df : list row) :
  forall earlier j r,
    df !! j = Some r ->
    group_diff_from tz earlier df !! j
    = Some (prev_diff tz (rev (take j df) ++ earlier) r).
Proof.
  induction df as [|r0 df IH]; intros earlier j r Hj; [done|].
  destruct j as [|j]; simpl in *.
  - by injection Hj as ->.
  - rewrite (IH (r0 :: earlier) j r Hj). by rewrite <- app_assoc.
Qed.

Lemma sorted_neighbours (df : list row) (i : nat) (r r' : row) :
  StronglySorted row_le df -> df !! i = Some r -> df !! S i = Some r' ->
  row_le r r' /\ forall p, p ∈ take i df -> row_le p r.
Proof.
  intros Hs Hi Hi'. rewrite <- (take_drop_middle df i r Hi) in Hs.
  split.
  - apply StronglySorted_app_1_r, StronglySorted_cons in Hs as [Hall _].
    rewrite Forall_forall in Hall. apply Hall.
    apply list_elem_of_lookup. exists 0. by rewrite lookup_drop, Nat.add_0_r.
  - intros p Hp. eapply StronglySorted_app_1_elem_of; [exact Hs|exact Hp|].
    apply list_elem_of_here.
Qed.

(** In a sorted frame with its dates in order the previous row of the
    same group is the row just above, when that row is of the same
    group, and the difference is the time elapsed since then. *)
Lemma group_diff_sorted (tz : zone) (df : list row) (i : nat) (r r' : row) :
  StronglySorted row_le df -> dates_in_order tz df ->
  df !! i = Some r -> df !! S i = Some r' ->
  group_diff tz df !! S i
  = Some (if decide (same_ticker_and_date tz r r')
          then Some (time r' - time r)%Z else None).
Proof.
  intros Hs Hord Hi Hi'. unfold group_diff.
  rewrite (group_diff_from_lookup tz df [] (S i) r' Hi'). f_equal.
  rewrite app_nil_r, (take_S_r df i r Hi), rev_app_distr. simpl.
  destruct (sorted_neighbours df i r r' Hs Hi Hi') as [Hrr' Hbefore].
  assert (~ same_ticker_and_date tz r r' ->
          list_find (fun p => group_key tz p = group_key tz r') (rev (take i df)) = None)
    as Hnone.
  { intros Hne. apply list_find_None, Forall_forall. intros p Hp Hkey.
    apply list_elem_of_In, in_rev, list_elem_of_In in Hp.
    apply Hne. apply (group_between tz df p r r'); try done.
    - apply elem_of_take in Hp as (j & Hj & _). by eapply list_elem_of_lookup_2.
    - by eapply list_elem_of_lookup_2.
    - by eapply list_elem_of_lookup_2.
    - by apply Hbefore.
    - by apply group_key_same. }
  unfold prev_diff. cbn [list_find].
  destruct (decide (same_ticker_and_date tz r r')) as [Hsame|Hdiff].
  - apply group_key_same in Hsame. by rewrite decide_True.
  - rewrite decide_False by (by rewrite group_key_same). by rewrite Hnone.
Qed.

Lemma length_group_diff_from (tz : zone) (df : list row) :
  forall earlier, length (group_diff_from tz earlier df) = length df.
Proof.
  induction df as [|r df IH]; intros earlier; simpl; [done|]. by rewrite IH.
Qed.

Lemma shift_up_lookup {A} (col : list (option A)) (i : nat) :
  i < length col ->
  shift_up col !! i = Some (match col !! S i with Some x => x | None => None end).
Proof.
  destruct col as [|c col]; simpl; [lia|]. intros Hi.
  destruct (decide (i < length col)) as [Hlt|Hge].
  - rewrite lookup_app_l by done.
    destruct (lookup_lt_is_Some_2 col i Hlt) as [x ->]. done.
  - assert (i = length col) as -> by lia.
    rewrite list_lookup_middle by done.
    by rewrite lookup_ge_None_2.
Qed.

Lemma length_shift_up {A} (col : list (option A)) : length (shift_up col) = length col.
Proof.
  destruct col as [|c col]; simpl; [done|]. rewrite length_app. simpl. lia.
Qed.

Lemma quote_life_lookup (tz : zone) (df : list row) (i : nat) :
  StronglySorted row_le df -> dates_in_order tz df -> i < length df ->
  quote_life_secs tz df !! i = Some (next_row_life tz df i).
Proof.
  intros Hs Hord Hi. unfold quote_life_secs, next_row_life.
  rewrite list_lookup_fmap, shift_up_lookup
    by (unfold group_diff; by rewrite length_group_diff_from).
  simpl. f_equal.
  destruct (lookup_lt_is_Some_2 df i Hi) as [r Hr]. rewrite Hr.
  destruct (df !! S i) as [r'|] eqn:Hr'.
  - rewrite (group_diff_sorted tz df i r r' Hs Hord Hr Hr').
    case_decide; [|done]. simpl. by rewrite seconds_between_total.
  - rewrite lookup_ge_None_2; [done|].
    unfold group_diff. rewrite length_group_diff_from. by apply lookup_ge_None_1.
Qed.

Lemma adj_lookup (tz : zone) (df : list row) (i : nat) :
  StronglySorted row_le df -> dates_in_order tz df -> i < length df ->
  fillna0 (adj_quote_life_secs tz df) !! i = Some (Some (live_seconds tz df i)).
Proof.
  intros Hs Hord Hi. unfold fillna0, adj_quote_life_secs, live_seconds.
  rewrite list_lookup_fmap, lookup_zip_with, (quote_life_lookup tz df i Hs Hord Hi).
  destruct (lookup_lt_is_Some_2 df i Hi) as [r ->]. simpl.
  by destruct (bid_ask_spread_bps r).
Qed.


(** A column whose cells are all known is the list of its cells. *)
Lemma column_cells (col : column) (n : nat) (f : nat -> Qc) :
  length col = n ->
  (forall i, i < n -> col !! i = Some (Some (f i))) ->
  col = map (fun i => Some (f i)) (seq 0 n).
Proof.
  intros Hlen Hcells. apply list_eq. intros i. rewrite list_lookup_fmap.
  destruct (decide (i < n)) as [Hlt|Hge].
  - rewrite Hcells, lookup_seq_lt by done. done.
  - rewrite lookup_seq_ge by lia. simpl. apply lookup_ge_None_2. lia.
Qed.

Lemma col_sum_cells (f : nat -> Qc) (l : list nat) :
  col_sum (map (fun i => Some (f i)) l) = foldr (fun i acc => (f i + acc)%Qc) 0%Qc l.
Proof.
  unfold col_sum. induction l as [|i l IH]; simpl; [done|]. by rewrite IH.
Qed.


(** The adjusted quote lives of a sorted frame with its dates in order. *)
Lemma adj_column (tz : zone) (df : list row) :
  StronglySorted row_le df -> dates_in_order tz df ->
  fillna0 (adj_quote_life_secs tz df)
  = map (fun i => Some (live_seconds tz df i)) (seq 0 (length df)).
Proof.
  intros Hs Hord. apply column_cells; [|intros i Hi; by apply adj_lookup].
  unfold fillna0, adj_quote_life_secs, quote_life_secs.
  rewrite length_map, length_zip_with, length_map, length_shift_up.
  unfold group_diff. rewrite length_group_diff_from. lia.
Qed.


Lemma col_dot_filled (df : list row) :
  col_dot (fillna0 (map TRADE_SIZE df)) (fillna0 (map TRADE_VALUE df))
  = Some (foldr (fun r acc => (default 0 (TRADE_SIZE r) * default 0 (TRADE_VALUE r) + acc)%Qc)
                0%Qc df).
Proof.
  unfold col_dot, fillna0. induction df as [|r df IH]; simpl; [done|].
  simpl in IH. by rewrite IH.
Qed.

Lemma col_sum_filled (df : list row) :
  col_sum (fillna0 (map TRADE_SIZE df))
  = foldr (fun r acc => (default 0 (TRADE_SIZE r) + acc)%Qc) 0%Qc df.
Proof.
  unfold col_sum, fillna0. induction df as [|r df IH]; simpl; [done|].
  simpl in IH. by rewrite IH.
Qed.

(** The summary statistic is a dot product over a total. *)
Lemma summary_vwap_dot (df : list row) :
  summary_vwap df
  = fdiv (Some (foldr (fun r acc =>
                         (default 0 (TRADE_SIZE r) * default 0 (TRADE_VALUE r) + acc)%Qc)
                      0%Qc df))
         (Some (foldr (fun r acc => (default 0 (TRADE_SIZE r) + acc)%Qc) 0%Qc df)).
Proof.
  unfold summary_vwap. by rewrite col_dot_filled, col_sum_filled.
Qed.

(** C4: on a day with a bid, an ask, a trade of one share at 10 and a
    trade of three shares at 20, in whatever zone the times are read,
    the [vwap] column of the frame holds 30
    in its last row, the product of the running sums of size and value
    over the running sum of size, where the volume-weighted average
    price of the trades seen so far is 35/2; the [vwap] statistic of the
    summary is the dot product of the trade sizes and trade values over
    the total trade size, rows without a trade counting for zero, 35/2
    on these trades. *)
Theorem vwap_column_two_trades (tz_info : zone) :
  (exists vwap, _bbat tz_info two_trades false = Frame vwap /\
                cells vwap = [Some (0 # 1); Some (0 # 1); Some (10 # 1); Some (30 # 1)]) /\
  cells (volume_weighted_column (sort_values two_trades))
  = [Some (0 # 1); Some (0 # 1); Some (10 # 1); Some (35 # 2)] /\
  (exists twas vwap, _bbat tz_info two_trades true = Summary twas vwap /\
                     this <$> vwap = Some (35 # 2)) /\
  (forall df,
     summary_vwap df
     = fdiv (Some (foldr (fun r acc =>
                            (default 0 (TRADE_SIZE r) * default 0 (TRADE_VALUE r) + acc)%Qc)
                         0%Qc df))
            (Some (foldr (fun r acc => (default 0 (TRADE_SIZE r) + acc)%Qc) 0%Qc df))).
Proof.
  split_and!.
  - eexists. split; [reflexivity|]. vm_compute. reflexivity.
  - vm_compute. reflexivity.
  - eexists _, _. split; [reflexivity|]. vm_compute. reflexivity.
  - apply summary_vwap_dot.
Qed.



(** Over the hour in which the clocks go back the quotes stand for an
    hour and a half and for an hour, the time that passes, not the
    difference of the clock readings: (2 * 5400 + 6 * 3600) / 9000. *)
Example twa_spread_over_clock_change :
  exists twas vwap,
    _bbat clocks_go_back quotes_over_clock_change true = Summary twas vwap /\
    this <$> twas = Some (18 # 5).
Proof. eexists _, _. split; [reflexivity|]. vm_compute. reflexivity. Qed.

Example twa_spread_three_quotes :
  this <$> twa_spread_bps utc
    (sort_values
       [quote 4000000000 (Some 8%Z); quote 0 (Some 4%Z); quote 1000000000 None;
        quote (ns_per_day + 5) (Some 100%Z)])
  = Some (4 # 1).
Proof. vm_compute. reflexivity. Qed.

End BbatFacts.

(** ** The number of chunks *)

Module ChunksCountFacts.
Import Chunks.

Lemma range_from_length (fuel start stop step : nat) :
  0 < step -> stop - start <= fuel ->
  stop - start <= length (range_from fuel start stop step) * step < stop - start + step.
Proof.
  intros Hs. revert start. induction fuel as [|fuel IH]; intros start Hf; simpl; [lia|].
  destruct (Nat.ltb_spec start stop) as [Hlt|Hge]; simpl; [|lia].
  specialize (IH (start + step) ltac:(lia)).
  destruct (length (range_from fuel (start + step) stop step)); simpl in *; lia.
Qed.

Lemma cut_into_chunks_ok {P Row} (df : list Row) (chunk_size : nat) :
  0 < chunk_size ->
  _cut_into_chunks_gen (P:=P) df chunk_size
  = Py.Ok (map (fun i => take chunk_size (drop i df))
               (range_from (length df) 0 (length df) chunk_size)).
Proof.
  intros Hc. unfold _cut_into_chunks_gen, py_range.
  destruct (Nat.eqb_spec chunk_size 0) as [?|_]; [lia|]. simpl.
  f_equal. apply map_ext. intros i. apply ChunksFacts.iloc_window.
Qed.

Lemma cut_into_chunks_sizes {P Row} (df : list Row) (chunk_size : nat)
    (chunks : list (list Row)) :
  0 < chunk_size ->
  _cut_into_chunks_gen (P:=P) df chunk_size = Py.Ok chunks ->
  concat chunks = df /\
  Forall (fun chunk => 0 < length chunk <= chunk_size) chunks /\
  length df <= length chunks * chunk_size < length df + chunk_size.
Proof.
  intros Hc. rewrite cut_into_chunks_ok by done. intros [= <-]. split_and!.
  - rewrite ChunksFacts.range_from_concat by lia. apply drop_0.
  - apply Forall_forall. intros chunk Hin.
    apply list_elem_of_fmap in Hin as (i & -> & Hi).
    apply list_elem_of_lookup in Hi as [k Hk].
    apply ChunksFacts.range_from_lookup in Hk as [_ Hlt].
    rewrite length_take, length_drop. lia.
  - rewrite length_map.
    pose proof (range_from_length (length df) 0 (length df) chunk_size Hc). lia.
  - rewrite length_map.
    pose proof (range_from_length (length df) 0 (length df) chunk_size Hc). lia.
Qed.

(** X1: the number of chunks is the frame length divided by the chunk
    size, rounded up, so an empty frame gives no chunk at all; a chunk
    size of zero raises the [ValueError] of [range]. *)
Theorem cut_into_chunks_count {P Row} (df : list Row) (chunk_size : nat) :
  (0 < chunk_size ->
   exists chunks,
     _cut_into_chunks_gen (P:=P) df chunk_size = Py.Ok chunks /\
     length df <= length chunks * chunk_size < length df + chunk_size /\
     (df = [] -> chunks = [])) /\
  _cut_into_chunks_gen (P:=P) df 0
  = Py.Raise (Py.ValueErrorMsg "range() arg 3 must not be zero").
Proof.
  split; [|reflexivity].
  intros Hc. eexists. split; [by apply cut_into_chunks_ok|].
  rewrite length_map.
  pose proof (range_from_length (length df) 0 (length df) chunk_size Hc) as Hlen.
  split; [lia|]. by intros ->.
Qed.

Lemma cut_into_chunks_count_witness :
  0 < 1000 /\
  exists chunks,
    _cut_into_chunks_gen (P:=Empty_set) (replicate 2500 tt) 1000 = Py.Ok chunks /\
    length (replicate 2500 tt) <= length chunks * 1000
      < length (replicate 2500 tt) + 1000 /\
    (replicate 2500 tt = [] -> chunks = []).
Proof.
  split; [lia|].
  apply (proj1 (cut_into_chunks_count (P:=Empty_set) (replicate 2500 tt) 1000)). lia.
Defined.

End ChunksCountFacts.

(** ** Sending the chunks *)

Module UploadPipelineFacts.
Import Upload UploadSpec UploadWords.

Section Session.

Variable vendor : nat -> UploadRequest -> outcome.

Lemma attempt_loop_progress (upload_request : UploadRequest) (n : nat)
    (code0 : option string) (resp0 : option upload_response) (c c' : con)
    (res : Py.result (upload_response * string)
             (option upload_response * option string)) :
  attempt_loop vendor upload_request (S n) code0 resp0 c = (res, c') ->
  code0 <> Some "S_SUCCESS" ->
  sent c <= sent c' <= sent c + S n /\
  (Py.is_ok res = true -> sent c < sent c') /\
  (sent c' = sent c ->
   exists what, vendor (sent c) upload_request = BuildRaises what /\
                res = Py.Raise (Py.VendorError what)).
Proof.
  intros Hrun Hcode. simpl in Hrun.
  destruct (decide (code0 = Some "S_SUCCESS")); [done|].
  destruct (vendor (sent c) upload_request) as [what|what|msgs].
  { injection Hrun as <- <-. simpl. split; [lia|]. split; [done|]. by exists what. }
  { injection Hrun as <- <-. simpl. split; [lia|]. split; [done|]. lia. }
  destruct (last msgs) as [msg|].
  2:{ injection Hrun as <- <-. simpl. split; [lia|]. split; [done|]. lia. }
  destruct (decide (status msg = "S_SUCCESS")) as [Hs|Hs].
  - rewrite Hs, UploadFacts.attempt_loop_done in Hrun. injection Hrun as <- <-. simpl.
    split; [lia|]. split; [lia|]. lia.
  - apply UploadFacts.attempt_loop_spec in Hrun as (Hb & _); [|congruence].
    simpl in Hb. split; [lia|]. split; [lia|]. lia.
Qed.

Lemma attempt_sent_bounds (c c' : con) (upload_request : UploadRequest) (n : nat)
    (res : Py.result (upload_response * string) (upload_response * string)) :
  _attempt_upload_request vendor c upload_request (S n) = (res, c') ->
  sent c <= sent c' <= sent c + S n /\
  (Py.is_ok res = true -> sent c < sent c') /\
  (sent c' = sent c ->
   exists what, vendor (sent c) upload_request = BuildRaises what /\
                res = Py.Raise (Py.VendorError what)).
Proof.
  unfold _attempt_upload_request. intros Hrun.
  destruct (attempt_loop vendor upload_request (S n) None None c) as [lres lc] eqn:Hloop.
  apply attempt_loop_progress in Hloop as (Hb & Hok & Hbuild); [|done].
  assert (lc = c') as ->.
  { destruct lres as [[[r|] [cd|]]|e]; by injection Hrun as _ <-. }
  split; [done|]. split.
  - intros Hres. apply Hok. destruct lres as [[[r|] [cd|]]|e]; by simplify_eq.
  - intros Hsame. destruct (Hbuild Hsame) as (what & Hv & ->).
    exists what. split; [done|]. by injection Hrun as <-.
Qed.

Lemma send_cons (c : con) (r : UploadRequest) (rest : list UploadRequest) :
  _send_upload_requests vendor c (r :: rest)
  = match _attempt_upload_request vendor c r default_num_retries with
    | (Py.Raise e, c') => (Py.Raise e, c')
    | (Py.Ok (result, status), c') =>
        if negb (if decide (status = "S_SUCCESS") then true else false)
           && negb (partial_of result)
        then (Py.Raise (Py.ValueError (result, status)), c')
        else _send_upload_requests vendor c' rest
    end.
Proof. reflexivity. Qed.

Lemma send_app (c : con) (first_part second_part : list UploadRequest) :
  _send_upload_requests vendor c (first_part ++ second_part)
  = match _send_upload_requests vendor c first_part with
    | (Py.Ok _, c1) => _send_upload_requests vendor c1 second_part
    | (Py.Raise e, c1) => (Py.Raise e, c1)
    end.
Proof.
  revert c. induction first_part as [|r rs IH]; intros c; simpl; [done|].
  destruct (_attempt_upload_request vendor c r default_num_retries) as [[[result st]|e] c1];
    [|done].
  destruct (negb _ && negb _); [done|]. apply IH.
Qed.

(** X2: when [_send_upload_requests] raises, some chunk is the first
    to fail: the chunks before it were sent without raising, and the
    error and the state of the connection are the same whatever chunks
    follow it, so no chunk after a failed one is ever sent. *)
Theorem send_upload_requests_fail_fast (c c' : con) (upload_requests : list UploadRequest)
    (e : Py.exn (upload_response * string)) :
  _send_upload_requests vendor c upload_requests = (Py.Raise e, c') ->
  exists n,
    n < length upload_requests /\
    (exists c1, _send_upload_requests vendor c (take n upload_requests) = (Py.Ok tt, c1)) /\
    forall later,
      _send_upload_requests vendor c (take (S n) upload_requests ++ later)
      = (Py.Raise e, c').
Proof.
  revert c. induction upload_requests as [|r rs IH]; intros c; [done|].
  rewrite send_cons.
  destruct (_attempt_upload_request vendor c r default_num_retries)
    as [[[result st]|e1] c1] eqn:Ha.
  - destruct (negb _ && negb _) eqn:Hfail.
    + intros [= <- <-]. exists 0. split; [simpl; lia|]. split; [by exists c|].
      intros later. change (take 1 (r :: rs) ++ later) with (r :: later).
      by rewrite send_cons, Ha, Hfail.
    + intros Hrest. apply IH in Hrest as (n & Hn & [c2 Hbefore] & Hlater).
      exists (S n). split; [simpl; lia|]. split.
      * exists c2. change (take (S n) (r :: rs)) with (r :: take n rs).
        by rewrite send_cons, Ha, Hfail.
      * intros later.
        change (take (S (S n)) (r :: rs) ++ later) with (r :: (take (S n) rs ++ later)).
        rewrite send_cons, Ha, Hfail. apply Hlater.
  - intros [= <- <-]. exists 0. split; [simpl; lia|]. split; [by exists c|].
    intros later. change (take 1 (r :: rs) ++ later) with (r :: later).
    by rewrite send_cons, Ha.
Qed.

(** X3: whatever the session does, [_send_upload_requests] calls
    [sendRequest] at most four times per chunk; when it returns
    normally it has called it at least once for every chunk; and when
    it raises without having called it at all, the request of the first
    chunk could not be built and the error is the one raised while
    building it. *)
Theorem send_upload_requests_bounds (c c' : con) (upload_requests : list UploadRequest)
    (res : Py.result (upload_response * string) unit) :
  _send_upload_requests vendor c upload_requests = (res, c') ->
  sent c <= sent c' <= sent c + 4 * length upload_requests /\
  (Py.is_ok res = true -> sent c + length upload_requests <= sent c') /\
  (Py.is_ok res = false -> sent c' = sent c ->
   exists upload_request what,
     head upload_requests = Some upload_request /\
     vendor (sent c) upload_request = BuildRaises what /\
     res = Py.Raise (Py.VendorError what)).
Proof.
  revert c. induction upload_requests as [|r rs IH]; intros c; simpl.
  - intros [= <- <-]. simpl. split; [lia|]. split; [lia|done].
  - destruct (_attempt_upload_request vendor c r default_num_retries) as [ares c1] eqn:Ha.
    apply attempt_sent_bounds in Ha as (Hb & Hok & Hbuild).
    destruct ares as [[result st]|e].
    + specialize (Hok eq_refl). destruct (negb _ && negb _).
      * intros [= <- <-]. simpl. split; [lia|]. split; [done|]. intros _ Hsame. lia.
      * intros Hrest. apply IH in Hrest as (Hb' & Hok' & Hraise').
        split; [lia|]. split; [intros H; specialize (Hok' H); lia|].
        intros _ Hsame. lia.
    + intros [= <- <-]. simpl. split; [lia|]. split; [done|].
      intros _ Hsame. destruct (Hbuild Hsame) as (what & Hv & Hres).
      exists r, what. split_and!; [done|done|]. by injection Hres as ->.
Qed.

Lemma attempt_loop_rejected (upload_request : UploadRequest) (n : nat) :
  always_partial vendor ->
  forall code0 resp0 c, code0 <> Some "S_SUCCESS" ->
    exists msg,
      attempt_loop vendor upload_request (S n) code0 resp0 c
      = (Py.Ok (Some msg, Some (status msg)), mk_con (sent c + S n)) /\
      status msg <> "S_SUCCESS" /\ partial_of msg = true.
Proof.
  intros Hv. induction n as [|n IH]; intros code0 resp0 c Hcode.
  - simpl. destruct (decide (code0 = Some "S_SUCCESS")); [done|].
    destruct (Hv (sent c) upload_request) as (msgs & msg & -> & -> & Hs & Hp).
    destruct (decide (Some (status msg) = Some "S_SUCCESS")); [congruence|].
    exists msg. split; [|done]. do 2 f_equal. lia.
  - change (attempt_loop vendor upload_request (S (S n)) code0 resp0 c)
      with (if decide (code0 = Some "S_SUCCESS")
            then (Py.Ok (P:=upload_response * string) (resp0, code0), c)
            else match vendor (sent c) upload_request with
                 | BuildRaises what => (Py.Raise (Py.VendorError what), c)
                 | SendRaises what => (Py.Raise (Py.VendorError what), mk_con (S (sent c)))
                 | Events msgs =>
                     match last msgs with
                     | None => (Py.Raise Py.TypeError, mk_con (S (sent c)))
                     | Some msg =>
                         attempt_loop vendor upload_request (S n)
                           (Some (status msg)) (Some msg) (mk_con (S (sent c)))
                     end
                 end).
    destruct (decide (code0 = Some "S_SUCCESS")); [done|].
    destruct (Hv (sent c) upload_request) as (msgs & msg & -> & -> & Hs & Hp).
    destruct (IH (Some (status msg)) (Some msg) (mk_con (S (sent c))))
      as (msg' & -> & Hs' & Hp'); [congruence|].
    exists msg'. split; [|done]. simpl. do 2 f_equal. lia.
Qed.

(** X4: a response that is not a success but whose first notification
    is [WRITE_PARTIALLY_FAILED] is not an error: on a session that
    answers every request that way each chunk is sent four times and
    [_send_upload_requests] returns normally. *)
Theorem partial_failure_accepted (c : con) (upload_requests : list UploadRequest) :
  always_partial vendor ->
  _send_upload_requests vendor c upload_requests
  = (Py.Ok tt, mk_con (sent c + 4 * length upload_requests)).
Proof.
  intros Hv. revert c. induction upload_requests as [|r rs IH]; intros c.
  - simpl. destruct c. simpl. do 2 f_equal. lia.
  - rewrite send_cons. unfold _attempt_upload_request, default_num_retries.
    destruct (attempt_loop_rejected r 3 Hv None None c) as (msg & -> & Hs & Hp); [done|].
    rewrite Hp. destruct (decide (status msg = "S_SUCCESS")); [done|].
    simpl negb. rewrite andb_false_r, IH. simpl. do 2 f_equal. lia.
Qed.

(** X5: the retries cover answered requests only. When the first [j]
    requests of an attempt were answered without success and sending
    the next one raises, the attempt ends there with that error,
    however many retries remain. *)
Theorem send_failure_not_retried (c : con) (upload_request : UploadRequest)
    (num_retries j : nat) (what : string) :
  j < num_retries ->
  (forall k, k < j -> answered_without_success vendor upload_request (sent c + k)) ->
  vendor (sent c + j) upload_request = SendRaises what ->
  _attempt_upload_request vendor c upload_request num_retries
  = (Py.Raise (Py.VendorError what), mk_con (sent c + S j)).
Proof.
  intros Hj Hbefore Hraise. unfold _attempt_upload_request.
  assert (forall n j code0 resp0 c,
            j < n -> code0 <> Some "S_SUCCESS" ->
            (forall k, k < j -> answered_without_success vendor upload_request (sent c + k)) ->
            vendor (sent c + j) upload_request = SendRaises what ->
            attempt_loop vendor upload_request n code0 resp0 c
            = (Py.Raise (Py.VendorError what), mk_con (sent c + S j))) as Hloop.
  { clear. induction n as [|n IH]; intros j code0 resp0 c Hj Hcode Hbefore Hraise; [lia|].
    simpl. destruct (decide (code0 = Some "S_SUCCESS")); [done|].
    destruct j as [|j].
    - rewrite Nat.add_0_r in Hraise. rewrite Hraise. do 2 f_equal. lia.
    - destruct (Hbefore 0 ltac:(lia)) as (msgs & msg & Hv & Hlast & Hs).
      rewrite Nat.add_0_r in Hv. rewrite Hv, Hlast.
      rewrite (IH j); [simpl; do 2 f_equal; lia|lia|congruence| |].
      + intros k Hk. simpl. specialize (Hbefore (S k) ltac:(lia)).
        by replace (S (sent c + k)) with (sent c + S k) by lia.
      + simpl. by replace (S (sent c + j)) with (sent c + S j) by lia. }
  by rewrite (Hloop num_retries j None None c).
Qed.

End Session.

Lemma partial_failure_accepted_witness :
  always_partial partly /\
  _send_upload_requests partly (mk_con 0) [one_request; one_request]
  = (Py.Ok tt, mk_con (sent (mk_con 0) + 4 * length [one_request; one_request])).
Proof.
  assert (always_partial partly) as Hv.
  { intros k r. eexists _, _. split; [reflexivity|]. split; [reflexivity|].
    split; [discriminate|reflexivity]. }
  split; [exact Hv|].
  exact (partial_failure_accepted partly (mk_con 0) [one_request; one_request] Hv).
Defined.

Lemma send_failure_not_retried_witness :
  _attempt_upload_request breaks_at_third (mk_con 0) one_request 4
  = (Py.Raise (Py.VendorError "connection lost"), mk_con (sent (mk_con 0) + 3)).
Proof.
  apply (send_failure_not_retried breaks_at_third (mk_con 0) one_request 4 2).
  - lia.
  - intros k Hk. eexists _, _. simpl.
    destruct k as [|[|k]]; [| |lia]; (split; [reflexivity|]; split; [reflexivity|discriminate]).
  - reflexivity.
Defined.

Lemma send_upload_requests_fail_fast_witness :
  exists n,
    n < length [one_request; one_request] /\
    (exists c1, _send_upload_requests breaks_at_third (mk_con 0)
                  (take n [one_request; one_request]) = (Py.Ok tt, c1)) /\
    forall later,
      _send_upload_requests breaks_at_third (mk_con 0)
        (take (S n) [one_request; one_request] ++ later)
      = (Py.Raise (Py.VendorError "connection lost"), mk_con 3).
Proof.
  apply (send_upload_requests_fail_fast breaks_at_third (mk_con 0) (mk_con 3)
           [one_request; one_request] (Py.VendorError "connection lost")).
  reflexivity.
Defined.

Lemma send_upload_requests_bounds_witness :
  sent (mk_con 0) <= sent (mk_con 3) <= sent (mk_con 0) + 4 * length [one_request] /\
  (Py.is_ok (Py.Ok (P:=upload_response * string) tt) = true ->
   sent (mk_con 0) + length [one_request] <= sent (mk_con 3)) /\
  (Py.is_ok (Py.Ok (P:=upload_response * string) tt) = false ->
   sent (mk_con 3) = sent (mk_con 0) ->
   exists upload_request what,
     head [one_request] = Some upload_request /\
     flaky (sent (mk_con 0)) upload_request = BuildRaises what /\
     Py.Ok (P:=upload_response * string) tt = Py.Raise (Py.VendorError what)).
Proof.
  apply (send_upload_requests_bounds flaky (mk_con 0) (mk_con 3) [one_request] (Py.Ok tt)).
  reflexivity.
Defined.

(** A request that cannot be built: the upload raises and nothing has
    been sent. *)
Example upload_not_built :
  _send_upload_requests (fun _ _ => BuildRaises "schema") (mk_con 0)
    [one_request; one_request]
  = (Py.Raise (Py.VendorError "schema"), mk_con 0).
Proof. reflexivity. Qed.

End UploadPipelineFacts.

(** ** The requests of a field and of a frame *)

Module FrameUploadFacts.
Import Upload UploadWords DfUpload.

Lemma field_requests_chunks (session_id field : string) (df : list upload_row) :
  exists chunks,
    Chunks._cut_into_chunks_gen (P:=Empty_set) df 1000 = Py.Ok chunks /\
    field_requests session_id field df = _make_upload_requests chunks session_id field.
Proof.
  unfold field_requests.
  rewrite (ChunksCountFacts.cut_into_chunks_ok df 1000) by lia. eauto.
Qed.

Section Session.

Variable vendor : nat -> UploadRequest -> outcome.

Lemma run_field_upload_requests (c : con) (session_id field : string)
    (df : list upload_row) :
  _run_field_upload vendor c session_id field df
  = _send_upload_requests vendor c (field_requests session_id field df).
Proof.
  unfold _run_field_upload, field_requests.
  by rewrite !(ChunksCountFacts.cut_into_chunks_ok df 1000) by lia.
Qed.

(** X6: the requests [_run_field_upload] sends carry the frame: their
    tickers, dates and values, put end to end in the order sent, are
    the three columns of the frame; every request holds between one and
    a thousand rows, as many dates and values as tickers, the session
    id and the field name; and there are as many requests as the rows
    divided by a thousand, rounded up. *)
Theorem field_upload_requests_cover (c : con) (session_id field : string)
    (df : list upload_row) :
  exists upload_requests,
    _run_field_upload vendor c session_id field df
    = _send_upload_requests vendor c upload_requests /\
    concat (map ticker upload_requests) = map row_ticker df /\
    concat (map as_of_date upload_requests) = map row_date df /\
    concat (map (fun r => (values_list r).2) upload_requests) = map row_value df /\
    Forall (fun r => sess_id r = session_id /\ (values_list r).1 = field /\
                     0 < length (ticker r) <= 1000 /\
                     length (as_of_date r) = length (ticker r) /\
                     length (values_list r).2 = length (ticker r))
           upload_requests /\
    length df <= length upload_requests * 1000 < length df + 1000.
Proof.
  exists (field_requests session_id field df).
  split; [apply run_field_upload_requests|].
  destruct (field_requests_chunks session_id field df) as (chunks & Hcut & ->).
  apply ChunksCountFacts.cut_into_chunks_sizes in Hcut as (Hcat & Hsizes & Hcount); [|lia].
  unfold _make_upload_requests. rewrite !map_map. simpl.
  split_and!.
  - by rewrite <- concat_map, Hcat.
  - by rewrite <- concat_map, Hcat.
  - by rewrite <- concat_map, Hcat.
  - apply Forall_map. eapply Forall_impl; [exact Hsizes|].
    intros chunk Hlen. simpl. rewrite !length_map. done.
  - rewrite length_map in *. lia.
  - rewrite length_map in *. lia.
Qed.

Lemma field_loop_requests (session_id : string) (df : frame) (fields : list string) :
  forall c,
    field_loop vendor c session_id df fields
    = passed_on (_send_upload_requests vendor c
                   (flat_map (fun f => field_requests session_id f (field_frame df f))
                             fields)).
Proof.
  induction fields as [|f fields IH]; intros c; simpl; [done|].
  rewrite UploadPipelineFacts.send_app, run_field_upload_requests.
  destruct (_send_upload_requests vendor c _) as [[[]|e] c1]; [apply IH|done].
Qed.

(** X7: [_run_df_upload] raises its [Exception], before anything is
    sent, exactly when the frame has no column besides [ticker] and
    [date] or lacks one of these two; otherwise it sends, in column
    order, the requests of every other column built from the rows whose
    cell in that column is not [NaN], as one run of
    [_send_upload_requests] would: the first failing chunk ends the
    whole upload. *)
Theorem run_df_upload_fields (c : con) (session_id : string) (df : frame) :
  (forall f, f ∈ fields_of (columns df)
             <-> f ∈ columns df /\ f <> "ticker" /\ f <> "date") /\
  (fields_of (columns df) = [] \/ "ticker" ∉ columns df \/ "date" ∉ columns df ->
   _run_df_upload vendor c session_id df = (Some (Exception (columns df)), c)) /\
  (fields_of (columns df) <> [] -> "ticker" ∈ columns df -> "date" ∈ columns df ->
   _run_df_upload vendor c session_id df
   = passed_on (_send_upload_requests vendor c
                  (flat_map (fun f => field_requests session_id f (field_frame df f))
                            (fields_of (columns df))))).
Proof.
  split_and!.
  - intros f. unfold fields_of. rewrite list_elem_of_filter.
    rewrite !not_elem_of_cons. pose proof (not_elem_of_nil f). tauto.
  - intros Hbad. unfold _run_df_upload.
    destruct Hbad as [Hnone|[Ht|Hd]].
    + by rewrite Hnone.
    + rewrite (bool_decide_eq_false_2 _ Ht). simpl. by rewrite orb_true_r.
    + rewrite (bool_decide_eq_false_2 _ Hd). simpl. by rewrite !orb_true_r.
  - intros Hsome Ht Hd. unfold _run_df_upload.
    rewrite (bool_decide_eq_true_2 _ Ht), (bool_decide_eq_true_2 _ Hd).
    destruct (fields_of (columns df)) as [|f fs] eqn:Hf; [done|].
    simpl "<?". simpl negb. simpl orb. rewrite <- Hf. apply field_loop_requests.
Qed.

(** X8: the rows uploaded for a column are the rows of the frame whose
    cell is not [NaN], in order; a column that holds nothing but [NaN]
    gives no request, so nothing is sent for it. *)
Theorem field_frame_skips_nan (session_id field : string) (df : frame) :
  length (df_ticker df) = length (df_field df field) ->
  length (df_date df) = length (df_field df field) ->
  map row_value (field_frame df field) = omap id (df_field df field) /\
  (forall i t d v, df_ticker df !! i = Some t -> df_date df !! i = Some d ->
                   df_field df field !! i = Some (Some v) ->
                   mk_upload_row t d v ∈ field_frame df field) /\
  (Forall (fun cell => cell = None) (df_field df field) ->
   field_requests session_id field (field_frame df field) = []).
Proof.
  intros Hlt Hld. unfold field_frame.
  set (tickers := df_ticker df) in *. set (dates := df_date df) in *.
  set (cells := df_field df field) in *. clearbody tickers dates cells.
  split_and!.
  - revert tickers dates Hlt Hld.
    induction cells as [|cell cells IH]; intros [|t ts] [|d ds] Hlt Hld; simpl in *;
      try done.
    destruct cell as [v|]; simpl; [f_equal|]; apply IH; lia.
  - intros i t d v Ht Hd Hv. apply list_elem_of_omap.
    exists ((t, d), Some v). split; [|done].
    apply list_elem_of_lookup. exists i.
    rewrite !lookup_zip_with, Ht. simpl. rewrite Hd. simpl. by rewrite Hv.
  - intros Hnan.
    assert (omap (fun r : string * string * option string =>
                    mk_upload_row r.1.1 r.1.2 <$> r.2)
                 (zip (zip tickers dates) cells) = []) as ->; [|done].
    clear Hlt Hld. revert tickers dates.
    induction Hnan as [|cell cells -> _ IH]; intros [|t ts] [|d ds]; simpl; done.
Qed.

End Session.

Lemma field_frame_skips_nan_witness :
  map row_value (field_frame small_frame "PX") = omap id (df_field small_frame "PX") /\
  field_requests "sess" "VOL" (field_frame small_frame "VOL") = [].
Proof.
  pose proof (field_frame_skips_nan "sess" "PX" small_frame eq_refl eq_refl) as (H1 & _).
  pose proof (field_frame_skips_nan "sess" "VOL" small_frame eq_refl eq_refl) as (_ & _ & H3).
  split; [exact H1|]. apply H3. repeat constructor.
Defined.

End FrameUploadFacts.

(** ** The event loop *)

Module EventsFacts.
Import Events EventsWords.

Section Messages.

Context {M : Type}.
Implicit Types (ev : event M) (evs rest session : list (event M)).

Lemma turn_response ev (sent_events : Z) :
  eventType ev = RESPONSE ->
  turn ev sent_events
  = (messages ev, if decide ((sent_events - 1)%Z = 0%Z) then inr StopIteration
                  else inl (sent_events - 1)%Z).
Proof.
  intros Ht. unfold turn. rewrite Ht. simpl.
  by destruct (decide ((sent_events - 1)%Z = 0%Z)).
Qed.

Lemma turn_partial ev (sent_events : Z) :
  eventType ev = PARTIAL_RESPONSE -> turn ev sent_events = (messages ev, inl sent_events).
Proof. intros Ht. unfold turn. by rewrite Ht. Qed.

Lemma turn_other ev (sent_events : Z) :
  ~ answering ev -> turn ev sent_events = ([], inr (Raised (failure_of ev))).
Proof.
  unfold answering, turn, failure_of. intros Hna.
  destruct (eventType ev); simpl; try done; tauto.
Qed.

Lemma responses_cons ev evs :
  responses (ev :: evs)
  = (if decide (eventType ev = RESPONSE) then 1 else 0) + responses evs.
Proof.
  unfold responses. rewrite filter_cons. by destruct (decide (eventType ev = RESPONSE)).
Qed.

(** The loop goes through answering events as long as the counter
    does not reach zero. *)
Lemma receive_prefix evs :
  forall rest (sent_events : Z),
    Forall answering evs -> outstanding evs sent_events ->
    _receive_events (evs ++ rest) sent_events
    = let '(more, e, behind) :=
        _receive_events rest (sent_events - Z.of_nat (responses evs)) in
      (messages_of evs ++ more, e, behind).
Proof.
  unfold outstanding.
  induction evs as [|ev evs IH]; intros rest n Hans Hout.
  - simpl. rewrite Z.sub_0_r. by destruct (_receive_events rest n) as [[more e] behind].
  - inversion Hans as [|? ? Hev Hevs]; subst.
    rewrite responses_cons in *. simpl app. simpl _receive_events.
    destruct Hev as [Hr|Hp].
    + rewrite turn_response by done.
      destruct (decide (eventType ev = RESPONSE)) as [_|]; [|done].
      destruct (decide ((n - 1)%Z = 0%Z)) as [|_]; [lia|].
      rewrite IH by (done || lia).
      replace (n - 1 - Z.of_nat (responses evs))%Z
        with (n - Z.of_nat (1 + responses evs))%Z by lia.
      destruct (_receive_events rest _) as [[more e] behind].
      unfold messages_of. simpl. by rewrite app_assoc.
    + rewrite turn_partial by done.
      destruct (decide (eventType ev = RESPONSE)) as [|_]; [congruence|].
      rewrite IH by (done || (simpl in Hout; lia)).
      simpl. destruct (_receive_events rest _) as [[more e] behind].
      unfold messages_of. simpl. by rewrite app_assoc.
Qed.

(** X9: the loop returns right after the [RESPONSE] event that
    brings the counter to zero: when the events before it all carry
    answers and hold one [RESPONSE] event less than requests were sent,
    the messages of all these events are yielded in order and the
    events behind are left in the session. *)
Theorem receive_events_completes evs ev rest (sent_events : Z) :
  Forall answering evs -> eventType ev = RESPONSE ->
  (Z.of_nat (responses evs) + 1 = sent_events)%Z ->
  _receive_events (evs ++ ev :: rest) sent_events
  = (messages_of (evs ++ [ev]), StopIteration, rest).
Proof.
  intros Hans Hev Hn. rewrite receive_prefix; [|done|unfold outstanding; lia].
  simpl. rewrite turn_response by done.
  destruct (decide _) as [_|Hne]; [|lia].
  unfold messages_of. by rewrite !flat_map_app; simpl; rewrite app_nil_r.
Qed.

(** X10: as long as the counter has not reached zero, an event that
    carries no answer ends the loop with an error after the messages
    before it: [KeyError] for a type the table does not list, the
    timeout [RuntimeError] for [TIMEOUT], the unexpected-event
    [RuntimeError] otherwise; and a session that runs dry ends it with
    the timeout error. *)
Theorem receive_events_fails evs (sent_events : Z) :
  Forall answering evs -> outstanding evs sent_events ->
  _receive_events evs sent_events
  = (messages_of evs, Raised (RuntimeError "Timeout, increase BCon.timeout attribute"), [])
  /\
  forall ev rest, ~ answering ev ->
    _receive_events (evs ++ ev :: rest) sent_events
    = (messages_of evs, Raised (failure_of ev), rest).
Proof.
  intros Hans Hout. split.
  - rewrite <- (app_nil_r evs) at 1. rewrite receive_prefix by done.
    simpl. by rewrite app_nil_r.
  - intros ev rest Hna. rewrite receive_prefix by done.
    simpl. rewrite turn_other by done. by rewrite app_nil_r.
Qed.

(** X11: the loop returns normally only in that way: the session
    then starts with answering events of which the last is the
    [RESPONSE] that completes the count, and a counter that starts at
    zero or below never lets it return. *)
Theorem receive_events_returns session (sent_events : Z) (msgs : list M) rest :
  _receive_events session sent_events = (msgs, StopIteration, rest) ->
  (0 < sent_events)%Z /\
  exists evs ev,
    session = evs ++ ev :: rest /\ Forall answering evs /\
    eventType ev = RESPONSE /\
    (Z.of_nat (responses evs) + 1 = sent_events)%Z /\
    msgs = messages_of (evs ++ [ev]).
Proof.
  revert sent_events msgs. induction session as [|ev0 session IH]; intros n msgs; [done|].
  simpl. destruct (decide (answering ev0)) as [[Hr|Hp]|Hna].
  - rewrite turn_response by done.
    destruct (decide ((n - 1)%Z = 0%Z)) as [Hz|Hnz].
    + intros [= <- <-]. split; [lia|]. exists [], ev0.
      split_and!; try done.
      * unfold responses. simpl. lia.
      * unfold messages_of. simpl. by rewrite app_nil_r.
    + destruct (_receive_events session (n - 1)) as [[more e] behind] eqn:Hrec.
      intros [= <- -> ->]. apply IH in Hrec as (Hpos & evs & ev & -> & Hans & Hev & Hn & ->).
      split; [lia|]. exists (ev0 :: evs), ev.
      split_and!; try done.
      * constructor; [by left|done].
      * rewrite responses_cons. destruct (decide (eventType ev0 = RESPONSE)); [lia|done].
  - rewrite turn_partial by done.
    destruct (_receive_events session n) as [[more e] behind] eqn:Hrec.
    intros [= <- -> ->]. apply IH in Hrec as (Hpos & evs & ev & -> & Hans & Hev & Hn & ->).
    split; [lia|]. exists (ev0 :: evs), ev.
    split_and!; try done.
    * constructor; [by right|done].
    * rewrite responses_cons. destruct (decide (eventType ev0 = RESPONSE)); [congruence|done].
  - by rewrite turn_other.
Qed.

End Messages.

Lemma receive_events_completes_witness :
  _receive_events (take 2 two_answers ++ mk_event RESPONSE ["b1"] :: drop 3 two_answers) 2
  = (messages_of (take 2 two_answers ++ [mk_event RESPONSE ["b1"]]), StopIteration,
     drop 3 two_answers).
Proof.
  apply (receive_events_completes (take 2 two_answers) (mk_event RESPONSE ["b1"])
           (drop 3 two_answers) 2).
  - constructor; [by right|]. constructor; [by left|]. constructor.
  - reflexivity.
  - reflexivity.
Defined.

Lemma receive_events_fails_witness :
  _receive_events (take 3 two_answers) 3
  = (messages_of (take 3 two_answers),
     Raised (RuntimeError "Timeout, increase BCon.timeout attribute"), [])
  /\
  forall ev rest, ~ answering ev ->
    _receive_events (take 3 two_answers ++ ev :: rest) 3
    = (messages_of (take 3 two_answers), Raised (failure_of ev), rest).
Proof.
  apply (receive_events_fails (take 3 two_answers) 3).
  - constructor; [by right|]. constructor; [by left|]. constructor; [by left|]. constructor.
  - right. vm_compute. reflexivity.
Defined.

Lemma receive_events_returns_witness :
  (0 < 2)%Z /\
  exists evs ev,
    two_answers = evs ++ ev :: drop 3 two_answers /\ Forall answering evs /\
    eventType ev = RESPONSE /\
    (Z.of_nat (responses evs) + 1 = 2)%Z /\
    ["a1"; "a2"; "a3"; "b1"] = messages_of (evs ++ [ev]).
Proof.
  apply (receive_events_returns two_answers 2 ["a1"; "a2"; "a3"; "b1"] (drop 3 two_answers)).
  reflexivity.
Defined.

End EventsFacts.

(** ** Loops that append or raise *)

Module LoopFacts.
Import Py.

(** A loop whose turns either append rows or raise, whatever the
    accumulator: it appends the rows of every turn when all turns are
    good, and raises an error of the same kind when one is not. *)
Lemma for_each_dichotomy {P A B} (body : list B -> A -> result P (list B))
    (f : A -> list B) (good : A -> Prop) (kind : exn P -> Prop) (xs : list A) :
  (forall x, x ∈ xs ->
     (good x /\ forall acc, body acc x = Ok (acc ++ f x)) \/
     (~ good x /\ forall acc, exists e, body acc x = Raise e /\ kind e)) ->
  forall acc,
    (Forall good xs /\ for_each body xs acc = Ok (acc ++ flat_map f xs)) \/
    (~ Forall good xs /\ exists e, for_each body xs acc = Raise e /\ kind e).
Proof.
  induction xs as [|x xs IH]; intros Hbody acc; simpl.
  - left. split; [constructor|by rewrite app_nil_r].
  - destruct (Hbody x (list_elem_of_here _ _)) as [[Hg Hok]|[Hb Hraise]].
    + rewrite Hok. simpl.
      destruct (IH (fun y Hy => Hbody y (list_elem_of_further _ _ _ Hy)) (acc ++ f x))
        as [[Hall ->]|[Hnot (e & -> & He)]].
      * left. split; [by constructor|by rewrite <- app_assoc].
      * right. split; [|eauto]. intros Hall. apply Hnot. by inversion Hall.
    + destruct (Hraise acc) as (e & -> & He). right.
      split; [|eauto]. intros Hall. apply Hb. by inversion Hall.
Qed.

End LoopFacts.

(** ** The parsers are all or nothing *)

Module ParseFacts.
Import Ref RefSpec ParseWords.

Section Parse.

Context {P : Type}.

Lemma ref_field_dichotomy (secData : securityData) (corrId : list Z) (fld : string) :
  (not_bulk secData fld /\
   forall acc, ref_field (P:=P) secData corrId acc fld
               = Py.Ok (acc ++ [mk_ref_datum (security secData) fld
                                  (ref_value secData fld) corrId])) \/
  (~ not_bulk secData fld /\
   forall acc, exists e, ref_field (P:=P) secData corrId acc fld = Py.Raise e /\
                         is_value_error e).
Proof.
  unfold not_bulk, ref_field, ref_value.
  destruct (fieldData secData !! fld) as [[v|els]|]; [left|right|left]; try done.
  split; [intros H; by apply (H els)|]. intros acc. eexists. split; [done|]. by eexists.
Qed.

Lemma ref_security_dichotomy (flds : list string) (corrId : list Z)
    (secData : securityData) :
  (clean_ref flds secData /\
   forall acc, ref_security (P:=P) flds corrId acc secData
               = Py.Ok (acc ++ ref_rows flds corrId secData)) \/
  (~ clean_ref flds secData /\
   forall acc, exists e, ref_security (P:=P) flds corrId acc secData = Py.Raise e /\
                         is_value_error e).
Proof.
  unfold clean_ref, ref_security.
  destruct (RefFacts.check_result (P:=P) (fieldExceptions secData)) as [Hok|[msg Hmsg]].
  - rewrite Hok. simpl.
    pose proof (proj1 (RefFacts.check_ok_iff (P:=P) _) Hok) as Hfe.
    rewrite Forall_forall in Hfe.
    destruct (LoopFacts.for_each_dichotomy (ref_field (P:=P) secData corrId)
                (fun fld => [mk_ref_datum (security secData) fld
                               (ref_value secData fld) corrId])
                (not_bulk secData) is_value_error flds
                (fun fld _ => ref_field_dichotomy secData corrId fld) [])
      as [[Hall _]|[Hnot _]].
    + left. split; [done|]. intros acc. by apply RefFacts.ref_fields_ok.
    + right. split; [tauto|]. intros acc.
      destruct (LoopFacts.for_each_dichotomy (ref_field (P:=P) secData corrId)
                  (fun fld => [mk_ref_datum (security secData) fld
                                 (ref_value secData fld) corrId])
                  (not_bulk secData) is_value_error flds
                  (fun fld _ => ref_field_dichotomy secData corrId fld) acc)
        as [[Hall _]|[_ He]]; [done|exact He].
  - right. split.
    + intros [Hfe _].
      assert (_check_fieldExceptions (P:=P) (fieldExceptions secData) = Py.Ok tt) as Hok.
      { apply RefFacts.check_ok_iff, Forall_forall. exact Hfe. }
      congruence.
    + intros acc. rewrite Hmsg. simpl. eexists. split; [done|]. by eexists.
Qed.

Lemma parse_ref_dichotomy (events : list message) (flds : list string)
    (keep_corrId : bool) :
  (all_clean (clean_ref flds) events /\
   _parse_ref (P:=P) events flds keep_corrId
   = Py.Ok (flat_map (fun msg =>
              flat_map (ref_rows flds (corrId_of keep_corrId msg))
                       (ReferenceDataResponse msg))
            events)) \/
  (~ all_clean (clean_ref flds) events /\
   exists e, _parse_ref (P:=P) events flds keep_corrId = Py.Raise e /\ is_value_error e).
Proof.
  unfold _parse_ref, all_clean.
  apply (LoopFacts.for_each_dichotomy (ref_message (P:=P) flds keep_corrId)
           (fun msg => flat_map (ref_rows flds (corrId_of keep_corrId msg))
                                (ReferenceDataResponse msg))
           (fun msg => Forall (clean_ref flds) (ReferenceDataResponse msg))
           is_value_error events).
  intros msg _. unfold ref_message.
  destruct (LoopFacts.for_each_dichotomy
              (ref_security (P:=P) flds (corrId_of keep_corrId msg))
              (ref_rows flds (corrId_of keep_corrId msg)) (clean_ref flds) is_value_error
              (ReferenceDataResponse msg)
              (fun s _ => ref_security_dichotomy flds (corrId_of keep_corrId msg) s) [])
    as [[Hall _]|[Hnot _]].
  - left. split; [done|]. intros acc.
    apply PyFacts.for_each_appends. intros s Hs acc'.
    apply RefFacts.ref_security_ok. rewrite Forall_forall in Hall. by apply Hall.
  - right. split; [done|]. intros acc.
    destruct (LoopFacts.for_each_dichotomy
                (ref_security (P:=P) flds (corrId_of keep_corrId msg))
                (ref_rows flds (corrId_of keep_corrId msg)) (clean_ref flds) is_value_error
                (ReferenceDataResponse msg)
                (fun s _ => ref_security_dichotomy flds (corrId_of keep_corrId msg) s) acc)
      as [[Hall _]|[_ He]]; [done|exact He].
Qed.

Lemma length_ref_rows_stream (flds : list string) (corr : message -> list Z)
    (events : list message) :
  length (flat_map (fun msg => flat_map (ref_rows flds (corr msg))
                                        (ReferenceDataResponse msg)) events)
  = length (securities_of events) * length flds.
Proof.
  unfold securities_of. induction events as [|msg events IH]; simpl; [done|].
  rewrite !length_app, IH, Nat.mul_add_distr_r. f_equal.
  induction (ReferenceDataResponse msg) as [|s ss IHs]; simpl; [done|].
  rewrite length_app, IHs. unfold ref_rows. by rewrite length_map.
Qed.

(** A loop over the generator is the loop over the messages the
    generator yields, ended by the first error of the body or else as
    the generator ends. *)
Lemma for_events_run {M S} (body : S -> M -> Py.result P S)
    (session : list (Events.event M)) :
  forall sent_events acc,
    BCon.for_events body session sent_events acc
    = match Py.for_each body (yielded session sent_events) acc with
      | Py.Raise e => BCon.Raises (BCon.InBody e)
      | Py.Ok acc' =>
          match ending_of session sent_events with
          | Events.StopIteration => BCon.Returns acc'
          | Events.Raised e => BCon.Raises (BCon.InGenerator e)
          end
      end.
Proof.
  unfold yielded, ending_of.
  induction session as [|ev session IH]; intros sent_events acc; simpl; [done|].
  destruct (Events.turn ev sent_events) as [msgs [n|e]].
  - specialize (IH n).
    destruct (Events._receive_events session n) as [[more e] rest]. simpl in *.
    rewrite PyFacts.for_each_app.
    destruct (Py.for_each body msgs acc) as [acc'|e']; simpl; [apply IH|done].
  - simpl. destruct (Py.for_each body msgs acc) as [acc'|e']; [|done]. by destruct e.
Qed.

(** X12: [_parse_ref] reading a session is all or nothing. It returns
    exactly when the generator returns and no security of a message it
    has yielded has an [INVALID_FIELD] exception or bulk data under a
    requested field, and then with one row per security and requested
    field. A security of that kind among the messages makes it raise a
    [ValueError], whatever the generator does afterwards, and the rows
    of all other securities are lost with it. Otherwise it raises what
    the generator raises: the [RuntimeError] of a timeout or of an
    event that is not expected, or the [KeyError] of an event type that
    is not known. *)
Theorem parse_ref_all_or_nothing (session : list (Events.event message))
    (flds : list string) (keep_corrId : bool) (sent_events : Z) :
  let msgs := yielded session sent_events in
  let run := BCon._parse_ref (P:=P) session flds keep_corrId sent_events in
  (forall data, run = BCon.Returns data ->
     ending_of session sent_events = Events.StopIteration /\
     all_clean (clean_ref flds) msgs /\
     length data = length (securities_of msgs) * length flds) /\
  (ending_of session sent_events = Events.StopIteration ->
   all_clean (clean_ref flds) msgs -> exists data, run = BCon.Returns data) /\
  (~ all_clean (clean_ref flds) msgs <->
   exists msg, run = BCon.Raises (BCon.InBody (Py.ValueErrorMsg msg))) /\
  (forall e, run = BCon.Raises (BCon.InBody e) -> exists msg, e = Py.ValueErrorMsg msg) /\
  (forall e, run = BCon.Raises (BCon.InGenerator e) <->
     all_clean (clean_ref flds) msgs /\ ending_of session sent_events = Events.Raised e).
Proof.
  intros msgs run. unfold run, BCon._parse_ref. rewrite for_events_run. fold msgs.
  change (Py.for_each (ref_message flds keep_corrId) msgs [])
    with (_parse_ref (P:=P) msgs flds keep_corrId).
  destruct (parse_ref_dichotomy msgs flds keep_corrId)
    as [[Hall ->]|[Hnot (e & -> & [msg ->])]].
  - destruct (ending_of session sent_events) as [|e]; split_and!.
    + intros data [= <-]. split; [done|]. split; [done|]. apply length_ref_rows_stream.
    + intros _ _. by eexists.
    + split; [done|]. by intros [msg ?].
    + done.
    + intros e. split; [done|]. by intros [_ ?].
    + done.
    + done.
    + split; [done|]. by intros [msg ?].
    + done.
    + intros e'. split; [by intros [= ->]|]. by intros [_ [= ->]].
  - split_and!; try done.
    + split; [intros _; by exists msg|done].
    + intros e [= <-]. by exists msg.
    + intros e. split; [done|]. by intros [? _].
Qed.

Lemma bulkref_field_dichotomy (secData : securityData) (corrId : list Z) (fld : string) :
  (not_single secData fld /\
   forall acc, bulkref_field (P:=P) secData corrId acc fld
               = Py.Ok (acc ++ bulk_rows secData corrId fld)) \/
  (~ not_single secData fld /\
   forall acc, exists e, bulkref_field (P:=P) secData corrId acc fld = Py.Raise e /\
                         is_value_error e).
Proof.
  unfold not_single, bulkref_field, bulk_rows.
  destruct (fieldData secData !! fld) as [[v|els]|]; [right|left|left]; try done.
  split; [intros H; by apply (H v)|]. intros acc. eexists. split; [done|]. by eexists.
Qed.

Lemma bulkref_security_dichotomy (flds : list string) (corrId : list Z)
    (secData : securityData) :
  (clean_bulk flds secData /\
   forall acc, bulkref_security (P:=P) flds corrId acc secData
               = Py.Ok (acc ++ flat_map (bulk_rows secData corrId) flds)) \/
  (~ clean_bulk flds secData /\
   forall acc, exists e, bulkref_security (P:=P) flds corrId acc secData = Py.Raise e /\
                         is_value_error e).
Proof.
  unfold clean_bulk, bulkref_security.
  destruct (RefFacts.check_result (P:=P) (fieldExceptions secData)) as [Hok|[msg Hmsg]].
  - rewrite Hok. simpl.
    pose proof (proj1 (RefFacts.check_ok_iff (P:=P) _) Hok) as Hfe.
    rewrite Forall_forall in Hfe.
    destruct (LoopFacts.for_each_dichotomy (bulkref_field (P:=P) secData corrId)
                (bulk_rows secData corrId) (not_single secData) is_value_error flds
                (fun fld _ => bulkref_field_dichotomy secData corrId fld) [])
      as [[Hall _]|[Hnot _]].
    + left. split; [done|]. intros acc. by apply RefFacts.bulkref_fields_ok.
    + right. split; [tauto|]. intros acc.
      destruct (LoopFacts.for_each_dichotomy (bulkref_field (P:=P) secData corrId)
                  (bulk_rows secData corrId) (not_single secData) is_value_error flds
                  (fun fld _ => bulkref_field_dichotomy secData corrId fld) acc)
        as [[Hall _]|[_ He]]; [done|exact He].
  - right. split.
    + intros [Hfe _].
      assert (_check_fieldExceptions (P:=P) (fieldExceptions secData) = Py.Ok tt) as Hok.
      { apply RefFacts.check_ok_iff, Forall_forall. exact Hfe. }
      congruence.
    + intros acc. rewrite Hmsg. simpl. eexists. split; [done|]. by eexists.
Qed.

Lemma parse_bulkref_dichotomy (events : list message) (flds : list string)
    (keep_corrId : bool) :
  (all_clean (clean_bulk flds) events /\
   exists data, _parse_bulkref (P:=P) events flds keep_corrId = Py.Ok data) \/
  (~ all_clean (clean_bulk flds) events /\
   exists e, _parse_bulkref (P:=P) events flds keep_corrId = Py.Raise e /\
             is_value_error e).
Proof.
  unfold _parse_bulkref, all_clean.
  destruct (LoopFacts.for_each_dichotomy (bulkref_message (P:=P) flds keep_corrId)
           (fun msg => flat_map (fun s => flat_map (bulk_rows s (corrId_of keep_corrId msg)) flds)
                                (ReferenceDataResponse msg))
           (fun msg => Forall (clean_bulk flds) (ReferenceDataResponse msg))
           is_value_error events) with (acc := @nil bulk_datum)
    as [[Hall ->]|[Hnot (e & -> & He)]].
  - intros msg _. unfold bulkref_message.
    destruct (LoopFacts.for_each_dichotomy
                (bulkref_security (P:=P) flds (corrId_of keep_corrId msg))
                (fun s => flat_map (bulk_rows s (corrId_of keep_corrId msg)) flds)
                (clean_bulk flds) is_value_error
                (ReferenceDataResponse msg)
                (fun s _ => bulkref_security_dichotomy flds (corrId_of keep_corrId msg) s) [])
      as [[Hall _]|[Hnot _]].
    + left. split; [done|]. intros acc.
      apply PyFacts.for_each_appends. intros s Hs acc'.
      apply RefFacts.bulkref_security_ok. rewrite Forall_forall in Hall. by apply Hall.
    + right. split; [done|]. intros acc.
      destruct (LoopFacts.for_each_dichotomy
                  (bulkref_security (P:=P) flds (corrId_of keep_corrId msg))
                  (fun s => flat_map (bulk_rows s (corrId_of keep_corrId msg)) flds)
                  (clean_bulk flds) is_value_error
                  (ReferenceDataResponse msg)
                  (fun s _ => bulkref_security_dichotomy flds (corrId_of keep_corrId msg) s) acc)
        as [[Hall _]|[_ He]]; [done|exact He].
  - left. split; [done|]. by eexists.
  - right. split; [done|]. by exists e.
Qed.

(** X13: [_parse_bulkref] reading a session is all or nothing in the
    same way: it returns exactly when the generator returns and no
    security of a message it has yielded has an [INVALID_FIELD]
    exception or a single value under a requested field; a security of
    that kind makes it raise a [ValueError]; and otherwise it raises
    what the generator raises. *)
Theorem parse_bulkref_all_or_nothing (session : list (Events.event message))
    (flds : list string) (keep_corrId : bool) (sent_events : Z) :
  let msgs := yielded session sent_events in
  let run := BCon._parse_bulkref (P:=P) session flds keep_corrId sent_events in
  ((exists data, run = BCon.Returns data) <->
   ending_of session sent_events = Events.StopIteration /\
   all_clean (clean_bulk flds) msgs) /\
  (~ all_clean (clean_bulk flds) msgs <->
   exists msg, run = BCon.Raises (BCon.InBody (Py.ValueErrorMsg msg))) /\
  (forall e, run = BCon.Raises (BCon.InBody e) -> exists msg, e = Py.ValueErrorMsg msg) /\
  (forall e, run = BCon.Raises (BCon.InGenerator e) <->
     all_clean (clean_bulk flds) msgs /\ ending_of session sent_events = Events.Raised e).
Proof.
  intros msgs run. unfold run, BCon._parse_bulkref. rewrite for_events_run. fold msgs.
  change (Py.for_each (bulkref_message flds keep_corrId) msgs [])
    with (_parse_bulkref (P:=P) msgs flds keep_corrId).
  destruct (parse_bulkref_dichotomy msgs flds keep_corrId)
    as [[Hall [data ->]]|[Hnot (e & -> & [msg ->])]].
  - destruct (ending_of session sent_events) as [|e]; split_and!.
    + split; [done|]. intros _. by eexists.
    + split; [done|]. by intros [msg ?].
    + done.
    + intros e. split; [done|]. by intros [_ ?].
    + split; [by intros [? ?]|]. by intros [? _].
    + split; [done|]. by intros [msg ?].
    + done.
    + intros e'. split; [by intros [= ->]|]. by intros [_ [= ->]].
  - split_and!.
    + split; [by intros [? ?]|]. by intros [_ ?].
    + split; [intros _; by exists msg|done].
    + intros e [= <-]. by exists msg.
    + intros e. split; [done|]. by intros [? _].
Qed.

End Parse.

(** The name of the field stands in the message as [repr] writes it. *)
Example parse_ref_bulk_field_message :
  _parse_ref (P:=Empty_set)
    [mk_message [] [mk_securityData "SPX Index" None []
                      {[ "INDX_MEMBERS" := Bulk [] ]}]]
    ["INDX_MEMBERS"] false
  = Py.Raise (Py.ValueErrorMsg
      "Field 'INDX_MEMBERS' returns bulk reference data which is not supported").
Proof. vm_compute. reflexivity. Qed.

(** A field that is not valid in the second event: the rows of the
    first event are lost and the error is the [ValueError]. *)
Example parse_ref_invalid_field_in_session :
  BCon._parse_ref (P:=Empty_set) answer_with_invalid_field ["PX_LAST"] false 1
  = BCon.Raises (BCon.InBody (Py.ValueErrorMsg "PX_LST: INVALID_FIELD")).
Proof. vm_compute. reflexivity. Qed.

(** A timeout after a partial answer: the error is the generator's. *)
Example parse_ref_timeout_in_session :
  BCon._parse_ref (P:=Empty_set) answer_then_timeout ["PX_LAST"] false 1
  = BCon.Raises (BCon.InGenerator
      (Events.RuntimeError "Timeout, increase BCon.timeout attribute")).
Proof. vm_compute. reflexivity. Qed.

End ParseFacts.

(** ** The rows of the historical-data path *)

Module HistRowsFacts.
Import Hist HistSpec ParseWords.

Lemma hist_fd_rows (ticker : string) (fd : list (string * Ref.scalar)) (date : Ref.scalar) :
  dict_get fd "date" = Py.Ok date ->
  forall data, hist_fd ticker data fd = Py.Ok (data ++ rows_of_fd ticker fd).
Proof.
  intros Hdate data. unfold hist_fd, rows_of_fd. rewrite Hdate.
  rewrite (PyFacts.for_each_appends (hist_item ticker fd)
             (fun item => if decide (item.1 = "date") then []
                          else [(date, ticker, item.1, item.2)])).
  - do 2 f_equal. induction fd as [|item items IH] in |- *; simpl; [done|].
    rewrite filter_cons. destruct (decide (item.1 = "date")); simpl.
    + by destruct (decide (item.1 <> "date")).
    + destruct (decide (item.1 <> "date")); [|done]. simpl. by f_equal.
  - intros item _ acc. unfold hist_item.
    destruct (decide (item.1 = "date")); [by rewrite app_nil_r|].
    by rewrite Hdate.
Qed.

Lemma hist_message_rows_of (d : HistoricalDataResponse) (data : list hist_row) :
  well_formed d -> hist_message data d = Py.Ok (data ++ rows_of d).
Proof.
  intros [Herr Hwf]. unfold hist_message, rows_of. unfold has_error in Herr. rewrite Herr.
  apply PyFacts.for_each_appends. intros fd Hfd acc.
  rewrite Forall_forall in Hwf. destruct (Hwf fd Hfd) as [date Hdate].
  by apply (hist_fd_rows _ _ date).
Qed.

(** X14: on a stream of well-formed responses [_bdh_list] returns, in
    the order received, one row for every item of every dictionary of
    field data other than its date, carrying the date of that
    dictionary, the security of the response, and the item's name and
    value: nothing is dropped, added or reordered. *)
Theorem bdh_list_rows (events : list HistoricalDataResponse) :
  Forall well_formed events ->
  _bdh_list events = Py.Ok (flat_map rows_of events).
Proof.
  intros Hwf. unfold _bdh_list.
  apply (PyFacts.for_each_appends hist_message rows_of events).
  intros d Hd acc. apply hist_message_rows_of.
  rewrite Forall_forall in Hwf. by apply Hwf.
Qed.

Lemma bdh_list_rows_witness :
  _bdh_list [two_days] = Py.Ok (flat_map rows_of [two_days]).
Proof.
  apply (bdh_list_rows [two_days]).
  constructor; [|constructor]. split; [reflexivity|].
  constructor; [by eexists|]. constructor; [by eexists|]. constructor.
Defined.

End HistRowsFacts.

(** ** One request, one field *)

Module BdpMoreFacts.
Import Bdp BdpSpec BdpWords.

Lemma dict_set_keeps {V} (d : list (string * V)) (k0 : string) (v0 : V) (x : string * V) :
  x ∈ d -> x.1 <> k0 -> x ∈ dict_set d k0 v0.
Proof.
  induction d as [|item d IH]; simpl; [by intros H%not_elem_of_nil|].
  intros Hin Hne. destruct (decide (item.1 = k0)) as [Hk|Hk].
  - apply elem_of_cons in Hin as [->|Hin]; [done|]. by apply list_elem_of_further.
  - apply elem_of_cons in Hin as [->|Hin]; [apply list_elem_of_here|].
    apply list_elem_of_further. by apply IH.
Qed.

Lemma dict_set_elem_of {V} (d : list (string * V)) (k0 : string) (v0 : V) (x : string * V) :
  x ∈ dict_set d k0 v0 -> x = (k0, v0) \/ x ∈ d.
Proof.
  induction d as [|item d IH]; simpl.
  - intros Hin. apply elem_of_cons in Hin as [->|Hin]; [by left|by right].
  - destruct (decide (item.1 = k0)) as [Hk|Hk]; intros Hin;
      apply elem_of_cons in Hin as [->|Hin].
    + by left.
    + right. by apply list_elem_of_further.
    + right. apply list_elem_of_here.
    + destruct (IH Hin) as [->|?]; [by left|right; by apply list_elem_of_further].
Qed.

Section Session.

Context {P : Type}.
Variable vendor : nat -> request -> list Ref.message.

Lemma broadcast_raises (numb_tickers : nat) (items : list (string * ovrd_arg)) :
  Exists (fun item => ~ fits numb_tickers item) items ->
  forall ovrds2, exists k vs,
    (k, Many vs) ∈ items /\ length vs <> numb_tickers /\
    Py.for_each (P:=P) (broadcast numb_tickers) items ovrds2
    = Py.Raise (Py.ValueErrorMsg ("Invalid number of overrides specified for " +:+ k)).
Proof.
  induction items as [|[k a] items IH]; intros Hex ovrds2; [by inversion Hex|].
  simpl. unfold broadcast at 1. simpl.
  destruct a as [v|vs].
  - simpl. inversion Hex as [? ? Hbad|? ? Hrest]; subst; [by destruct Hbad|].
    destruct (IH Hrest (dict_set ovrds2 k (replicate numb_tickers v)))
      as (k' & vs' & Hin & Hlen & ->).
    exists k', vs'. split; [by apply list_elem_of_further|done].
  - destruct (decide (length vs <> numb_tickers)) as [Hne|Heq].
    + exists k, vs. split; [apply list_elem_of_here|done].
    + simpl. inversion Hex as [? ? Hbad|? ? Hrest]; subst.
      { unfold fits in Hbad. simpl in Hbad. destruct Hbad. by apply dec_stable. }
      destruct (IH Hrest (dict_set ovrds2 k vs)) as (k' & vs' & Hin & Hlen & ->).
      exists k', vs'. split; [by apply list_elem_of_further|done].
Qed.

(** X15: a sequence override whose length is not the number of
    tickers makes [_BDP] raise [ValueError] naming such an override,
    before any request is sent. *)
Theorem bdp_override_length_checked (tickers field : str_or_list)
    (field_ovrds : list (string * ovrd_arg)) (k : string) (vs : list string) :
  (k, Many vs) ∈ field_ovrds -> k <> "dummy" ->
  length vs <> length (as_list tickers) ->
  exists k' vs',
    (k', Many vs') ∈ field_ovrds /\ length vs' <> length (as_list tickers) /\
    _BDP (P:=P) vendor tickers field field_ovrds
    = (Py.Raise (Py.ValueErrorMsg ("Invalid number of overrides specified for " +:+ k')),
       mk_con []).
Proof.
  intros Hin Hk Hlen. unfold _BDP, prepare.
  destruct (TickersFacts.parse_tickers_ok (P:=P) (Lst (as_list tickers)))
    as (trans & -> & Hnorm).
  apply Forall2_length in Hnorm. rewrite length_map in Hnorm. simpl in Hnorm.
  simpl. rewrite <- Hnorm.
  destruct (broadcast_raises (length (as_list tickers))
              (dict_set field_ovrds "dummy" (One "dummy"))) with (ovrds2 := @nil (string * list string))
    as (k' & vs' & Hin' & Hlen' & ->).
  { apply Exists_exists. exists (k, Many vs). split; [by apply dict_set_keeps|].
    unfold fits. simpl. done. }
  exists k', vs'. split; [|done].
  apply dict_set_elem_of in Hin' as [?|?]; [done|done].
Qed.

Lemma unique_const {A B} `{EqDecision B} (x : B) (l : list A) :
  l <> [] -> unique (map (fun _ => x) l) = [x].
Proof.
  induction l as [|a l IH]; [done|]. intros _. simpl.
  destruct l as [|b l]; [done|]. rewrite IH by done.
  rewrite filter_cons. by destruct (decide (x <> x)).
Qed.

Lemma scalar_params (trans_tickers : list string) (scalars : list (string * string)) :
  params_frame trans_tickers
    (map (ovrd_column (length trans_tickers)) (scalar_ovrds scalars)
     ++ [("dummy", replicate (length trans_tickers) "dummy")])
  = map (fun t => (t, map snd scalars ++ ["dummy"])) trans_tickers.
Proof.
  unfold params_frame. apply list_eq. intros i.
  rewrite list_lookup_imap, list_lookup_fmap.
  destruct (trans_tickers !! i) as [t|] eqn:Hi; [|done].
  simpl. do 2 f_equal. apply lookup_lt_Some in Hi.
  unfold ovrds_at, scalar_ovrds. rewrite map_app, !map_map. simpl.
  rewrite lookup_replicate_2 by done. simpl. f_equal.
  apply map_ext. intros kv. by rewrite lookup_replicate_2.
Qed.

Lemma scalar_groups (trans_tickers : list string) (vals : list string) :
  trans_tickers <> [] ->
  groupby_unique (map (fun t => (t, vals)) trans_tickers) = [(vals, unique trans_tickers)].
Proof.
  intros Hne. unfold groupby_unique. rewrite map_map. simpl.
  rewrite unique_const by done.
  assert (merge_sort key_le [vals] = [vals]) as ->.
  { apply Permutation_singleton_r. by rewrite merge_sort_Permutation. }
  simpl. do 3 f_equal.
  induction trans_tickers as [|t ts IH] in |- *; [done|]. simpl.
  rewrite filter_cons. simpl. destruct (decide (vals = vals)); [|done]. simpl. by f_equal.
Qed.

Lemma scalar_kwargs (scalars : list (string * string)) (group : list string) :
  "dummy" ∉ map fst scalars ->
  kwargs_of (map fst scalars ++ ["dummy"]) (map snd scalars ++ ["dummy"], group) = scalars.
Proof.
  intros Hd. unfold kwargs_of. simpl.
  rewrite zip_with_app by (by rewrite !length_map).
  rewrite filter_app. simpl. rewrite filter_cons. simpl.
  destruct (decide ("dummy" <> "dummy")); [done|]. rewrite filter_nil, app_nil_r.
  rewrite zip_fst_snd.
  induction scalars as [|kv scalars IH]; [done|].
  rewrite filter_cons. simpl in Hd. apply not_elem_of_cons in Hd as [Hkv Hd].
  destruct (decide (kv.1 <> "dummy")) as [_|Hn]; [|exfalso; apply Hn; congruence].
  f_equal. by apply IH.
Qed.

(** X16: when every override is one value and not a sequence, [_BDP]
    sends a single request, whether it then returns or raises: the
    distinct normalized tickers in order of first appearance, the
    field, and the overrides as given. *)
Theorem bdp_scalar_overrides_one_request (tickers field : str_or_list)
    (scalars : list (string * string))
    (res : Py.result P (list Ref.scalar)) (c' : con) :
  as_list tickers <> [] ->
  NoDup (map fst scalars) -> "dummy" ∉ map fst scalars ->
  _BDP (P:=P) vendor tickers field (scalar_ovrds scalars) = (res, c') ->
  exists trans_tickers,
    Tickers._parse_tickers (P:=P) (Lst (as_list tickers)) = Py.Ok trans_tickers /\
    sent c' = [mk_request (unique trans_tickers) (as_list field) scalars].
Proof.
  intros Hne Hnd Hd Hrun.
  assert (map fst (scalar_ovrds scalars) = map fst scalars) as Hkeys.
  { unfold scalar_ovrds. rewrite map_map. done. }
  destruct (BdpFacts.prepare_columns (P:=P) (as_list tickers) (scalar_ovrds scalars))
    as (trans & Hparse & Hlen & Hprep).
  { by rewrite Hkeys. }
  { by rewrite Hkeys. }
  { apply Forall_forall. intros item Hin. unfold scalar_ovrds in Hin.
    apply list_elem_of_fmap in Hin as (kv & -> & _). done. }
  exists trans. split; [done|].
  unfold _BDP in Hrun. rewrite Hprep in Hrun. rewrite <- Hlen in Hrun.
  rewrite scalar_params in Hrun.
  rewrite scalar_groups in Hrun by (intros ->; by destruct (as_list tickers)).
  rewrite map_app, map_map in Hrun. simpl in Hrun.
  unfold scalar_ovrds in Hrun. rewrite map_map in Hrun. simpl in Hrun.
  destruct (ref (P:=P) vendor (mk_con []) (unique trans) field _) as [rres rc] eqn:Href.
  apply BdpFacts.ref_sent in Href. simpl in Href.
  rewrite scalar_kwargs in Href by done.
  destruct rres as [data|e]; injection Hrun as _ <-; exact Href.
Qed.

Lemma fetch_all_prefix (field : str_or_list) (ovrd_names : list string)
    (rows : list group_row) :
  forall c all_data all_data' c',
    fetch_all (P:=P) vendor c field ovrd_names rows all_data = (Py.Ok all_data', c') ->
    exists more, all_data' = all_data ++ more.
Proof.
  induction rows as [|row rows IH]; intros c all_data all_data' c'; simpl.
  - intros [= <- <-]. exists []. by rewrite app_nil_r.
  - destruct (ref (P:=P) vendor c row.2 field _) as [[data|e] c1]; [|done].
    intros Hrest. apply IH in Hrest as [more ->]. eexists. by rewrite <- app_assoc.
Qed.

Lemma twin_app (a b : list Ref.ref_datum) : twin a -> twin b -> twin (a ++ b).
Proof. destruct a as [|r1 [|r2 a]]; simpl; done. Qed.

Lemma twin_flat_map {A} (f : A -> list Ref.ref_datum) (xs : list A) :
  (forall x, twin (f x)) -> twin (flat_map f xs).
Proof.
  intros Hf. induction xs as [|x xs IH]; simpl; [done|]. by apply twin_app.
Qed.

Lemma twin_ref_rows (flds : list string) (corrId : list Z) (s : Ref.securityData) :
  2 <= length flds -> twin (RefSpec.ref_rows flds corrId s).
Proof. destruct flds as [|f1 [|f2 flds]]; simpl; (lia || done). Qed.

Lemma twin_not_NoDup (data : list Ref.ref_datum) (key : list string)
    (more : list data_row) :
  data <> [] -> twin data ->
  ~ NoDup (map data_key (map (fun d => mk_data_row d key) data ++ more)).
Proof.
  destruct data as [|r1 [|r2 data]]; simpl; [done|done|].
  intros _ Ht Hnd. unfold data_key at 1 2 in Hnd. simpl in Hnd. rewrite Ht in Hnd.
  apply NoDup_cons in Hnd as [Hnotin _]. apply Hnotin, list_elem_of_here.
Qed.

(** X17: [_BDP] serves one field only. Asked for two fields or more
    it never returns normally: every security comes back with one row
    per field, so the merge that must find at most one row per ticker
    and override combination raises. *)
Theorem bdp_single_field_only (tickers : str_or_list) (flds : list string)
    (field_ovrds : list (string * ovrd_arg))
    (res : Py.result P (list Ref.scalar)) (c' : con) :
  2 <= length flds -> as_list tickers <> [] ->
  _BDP (P:=P) vendor tickers (Lst flds) field_ovrds = (res, c') ->
  Py.is_ok res = false.
Proof.
  intros Hflds Hne Hrun. unfold _BDP in Hrun.
  destruct (prepare (P:=P) (as_list tickers) field_ovrds) as [[trans ovrds2]|e] eqn:Hprep.
  2:{ by injection Hrun as <- _. }
  apply BdpFacts.prepare_length in Hprep as Hlen.
  destruct (groupby_unique (params_frame trans ovrds2)) as [|row rows] eqn:Hgroups.
  { exfalso. destruct trans as [|t trans]; [by destruct (as_list tickers)|].
    assert (ovrds_at ovrds2 0 ∈ map fst (groupby_unique (params_frame (t :: trans) ovrds2)))
      as Hin.
    { apply BdpFacts.groupby_keys. exists t. apply BdpFacts.params_frame_rows.
      by exists 0, t. }
    rewrite Hgroups in Hin. by apply not_elem_of_nil in Hin. }
  simpl in Hrun. unfold ref at 1 in Hrun. simpl in Hrun.
  destruct (ParseFacts.parse_ref_dichotomy (P:=P)
              (vendor 0 (mk_request row.2 flds (kwargs_of (map fst ovrds2) row))) flds false)
    as [[_ Hok]|[_ (e & Hraise & _)]].
  2:{ rewrite Hraise in Hrun. by injection Hrun as <- _. }
  rewrite Hok in Hrun.
  match type of Hrun with context [match ?d with [] => _ | _ :: _ => _ end] =>
    assert (twin d) as Htwin; [|destruct d as [|r data] eqn:Hd] end.
  { apply twin_flat_map. intros msg. apply twin_flat_map. intros s.
    by apply twin_ref_rows. }
  { by injection Hrun as <- _. }
  match type of Hrun with context [fetch_all ?v ?c ?f ?names ?rs ?acc] =>
    destruct (fetch_all v c f names rs acc) as [[all_data|e] c1] eqn:Hfetch end.
  2:{ by injection Hrun as <- _. }
  apply fetch_all_prefix in Hfetch as [more ->].
  injection Hrun as <- _. unfold merge_left_m1.
  destruct (decide (NoDup _)) as [Hnd|_]; [|done].
  exfalso. by apply (twin_not_NoDup (r :: data) row.1 more).
Qed.

Lemma reconciled_same_key (all_data : list data_row) (l l' : inp_row)
    (v v' : Ref.scalar) :
  trans_ticker l = trans_ticker l' -> i_ovrds l = i_ovrds l' ->
  Reconciled all_data l v -> Reconciled all_data l' v' -> v = v'.
Proof.
  intros Ht Ho [Hsome Hnone] [Hsome' Hnone'].
  destruct (filter (same_key l) all_data) as [|r rs] eqn:Hf.
  - assert (forall r, r ∈ all_data -> ~ same_key l r) as Hno.
    { intros r Hr Hk.
      assert (r ∈ filter (same_key l) all_data) as Hin by (by apply list_elem_of_filter).
      rewrite Hf in Hin. by apply not_elem_of_nil in Hin. }
    rewrite (Hnone Hno), Hnone'; [done|].
    intros r Hr [Hk1 Hk2]. apply (Hno r Hr). split; congruence.
  - assert (r ∈ filter (same_key l) all_data) as Hin by (rewrite Hf; apply list_elem_of_here).
    apply list_elem_of_filter in Hin as [[Hk1 Hk2] Hr].
    rewrite (Hsome r Hr); [|by split]. symmetry. apply Hsome'; [done|]. split; congruence.
Qed.

(** What a returning [_BDP] has computed: the value at every position
    is the one reconciled for the row of that position. *)
Lemma bdp_ok_reconciled (tickers field : str_or_list)
    (field_ovrds : list (string * ovrd_arg)) (out : list Ref.scalar) (c' : con) :
  _BDP (P:=P) vendor tickers field field_ovrds = (Py.Ok out, c') ->
  exists trans_tickers ovrds2 all_data,
    prepare (P:=P) (as_list tickers) field_ovrds = Py.Ok (trans_tickers, ovrds2) /\
    forall i tt, trans_tickers !! i = Some tt ->
      exists v, out !! i = Some v /\
        Reconciled all_data
          (mk_inp_row tt (default "" (as_list tickers !! i)) (ovrds_at ovrds2 i)) v.
Proof.
  intros Hrun. unfold _BDP in Hrun.
  destruct (prepare (as_list tickers) field_ovrds) as [[trans_tickers ovrds2]|e] eqn:Hprep;
    [|done].
  destruct (fetch_all vendor (mk_con []) field (map fst ovrds2) _ [])
    as [[all_data|e] c1] eqn:Hfetch; [|done].
  injection Hrun as Hrun _. unfold merge_left_m1 in Hrun.
  destruct all_data as [|d0 all_data0]; [done|].
  set (all_data := d0 :: all_data0) in *.
  destruct (decide (NoDup (map data_key all_data))) as [Hnd|]; [|done].
  simpl in Hrun. unfold finish in Hrun.
  destruct (decide (length _ <> length (as_list tickers))); [done|].
  injection Hrun as <-.
  pose proof (BdpFacts.merge_rows all_data
                (inp_frame trans_tickers (as_list tickers) ovrds2) Hnd) as Hmerge.
  exists trans_tickers, ovrds2, all_data. split; [done|].
  intros i tt Htt.
  assert (inp_frame trans_tickers (as_list tickers) ovrds2 !! i
          = Some (mk_inp_row tt (default "" (as_list tickers !! i)) (ovrds_at ovrds2 i)))
    as Hrow.
  { unfold inp_frame. by rewrite list_lookup_imap, Htt. }
  destruct (Forall2_lookup_l _ _ _ _ _ Hmerge Hrow) as (m & Hm & _ & Hrec).
  exists (m_value m). split; [|done]. by rewrite list_lookup_fmap, Hm.
Qed.

(** X25: a returning [_BDP] gives the same value to two positions
    whose tickers normalize to the same ticker and carry the same
    override values, however the two were spelled. *)
Theorem bdp_same_ticker_same_value (tickers field : str_or_list)
    (field_ovrds : list (string * ovrd_arg)) (out : list Ref.scalar) (c' : con)
    (trans_tickers : list string) (ovrds2 : list (string * list string))
    (i j : nat) (tt : string) :
  _BDP (P:=P) vendor tickers field field_ovrds = (Py.Ok out, c') ->
  prepare (P:=P) (as_list tickers) field_ovrds = Py.Ok (trans_tickers, ovrds2) ->
  trans_tickers !! i = Some tt -> trans_tickers !! j = Some tt ->
  ovrds_at ovrds2 i = ovrds_at ovrds2 j ->
  out !! i = out !! j /\ is_Some (out !! i).
Proof.
  intros Hrun Hprep Hi Hj Hov.
  apply bdp_ok_reconciled in Hrun as (trans' & ovrds2' & all_data & Hprep' & Hrec).
  rewrite Hprep in Hprep'. injection Hprep' as <- <-.
  destruct (Hrec i tt Hi) as (v & Hv & Hrv).
  destruct (Hrec j tt Hj) as (v' & Hv' & Hrv').
  rewrite Hv, Hv'. split; [|by eexists]. f_equal.
  eapply reconciled_same_key; [| |exact Hrv|exact Hrv']; done.
Qed.

(** X24: called with one field and no override, [_BDP] reports at
    every position what the vendor answered for the security of the
    ticker at that position: the value of the field when the response
    holds one, the string [security not found] when the field is absent
    and the security is marked with an error, [NaN] when the field is
    absent otherwise. *)
Theorem bdp_reports_vendor_value (tickers : list string) (f : string)
    (out : list Ref.scalar) (c' : con) (trans_tickers : list string)
    (i : nat) (tt : string) (msg : Ref.message) (s : Ref.securityData) :
  _BDP (P:=P) vendor (Lst tickers) (Str f) [] = (Py.Ok out, c') ->
  Tickers._parse_tickers (P:=P) (Lst tickers) = Py.Ok trans_tickers ->
  trans_tickers !! i = Some tt ->
  msg ∈ vendor 0 (mk_request (unique trans_tickers) [f] []) ->
  s ∈ Ref.ReferenceDataResponse msg -> Ref.security s = tt ->
  out !! i = Some (RefSpec.ref_value s f) /\
  (Ref.fieldData s !! f = None -> out !! i = Some (RefSpec.sentinel_of s)).
Proof.
  intros Hrun Hparse Htt Hmsg Hs Hsec.
  assert (out !! i = Some (RefSpec.ref_value s f)) as Hout.
  2:{ split; [done|]. intros Hnone. by rewrite Hout, RefFacts.absent_ref_value. }
  destruct (BdpFacts.prepare_columns (P:=P) tickers []) as (trans & Hparse' & Hlen & Hprep);
    [constructor|apply not_elem_of_nil|constructor|].
  simpl as_list in Hparse. rewrite Hparse in Hparse'. injection Hparse' as <-.
  unfold _BDP in Hrun. simpl as_list in Hrun. rewrite Hprep in Hrun. rewrite <- Hlen in Hrun.
  pose proof (scalar_params trans_tickers []) as Hparams. simpl in Hparams.
  simpl in Hrun. rewrite Hparams in Hrun.
  rewrite scalar_groups in Hrun by (intros ->; done).
  simpl in Hrun. unfold ref at 1 in Hrun. simpl in Hrun.
  change (kwargs_of ["dummy"] (["dummy"], unique trans_tickers))
    with (kwargs_of (map fst (@nil (string * string)) ++ ["dummy"])
            (map snd (@nil (string * string)) ++ ["dummy"], unique trans_tickers)) in Hrun.
  rewrite scalar_kwargs in Hrun by apply not_elem_of_nil.
  destruct (ParseFacts.parse_ref_dichotomy (P:=P)
              (vendor 0 (mk_request (unique trans_tickers) [f] [])) [f] false)
    as [[_ Hok]|[_ (e & Hraise & _)]].
  2:{ rewrite Hraise in Hrun. by injection Hrun as Hrun _. }
  rewrite Hok in Hrun.
  match type of Hrun with context [match ?d with [] => _ | _ :: _ => _ end] =>
    assert (Ref.mk_ref_datum (Ref.security s) f (RefSpec.ref_value s f) [] ∈ d) as Hin;
      [|destruct d as [|r data] eqn:Hd] end.
  { apply list_elem_of_In, in_flat_map. exists msg. split; [by apply list_elem_of_In|].
    apply in_flat_map. exists s. split; [by apply list_elem_of_In|]. by left. }
  { by apply not_elem_of_nil in Hin. }
  injection Hrun as Hrun _. unfold merge_left_m1 in Hrun. simpl in Hrun.
  match type of Hrun with context [decide (NoDup ?keys)] =>
    destruct (decide (NoDup keys)) as [Hnd|]; [|done] end.
  simpl in Hrun. unfold finish in Hrun.
  destruct (decide (length _ <> length tickers)); [done|].
  injection Hrun as <-.
  set (ovrds2 := [("dummy", replicate (length trans_tickers) "dummy")]) in *.
  set (all_data := map (fun d => mk_data_row d ["dummy"]) (r :: data)).
  pose proof (BdpFacts.merge_rows all_data (inp_frame trans_tickers tickers ovrds2) Hnd)
    as Hmerge.
  assert (inp_frame trans_tickers tickers ovrds2 !! i
          = Some (mk_inp_row tt (default "" (tickers !! i)) ["dummy"])) as Hrow.
  { unfold inp_frame. rewrite list_lookup_imap, Htt. simpl. do 2 f_equal.
    unfold ovrds_at, ovrds2. simpl.
    rewrite lookup_replicate_2; [done|]. by eapply lookup_lt_Some. }
  destruct (Forall2_lookup_l _ _ _ _ _ Hmerge Hrow) as (m & Hm & _ & Hrec & _).
  change (mk_data_row r ["dummy"] :: map (fun d => mk_data_row d ["dummy"]) data)
    with all_data.
  rewrite list_lookup_fmap, Hm. simpl. f_equal.
  apply (Hrec (mk_data_row (Ref.mk_ref_datum (Ref.security s) f (RefSpec.ref_value s f) [])
                 ["dummy"])).
  - unfold all_data. apply list_elem_of_fmap. eexists. split; [reflexivity|exact Hin].
  - split; simpl; done.
Qed.

End Session.

Lemma bdp_reports_vendor_value_witness :
  [Ref.SInt 134; Ref.SStr "security not found"] !! 1
  = Some (RefSpec.ref_value
            (Ref.mk_securityData "XXX US EQUITY" (Some "BAD_SEC") [] ∅) "PX_LAST") /\
  (Ref.fieldData (Ref.mk_securityData "XXX US EQUITY" (Some "BAD_SEC") [] ∅) !! "PX_LAST"
   = None ->
   [Ref.SInt 134; Ref.SStr "security not found"] !! 1
   = Some (RefSpec.sentinel_of
             (Ref.mk_securityData "XXX US EQUITY" (Some "BAD_SEC") [] ∅))).
Proof.
  apply (bdp_reports_vendor_value (P:=Empty_set) one_known_vendor
           ["ibm us equity"; "xxx us equity"] "PX_LAST"
           [Ref.SInt 134; Ref.SStr "security not found"]
           (mk_con [mk_request ["IBM US EQUITY"; "XXX US EQUITY"] ["PX_LAST"] []])
           ["IBM US EQUITY"; "XXX US EQUITY"] 1 "XXX US EQUITY"
           (Ref.mk_message []
              [Ref.mk_securityData "IBM US EQUITY" None []
                 {[ "PX_LAST" := Ref.Single (Ref.SInt 134) ]};
               Ref.mk_securityData "XXX US EQUITY" (Some "BAD_SEC") [] ∅])).
  - vm_compute. reflexivity.
  - reflexivity.
  - reflexivity.
  - apply list_elem_of_here.
  - apply list_elem_of_further, list_elem_of_here.
  - reflexivity.
Defined.

Lemma bdp_same_ticker_same_value_witness :
  [Ref.SInt 1; Ref.SInt 0; Ref.SInt 1] !! 0 = [Ref.SInt 1; Ref.SInt 0; Ref.SInt 1] !! 2 /\
  is_Some ([Ref.SInt 1; Ref.SInt 0; Ref.SInt 1] !! 0).
Proof.
  apply (bdp_same_ticker_same_value (P:=Empty_set) echo_vendor three_tickers
           (Str "PX_LAST") per_ticker_currency [Ref.SInt 1; Ref.SInt 0; Ref.SInt 1]
           two_requests
           ["IBM US EQUITY"; "AAPL US EQUITY"; "IBM US EQUITY"]
           [("EQY_FUND_CRNCY", ["USD"; "EUR"; "USD"]);
            ("dummy", ["dummy"; "dummy"; "dummy"])]
           0 2 "IBM US EQUITY").
  - vm_compute. reflexivity.
  - vm_compute. reflexivity.
  - reflexivity.
  - reflexivity.
  - reflexivity.
Defined.

Lemma bdp_override_length_checked_witness :
  exists k' vs',
    (k', Many vs') ∈ [("EQY_FUND_CRNCY", Many ["USD"; "EUR"])] /\
    length vs' <> length (as_list three_tickers) /\
    _BDP (P:=Empty_set) echo_vendor three_tickers (Str "PX_LAST")
      [("EQY_FUND_CRNCY", Many ["USD"; "EUR"])]
    = (Py.Raise (Py.ValueErrorMsg ("Invalid number of overrides specified for " +:+ k')),
       mk_con []).
Proof.
  apply (bdp_override_length_checked (P:=Empty_set) echo_vendor three_tickers (Str "PX_LAST")
           [("EQY_FUND_CRNCY", Many ["USD"; "EUR"])] "EQY_FUND_CRNCY" ["USD"; "EUR"]).
  - apply list_elem_of_here.
  - discriminate.
  - simpl. lia.
Defined.

Lemma bdp_scalar_overrides_one_request_witness :
  exists trans_tickers,
    Tickers._parse_tickers (P:=Empty_set) (Lst (as_list three_tickers))
    = Py.Ok trans_tickers /\
    sent (mk_con [mk_request ["IBM US EQUITY"; "AAPL US EQUITY"] ["PX_LAST"]
                    [("EQY_FUND_CRNCY", "USD")]])
    = [mk_request (unique trans_tickers) (as_list (Str "PX_LAST"))
         [("EQY_FUND_CRNCY", "USD")]].
Proof.
  apply (bdp_scalar_overrides_one_request (P:=Empty_set) echo_vendor three_tickers
           (Str "PX_LAST") [("EQY_FUND_CRNCY", "USD")]
           (Py.Ok [Ref.SInt 0; Ref.SInt 0; Ref.SInt 0])).
  - discriminate.
  - simpl. apply NoDup_singleton.
  - simpl. intros H. apply elem_of_cons in H as [H|H]; [discriminate|].
    by apply not_elem_of_nil in H.
  - vm_compute. reflexivity.
Defined.

Lemma bdp_single_field_only_witness :
  Py.is_ok (P:=Empty_set) (A:=list Ref.scalar)
    (Py.Raise (Py.ValueErrorMsg
       "Merge keys are not unique in right dataset; not a many-to-one merge")) = false.
Proof.
  apply (bdp_single_field_only (P:=Empty_set) two_field_vendor three_tickers
           ["PX_LAST"; "CRNCY"] [] _
           (mk_con [mk_request ["IBM US EQUITY"; "AAPL US EQUITY"] ["PX_LAST"; "CRNCY"] []])).
  - simpl. lia.
  - discriminate.
  - vm_compute. reflexivity.
Defined.

End BdpMoreFacts.

(** ** Normalizing a normalized ticker *)

Module TickersAgainFacts.
Import Tickers TickersSpec TickersWords.

Lemma upper_char_idem (c : ascii) : upper_char (upper_char c) = upper_char c.
Proof. destruct c as [[] [] [] [] [] [] [] []]; reflexivity. Qed.

Lemma is_space_upper (c : ascii) : is_space (upper_char c) = is_space c.
Proof. destruct c as [[] [] [] [] [] [] [] []]; reflexivity. Qed.

Lemma upper_char_alnum (c : ascii) : is_alnum c -> upper_char c = c.
Proof.
  intros Hc. unfold upper_char.
  destruct (in_range "a" "z" c) eqn:Hr; [|done].
  apply TickersFacts.in_range_spec in Hr. change (code "a") with 97 in Hr.
  unfold is_alnum, is_letter, is_digit in Hc. lia.
Qed.

Lemma py_upper_idem (l : list ascii) : py_upper (py_upper l) = py_upper l.
Proof.
  unfold py_upper. rewrite map_map. apply map_ext. intros c. apply upper_char_idem.
Qed.

Lemma lstrip_upper (l : list ascii) : lstrip (py_upper l) = py_upper (lstrip l).
Proof.
  induction l as [|c l IH]; simpl; [done|].
  rewrite is_space_upper. by destruct (is_space c).
Qed.

Lemma strip_upper (l : list ascii) : py_strip (py_upper l) = py_upper (py_strip l).
Proof.
  unfold py_strip, rstrip, py_upper.
  rewrite <- map_rev. fold (py_upper (rev l)). rewrite lstrip_upper.
  unfold py_upper. rewrite <- map_rev. fold (py_upper (rev (lstrip (rev l)))).
  apply lstrip_upper.
Qed.

Lemma lstrip_starts_clean (l : list ascii) : starts_clean (lstrip l).
Proof.
  induction l as [|c l IH]; simpl; [done|].
  destruct (is_space c) eqn:Hc; [done|]. simpl. done.
Qed.

Lemma lstrip_clean (l : list ascii) : starts_clean l -> lstrip l = l.
Proof. destruct l as [|c l]; simpl; [done|]. by intros ->. Qed.

Lemma rstrip_clean (l : list ascii) : ends_clean l -> rstrip l = l.
Proof.
  unfold ends_clean, rstrip. intros H. rewrite lstrip_clean by done. apply rev_involutive.
Qed.

Lemma rstrip_ends_clean (l : list ascii) : ends_clean (rstrip l).
Proof.
  unfold ends_clean, rstrip. rewrite rev_involutive. apply lstrip_starts_clean.
Qed.

Lemma lstrip_ends_clean (l : list ascii) : ends_clean l -> ends_clean (lstrip l).
Proof.
  unfold ends_clean. induction l as [|c l IH]; simpl; [done|].
  destruct (is_space c) eqn:Hc; [|done].
  intros H. apply IH. destruct (rev l) as [|d r] eqn:Hr; [done|]. exact H.
Qed.

Lemma strip_clean (l : list ascii) : starts_clean l -> ends_clean l -> py_strip l = l.
Proof.
  intros Hs He. unfold py_strip. rewrite rstrip_clean by done. by apply lstrip_clean.
Qed.

Lemma strip_is_clean (l : list ascii) :
  starts_clean (py_strip l) /\ ends_clean (py_strip l).
Proof.
  unfold py_strip. split; [apply lstrip_starts_clean|].
  apply lstrip_ends_clean, rstrip_ends_clean.
Qed.

(** The cleaned form of an input is upper case and stripped. *)
Lemma canon_clean (t : string) :
  py_upper (canon t) = canon t /\ starts_clean (canon t) /\ ends_clean (canon t).
Proof.
  unfold canon. split; [|apply strip_is_clean].
  by rewrite <- strip_upper, py_upper_idem.
Qed.

Lemma chars_str (l : list ascii) : chars (str l) = l.
Proof. apply list_ascii_of_string_of_list_ascii. Qed.

(** A needle that starts with a space is not found in text without
    whitespace. *)
Lemma contains_skip (needle pre rest : list ascii) :
  Forall (fun c => is_space c = false) pre ->
  contains (" "%char :: needle) (pre ++ rest) = contains (" "%char :: needle) rest.
Proof.
  induction 1 as [|c pre Hc _ IH]; [done|].
  simpl app. simpl contains at 1. simpl starts_with.
  destruct (decide (" "%char = c)) as [<-|_]; [done|]. exact IH.
Qed.

Lemma no_sedol_in_suffix (a b : ascii) :
  is_alnum a -> is_alnum b ->
  contains (chars " SEDOL") [" "%char; a; b] = false.
Proof.
  intros Ha%TickersFacts.alnum_not_space Hb%TickersFacts.alnum_not_space.
  simpl. repeat case_decide; subst; try done.
Qed.

Lemma suffix_shape (u sfx : list ascii) :
  ExchSuffix u sfx ->
  sfx = [] \/ exists a b, sfx = [" "%char; a; b] /\ is_alnum a /\ is_alnum b.
Proof.
  intros [(n & a & b & (after & _ & _ & Ha & Hb) & _ & ->)|[_ ->]]; [right|by left].
  by exists a, b.
Qed.

(** A normalized ticker with a prefix: cleaning it again only changes
    the case of the prefix, and the result is no longer taken for an
    ISIN or a SEDOL. *)
Lemma prefixed_again (u tok sfx prefix PREFIX : list ascii) :
  py_upper u = u -> FirstToken u tok -> ExchSuffix u sfx ->
  py_upper prefix = PREFIX ->
  Forall (fun c => is_space c = false) PREFIX -> (exists p, PREFIX = "/"%char :: p) ->
  let w := PREFIX ++ tok ++ sfx in
  py_upper (prefix ++ tok ++ sfx) = w /\
  py_strip w = w /\
  re_match isin w = None /\ contains (chars " SEDOL") w = false.
Proof.
  intros Hup (ws & rest & Hu & Hws & Htok & Hns & _) Hsfx Hprefix Hclean [p Hp] w.
  assert (py_upper tok = tok) as Htup.
  { rewrite Hu in Hup. unfold py_upper in *. rewrite !map_app in Hup.
    apply app_inj_1 in Hup as [_ Hup]; [|by rewrite length_map].
    apply app_inj_1 in Hup as [Hup _]; [done|by rewrite length_map]. }
  apply suffix_shape in Hsfx.
  assert (py_upper sfx = sfx) as Hsup.
  { destruct Hsfx as [->|(a & b & -> & Ha & Hb)]; [done|].
    unfold py_upper. cbn [map].
    rewrite (upper_char_alnum a), (upper_char_alnum b) by done. reflexivity. }
  subst w. split_and!.
  - unfold py_upper in *. rewrite !map_app. by rewrite Hprefix, Htup, Hsup.
  - apply strip_clean.
    + rewrite Hp. simpl. done.
    + unfold ends_clean. rewrite !rev_app_distr.
      destruct Hsfx as [->|(a & b & -> & Ha & Hb)].
      * simpl. destruct (rev tok) as [|c r] eqn:Hr.
        { apply (f_equal (@rev ascii)) in Hr. rewrite rev_involutive in Hr. done. }
        simpl. rewrite Forall_forall in Hns. apply Hns.
        apply list_elem_of_In, in_rev. rewrite Hr. by left.
      * simpl. by apply TickersFacts.alnum_not_space.
  - by rewrite Hp.
  - rewrite app_assoc. change (chars " SEDOL") with (" "%char :: chars "SEDOL").
    rewrite contains_skip by (apply Forall_app; by split).
    destruct Hsfx as [->|(a & b & -> & Ha & Hb)]; [done|].
    by apply no_sedol_in_suffix.
Qed.

(** Cleaning a normalized ticker again gives its upper-case form, which
    is then left as it is. *)
Lemma normalized_again (t o : string) :
  Normalized (canon t) o ->
  canon o = py_upper (chars o) /\
  re_match isin (canon o) = None /\ contains (chars " SEDOL") (canon o) = false /\
  (~ IsinForm (canon t) -> ~ Contains (chars " SEDOL") (canon t) -> canon o = chars o).
Proof.
  intros (Hisin & Hsedol & Hplain).
  destruct (canon_clean t) as (Hup & Hs & He).
  destruct (re_match isin (canon t)) as [m|] eqn:Hm.
  - assert (IsinForm (canon t)) as Hform by (apply TickersFacts.isin_match_iff; eauto).
    destruct (Hisin Hform) as (tok & sfx & Htok & Hsfx & ->).
    destruct (prefixed_again (canon t) tok sfx (chars "/isin/") (chars "/ISIN/"))
      as (Hw & Hc & Hi & Hsd); try done.
    { repeat constructor. }
    { by eexists. }
    assert (canon (str (chars "/isin/" ++ tok ++ sfx)) = chars "/ISIN/" ++ tok ++ sfx)
      as Hcanon by (unfold canon; by rewrite chars_str, Hw, Hc).
    rewrite Hcanon, chars_str, Hw. by split_and!.
  - apply TickersFacts.isin_no_match_iff in Hm as Hform.
    destruct (contains (chars " SEDOL") (canon t)) eqn:Hsd.
    + apply TickersFacts.contains_spec in Hsd as Hcont.
      destruct (Hsedol Hform Hcont) as (tok & sfx & Htok & Hsfx & ->).
      destruct (prefixed_again (canon t) tok sfx (chars "/sedol/") (chars "/SEDOL/"))
        as (Hw & Hc & Hi & Hsd'); try done.
      { repeat constructor. }
      { by eexists. }
      assert (canon (str (chars "/sedol/" ++ tok ++ sfx)) = chars "/SEDOL/" ++ tok ++ sfx)
        as Hcanon by (unfold canon; by rewrite chars_str, Hw, Hc).
      rewrite Hcanon, chars_str, Hw. by split_and!.
    + assert (~ Contains (chars " SEDOL") (canon t)) as Hcont.
      { rewrite <- TickersFacts.contains_spec. congruence. }
      rewrite (Hplain Hform Hcont).
      assert (canon (str (canon t)) = canon t) as Hagain.
      { unfold canon at 1. rewrite chars_str, Hup. by apply strip_clean. }
      rewrite Hagain, chars_str, Hup. by split_and!.
Qed.

Lemma parse_ticker_plain {P} (new_tick : list string) (u : list ascii) :
  re_match isin u = None -> contains (chars " SEDOL") u = false ->
  parse_ticker (P:=P) new_tick u = Py.Ok (new_tick ++ [str u]).
Proof. intros Hi Hs. unfold parse_ticker. by rewrite Hi, Hs. Qed.

(** X19: normalizing the output of the normalizer once more only
    puts it in upper case: a ticker that was left as its cleaned text
    comes back unchanged, one that was given the prefix [/isin/] or
    [/sedol/] comes back with that prefix in capitals and is not taken
    for an ISIN or a SEDOL again. *)
Theorem parse_tickers_twice {P} (tickers : Py.str_or_list) (out : list string) :
  _parse_tickers (P:=P) tickers = Py.Ok out ->
  _parse_tickers (P:=P) (Py.Lst out) = Py.Ok (map upper_text out) /\
  forall i t o, Py.as_list tickers !! i = Some t -> out !! i = Some o ->
    ~ IsinForm (canon t) -> ~ Contains (chars " SEDOL") (canon t) ->
    upper_text o = o.
Proof.
  intros Hrun.
  destruct (TickersFacts.parse_tickers_ok (P:=P) tickers) as (out' & Hrun' & Hall).
  rewrite Hrun in Hrun'. injection Hrun' as <-.
  assert (forall o, o ∈ out -> exists t, Normalized (canon t) o) as Hnorm.
  { intros o Ho. apply list_elem_of_lookup in Ho as [i Hi].
    destruct (Forall2_lookup_r _ _ _ _ _ Hall Hi) as (u & Hu & Hn).
    rewrite list_lookup_fmap in Hu.
    destruct (Py.as_list tickers !! i) as [t|]; [|done].
    injection Hu as <-. by exists t. }
  split.
  - unfold _parse_tickers. simpl Py.as_list. fold canon.
    rewrite (PyFacts.for_each_appends parse_ticker (fun u => [str u])).
    + simpl. f_equal. clear -Hnorm. induction out as [|o out IH]; [done|].
      simpl. f_equal.
      * destruct (Hnorm o (list_elem_of_here _ _)) as [t Ht].
        apply normalized_again in Ht as (-> & _). done.
      * apply IH. intros o' Ho'. apply Hnorm. by apply list_elem_of_further.
    + intros u Hu acc. apply list_elem_of_fmap in Hu as (o & -> & Ho).
      destruct (Hnorm o Ho) as [t Ht].
      apply normalized_again in Ht as (_ & Hi & Hs & _). by apply parse_ticker_plain.
  - intros i t o Hi Ho Hform Hcont.
    assert (map canon (Py.as_list tickers) !! i = Some (canon t)) as Hu.
    { by rewrite list_lookup_fmap, Hi. }
    destruct (Forall2_lookup_l _ _ _ _ _ Hall Hu) as (o' & Ho' & Hn).
    rewrite Ho in Ho'. injection Ho' as <-.
    pose proof Hn as (_ & _ & Hplain).
    apply normalized_again in Hn as (Hc & _ & _ & Hfix).
    unfold upper_text. rewrite <- Hc, (Hfix Hform Hcont).
    apply string_of_list_ascii_of_string.
Qed.

Lemma parse_tickers_twice_witness :
  _parse_tickers (P:=Empty_set) (Py.Lst ["/isin/US0378331005 US"; "IBM US EQUITY"])
  = Py.Ok (map upper_text ["/isin/US0378331005 US"; "IBM US EQUITY"]) /\
  forall i t o,
    Py.as_list (Py.Lst ["us0378331005 us equity"; " ibm us equity"]) !! i = Some t ->
    ["/isin/US0378331005 US"; "IBM US EQUITY"] !! i = Some o ->
    ~ IsinForm (canon t) -> ~ Contains (chars " SEDOL") (canon t) ->
    upper_text o = o.
Proof.
  apply (parse_tickers_twice (P:=Empty_set)
           (Py.Lst ["us0378331005 us equity"; " ibm us equity"])
           ["/isin/US0378331005 US"; "IBM US EQUITY"]).
  reflexivity.
Defined.

End TickersAgainFacts.

(** ** The request elements of [_BDH] *)

Module BdhFacts.
Import Bdh BdhWords.

Lemma clean_fill_ok (fill0 fill : list string) :
  forall acc,
    Forall (fun f => is_Some (fill_method f)) fill ->
    Py.for_each (clean_fill_step fill0) fill acc
    = Py.Ok (acc ++ omap fill_method fill).
Proof.
  induction fill as [|f fill IH]; intros acc Hall; simpl; [by rewrite app_nil_r|].
  inversion Hall as [|? ? [m Hm] Hrest]; subst.
  unfold clean_fill_step at 1. unfold fill_method in Hm |- *.
  destruct (decide (upper f = "B")); simpl.
  - rewrite IH by done. by rewrite <- app_assoc.
  - destruct (decide (upper f = "P")); [|done]. simpl.
    rewrite IH by done. by rewrite <- app_assoc.
Qed.

Lemma clean_fill_raises (fill0 fill : list string) :
  forall acc,
    Exists (fun f => fill_method f = None) fill ->
    Py.for_each (clean_fill_step fill0) fill acc = Py.Raise (Py.ValueError fill0).
Proof.
  induction fill as [|f fill IH]; intros acc Hex; [by inversion Hex|].
  simpl. unfold clean_fill_step at 1.
  destruct (decide (upper f = "B")) as [Hb|Hb]; simpl.
  - apply IH. inversion Hex as [? ? Hbad|]; subst; [|done].
    unfold fill_method in Hbad. by rewrite decide_True in Hbad.
  - destruct (decide (upper f = "P")) as [Hp|Hp]; simpl; [|done].
    apply IH. inversion Hex as [? ? Hbad|]; subst; [|done].
    unfold fill_method in Hbad. rewrite decide_False, decide_True in Hbad; done.
Qed.

Lemma broadcast_elm_fresh (numb_tickers : nat) (items : list (string * list elm)) :
  forall acc out,
    NoDup (map fst acc ++ map fst items) ->
    Py.for_each (broadcast_elm numb_tickers) items acc = Py.Ok out ->
    map fst out = map fst acc ++ map fst items /\
    (Forall (fun kv => length kv.2 = numb_tickers) acc ->
     Forall (fun kv => length kv.2 = numb_tickers) out).
Proof.
  induction items as [|[k v] items IH]; intros acc out Hnd; simpl.
  - intros [= <-]. by rewrite app_nil_r.
  - assert (k ∉ map fst acc) as Hk.
    { rewrite NoDup_app in Hnd. destruct Hnd as (_ & Hdis & _).
      intros Hin. apply (Hdis k Hin). simpl. apply list_elem_of_here. }
    assert (NoDup (map fst (acc ++ [(k, v)]) ++ map fst items)) as Hnd'.
    { rewrite map_app. simpl. by rewrite <- app_assoc. }
    unfold broadcast_elm at 1. simpl.
    destruct (Nat.eqb_spec (length v) 1) as [H1|H1]; simpl.
    + rewrite BdpFacts.dict_set_fresh by done. intros Hrun.
      apply IH in Hrun as [Hkeys Hlen].
      2:{ rewrite map_app. simpl. by rewrite <- app_assoc. }
      split; [rewrite Hkeys, map_app; simpl; by rewrite <- app_assoc|].
      intros Hacc. apply Hlen, Forall_app. split; [done|].
      constructor; [|done]. simpl.
      destruct v as [|e [|e' v]]; simpl in H1; try lia.
      clear. induction numb_tickers as [|n IHn]; simpl; [done|]. by rewrite IHn.
    + destruct (decide (length v <> numb_tickers)) as [Hne|Heq]; simpl; [done|].
      rewrite BdpFacts.dict_set_fresh by done. intros Hrun.
      apply IH in Hrun as [Hkeys Hlen].
      2:{ rewrite map_app. simpl. by rewrite <- app_assoc. }
      split; [rewrite Hkeys, map_app; simpl; by rewrite <- app_assoc|].
      intros Hacc. apply Hlen, Forall_app. split; [done|].
      constructor; [|done]. simpl. by apply dec_stable.
Qed.

Lemma elms_dict1_names (a : args) (d1 : list (string * list elm)) :
  elms_dict1 a = Py.Ok d1 -> map fst d1 = element_names a.
Proof.
  unfold elms_dict1, element_names.
  destruct (Py.for_each (clean_fill_step _) _ _) as [clean_fill|e]; simpl; [|done].
  destruct (Py.for_each clean_period_step _ _) as [clean_period|e]; simpl.
  2:{ by destruct (truthy _). }
  destruct (truthy (as_list <$> fx a)); simpl; by intros [= <-].
Qed.

(** X20: the request elements [_BDH] builds are the fill method, the
    DPDF flag, the currency when [fx] is given, the two dates and the
    periodicity, each with one value per ticker; a calendar override is
    never among them: the argument [cdr] has no effect on the elements,
    whatever the periodicity. *)
Theorem bdh_elements_ignore_cdr (numb_tickers : nat) (a : args) :
  (forall elms, elms_dict numb_tickers a = Py.Ok elms ->
     map fst elms = element_names a /\
     ("calendarCodeOverride" ∉ map fst elms) /\
     Forall (fun kv => length kv.2 = numb_tickers) elms) /\
  (forall cdr',
     elms_dict numb_tickers
       (mk_args (start_date a) (end_date a) cdr' (fx a) (fill a) (usedpdf a) (period a))
     = elms_dict numb_tickers a).
Proof.
  split.
  - intros elms Hrun. unfold elms_dict in Hrun.
    destruct (elms_dict1 a) as [d1|e] eqn:Hd1; simpl in Hrun; [|done].
    apply elms_dict1_names in Hd1.
    apply broadcast_elm_fresh in Hrun as [Hkeys Hlen].
    2:{ simpl. rewrite Hd1. unfold element_names.
        destruct (truthy _); simpl; apply NoDup_ListNoDup; repeat constructor;
          simpl; intuition discriminate. }
    simpl in Hkeys. rewrite Hkeys, Hd1. split; [done|]. split; [|by apply Hlen].
    unfold element_names. destruct (truthy _); simpl;
      rewrite !not_elem_of_cons; split_and!; try discriminate; apply not_elem_of_nil.
  - intros cdr'. unfold elms_dict, elms_dict1. simpl. done.
Qed.

(** X21: the fill letters are checked before anything else: when
    every letter is a [B] or a [P] in either case, each stands for
    [NIL_VALUE] or [PREVIOUS_VALUE]; a single other letter makes [_BDH]
    raise [ValueError] with the letters given, even when the periodicity
    is not valid either. *)
Theorem bdh_fill_checked (numb_tickers : nat) (a : args) :
  (Exists (fun f => fill_method f = None) (as_list (fill a)) ->
   elms_dict numb_tickers a = Py.Raise (Py.ValueError (as_list (fill a)))) /\
  (forall elms, elms_dict numb_tickers a = Py.Ok elms ->
     Forall (fun f => is_Some (fill_method f)) (as_list (fill a)) /\
     exists d1, elms_dict1 a = Py.Ok d1 /\
       d1 !! 0 = Some ("nonTradingDayFillMethod",
                       map EStr (omap fill_method (as_list (fill a))))).
Proof.
  assert (Forall (fun f => is_Some (fill_method f)) (as_list (fill a)) \/
          Exists (fun f => fill_method f = None) (as_list (fill a))) as Hcases.
  { induction (as_list (fill a)) as [|f l IH]; [left; constructor|].
    destruct (fill_method f) as [m|] eqn:Hf.
    - destruct IH as [IH|IH]; [left|right; by constructor 2].
      constructor; [by rewrite Hf|done].
    - right. by constructor. }
  split.
  - intros Hex. unfold elms_dict, elms_dict1.
    by rewrite clean_fill_raises.
  - intros elms Hrun. destruct Hcases as [Hall|Hex].
    + split; [done|]. unfold elms_dict in Hrun.
      destruct (elms_dict1 a) as [d1|e] eqn:Hd1; simpl in Hrun; [|done].
      exists d1. split; [done|].
      unfold elms_dict1 in Hd1. rewrite clean_fill_ok in Hd1 by done. simpl in Hd1.
      destruct (Py.for_each clean_period_step _ _) as [clean_period|e]; simpl in Hd1;
        [|done].
      destruct (truthy (as_list <$> fx a)); simpl in Hd1; by injection Hd1 as <-.
    + exfalso. unfold elms_dict, elms_dict1 in Hrun.
      by rewrite clean_fill_raises in Hrun.
Qed.

Lemma bdh_fill_checked_witness :
  Forall (fun f => is_Some (fill_method f)) (as_list (fill daily_with_calendar)) /\
  exists d1, elms_dict1 daily_with_calendar = Py.Ok d1 /\
    d1 !! 0 = Some ("nonTradingDayFillMethod",
                    map EStr (omap fill_method (as_list (fill daily_with_calendar)))).
Proof.
  apply (proj2 (bdh_fill_checked 2 daily_with_calendar)
           [("nonTradingDayFillMethod", [EStr "NIL_VALUE"; EStr "PREVIOUS_VALUE"]);
            ("adjustmentFollowDPDF", [EBool true; EBool true]);
            ("start_date", [EStr "20200101"; EStr "20200101"]);
            ("end_date", [EStr "20200131"; EStr "20200131"]);
            ("periodicitySelection", [EStr "DAILY"; EStr "DAILY"])]).
  vm_compute. reflexivity.
Defined.

End BdhFacts.

(** ** The exchange data of a ticker *)

Module EprxFacts.
Import Tickers TickersSpec TickersWords Eprx EprxWords.

Lemma space_upper (c : ascii) :
  atom_matches (Lit " "%char) (upper_char c) = atom_matches (Lit " "%char) c.
Proof. destruct c as [[] [] [] [] [] [] [] []]; reflexivity. Qed.

Lemma alnum_upper (c : ascii) :
  atom_matches (Class [AZ; D09]) (upper_char c)
  = atom_matches (Class [AZ; Eprx.az; D09]) c.
Proof. destruct c as [[] [] [] [] [] [] [] []]; reflexivity. Qed.

Lemma match_atoms_upper (p p' : list atom) :
  Forall2 (fun a a' => forall c, atom_matches a' (upper_char c) = atom_matches a c) p p' ->
  forall s, match_atoms p' (py_upper s) = option_map py_upper (match_atoms p s).
Proof.
  induction 1 as [|a a' p p' Ha _ IH]; intros s; simpl; [done|].
  destruct s as [|c s]; simpl; [done|].
  rewrite Ha. destruct (atom_matches a c); [|done].
  rewrite IH. by destruct (match_atoms p s).
Qed.

Lemma findall_upper (p p' : list atom) :
  Forall2 (fun a a' => forall c, atom_matches a' (upper_char c) = atom_matches a c) p p' ->
  forall s skip,
    findall_from p' skip (py_upper s) = map py_upper (findall_from p skip s).
Proof.
  intros Hp. induction s as [|c s IH]; intros skip; simpl; [done|].
  destruct skip as [|k]; [|apply IH].
  pose proof (match_atoms_upper p p' Hp (c :: s)) as Hm. simpl in Hm. rewrite Hm.
  destruct (match_atoms p (c :: s)) as [m|]; simpl; [|apply IH].
  unfold py_upper at 2. rewrite length_map. by rewrite IH.
Qed.

Lemma exch_upper :
  Forall2 (fun a a' => forall c, atom_matches a' (upper_char c) = atom_matches a c)
          (expand Eprx.exch) (expand Tickers.exch).
Proof.
  repeat constructor; intros c; first [apply space_upper | apply alnum_upper].
Qed.

(** The code [_EPRX] derives is the code of the ticker. *)
Lemma exchange_code_of {P} (tickers : string) :
  exchange_code (P:=P) tickers
  = match code_of tickers with
    | Some code => Py.Ok code
    | None => Py.Raise (Py.ValueErrorMsg ("Could not derive exchange from " +:+ tickers))
    end.
Proof.
  unfold exchange_code, code_of, exch_suffix, re_findall.
  destruct (Nat.eqb_spec (length (chars tickers)) 2) as [Heq|Hne].
  - rewrite decide_True by done. do 2 f_equal.
    by rewrite <- TickersAgainFacts.strip_upper, TickersAgainFacts.py_upper_idem.
  - rewrite decide_False by done.
    rewrite (findall_upper _ _ exch_upper).
    destruct (findall_from (expand Eprx.exch) 0 (chars tickers)) as [|loc0 locs]; simpl.
    + done.
    + by rewrite TickersAgainFacts.strip_upper.
Qed.

Lemma filter_mask {A} (f : A -> bool) (l : list A) :
  map fst (filter (fun rm : A * bool => rm.2 = true) (zip l (map f l)))
  = filter (fun x => f x = true) l.
Proof.
  induction l as [|x l IH]; [done|].
  cbn [map zip zip_with]. rewrite !filter_cons. simpl.
  destruct (decide (f x = true)); simpl; by rewrite IH.
Qed.

Lemma filter_none {A} (Q : A -> Prop) `{forall x, Decision (Q x)} (l : list A) :
  (forall x, x ∈ l -> ~ Q x) -> filter Q l = [].
Proof.
  induction l as [|x l IH]; intros Hl; [done|].
  rewrite filter_cons, decide_False by (apply Hl, list_elem_of_here).
  apply IH. intros y Hy. by apply Hl, list_elem_of_further.
Qed.

Lemma filter_first {A} (Q : A -> Prop) `{forall x, Decision (Q x)} (l : list A) (x : A) :
  (exists k, l !! k = Some x /\ Q x /\
             forall j y, j < k -> l !! j = Some y -> ~ Q y) ->
  exists rest, filter Q l = x :: rest.
Proof.
  induction l as [|y l IH]; intros (k & Hk & Hx & Hbefore); [done|].
  rewrite filter_cons. destruct k as [|k]; simpl in Hk.
  - injection Hk as ->. rewrite decide_True by done. by eexists.
  - rewrite decide_False by (by apply (Hbefore 0); [lia|]).
    apply IH. exists k. split; [done|]. split; [done|].
    intros j z Hj Hz. apply (Hbefore (S j)); [lia|done].
Qed.

Section Session.

Context {P : Type}.
Variable vendor : nat -> Bdp.request -> list Ref.message.
Variable data : frame.
Hypothesis Htable : table data.

Lemma position_lookup (df : frame) (i : nat) (c : string) :
  columns df = columns data -> columns data !! i = Some c ->
  position (P:=P) df c = Py.Ok i.
Proof.
  intros Hdf Hi. unfold position. rewrite Hdf.
  destruct (list_find (fun x => x = c) (columns data)) as [[j x]|] eqn:Hfind.
  - apply list_find_Some in Hfind as (Hj & -> & _).
    destruct Htable as [Hnd _].
    by rewrite (NoDup_lookup _ _ _ _ Hnd Hj Hi).
  - apply list_find_None in Hfind. rewrite Forall_forall in Hfind.
    exfalso. apply (Hfind c); [by apply (list_elem_of_lookup_2 _ i)|done].
Qed.

Lemma position_missing (df : frame) (c : string) :
  columns df = columns data -> c ∉ columns data ->
  position (P:=P) df c = Py.Raise (Py.KeyError c).
Proof.
  intros Hdf Hc. unfold position. rewrite Hdf.
  destruct (list_find (fun x => x = c) (columns data)) as [[j x]|] eqn:Hfind; [|done].
  apply list_find_Some in Hfind as (Hj & -> & _).
  destruct Hc. by apply (list_elem_of_lookup_2 _ j).
Qed.

Lemma positions_all (found : list (list Ref.scalar)) (rest : list string) :
  forall before acc,
    columns data = before ++ rest ->
    Py.for_each (P:=P)
      (fun acc c => do! i <- position (mk_frame (columns data) found) c; Py.Ok (acc ++ [i]))
      rest acc
    = Py.Ok (acc ++ seq (length before) (length rest)).
Proof.
  induction rest as [|c rest IH]; intros before acc Hcols; simpl.
  - by rewrite app_nil_r.
  - rewrite (position_lookup _ (length before) c); [|done|].
    2:{ rewrite Hcols. by rewrite list_lookup_middle. }
    simpl. rewrite (IH (before ++ [c])).
    + rewrite length_app, <- app_assoc. simpl. by rewrite Nat.add_1_r.
    + by rewrite <- app_assoc.
Qed.

Lemma row_cells (row : list Ref.scalar) :
  map (fun i => cell_at i row) (seq 0 (length row)) = row.
Proof.
  apply list_eq. intros i. rewrite list_lookup_fmap.
  destruct (decide (i < length row)) as [Hlt|Hge].
  - rewrite lookup_seq_lt by done. simpl. unfold cell_at.
    by destruct (lookup_lt_is_Some_2 row i Hlt) as [v ->].
  - rewrite lookup_seq_ge by lia. simpl. symmetry. apply lookup_ge_None_2. lia.
Qed.

(** Selecting all columns of rows of the table leaves them as they are. *)
Lemma select_all (found : list (list Ref.scalar)) :
  Forall (fun row => length row = length (columns data)) found ->
  select (P:=P) (mk_frame (columns data) found) (columns data)
  = Py.Ok (mk_frame (columns data) found).
Proof.
  intros Hrows. unfold select.
  rewrite (positions_all found (columns data) [] []) by done. simpl. do 2 f_equal.
  rewrite <- (map_id found) at 2. apply map_ext_Forall.
  eapply Forall_impl; [exact Hrows|]. intros row Hlen. simpl.
  rewrite <- Hlen. apply row_cells.
Qed.

Lemma has_code_cell (i0 : nat) (code : string) (row : list Ref.scalar) :
  columns data !! i0 = Some "bbg_exch_code" ->
  has_code data code row <-> cell_eq (cell_at i0 row) (Ref.SStr code) = true.
Proof.
  intros Hi0. unfold has_code, cell_at, cell_eq. split.
  - intros (i & Hi & Hrow). destruct Htable as [Hnd _].
    rewrite (NoDup_lookup _ _ _ _ Hnd Hi0 Hi), Hrow. simpl. by apply bool_decide_eq_true.
  - intros Hcell. exists i0. split; [done|].
    destruct (row !! i0) as [[x|q|z|]|]; simpl in Hcell; try done.
    by apply bool_decide_eq_true in Hcell as ->.
Qed.

(** The rest of the branch, from the code on. *)
Lemma exchange_data_looked_up (tickers : string) (subset : option string) (code : string) :
  "bbg_exch_code" ∈ columns data ->
  looked_up data tickers subset code
    (exchange_data (P:=P) data tickers
       (match subset with
        | Some s => if decide (s = "") then Py.Lst (columns data) else Py.Str s
        | None => Py.Lst (columns data)
        end)
       (Ref.SStr code)).
Proof.
  intros Hcol. apply list_elem_of_lookup in Hcol as [i0 Hi0].
  pose proof Htable as [Hnd Hrows].
  unfold exchange_data, column.
  rewrite (position_lookup data i0 _ eq_refl Hi0). simpl.
  unfold loc_rows. rewrite map_map, filter_mask.
  set (found := filter (fun row => cell_eq (cell_at i0 row) (Ref.SStr code) = true)
                       (rows data)).
  assert (Forall (fun row => length row = length (columns data)) found) as Hfound.
  { rewrite Forall_forall in Hrows |- *. intros row Hrow.
    apply list_elem_of_filter in Hrow as [_ Hrow]. by apply Hrows. }
  split.
  - intros Hnone.
    assert (found = []) as ->.
    { apply filter_none. intros row Hrow Hcell. apply (Hnone row Hrow).
      by apply (has_code_cell i0). }
    destruct subset as [s|]; [destruct (decide (s = ""))|]; simpl.
    + destruct (decide (length (columns data) = 1)); simpl; [done|].
      destruct (decide (columns data = [])) as [Hnil|_]; [done|].
      by rewrite (select_all []).
    + done.
    + destruct (decide (length (columns data) = 1)); simpl; [done|].
      destruct (decide (columns data = [])) as [Hnil|_]; [done|].
      by rewrite (select_all []).
  - intros row (k & Hk & Hcode & Hbefore).
    destruct (filter_first (fun row => cell_eq (cell_at i0 row) (Ref.SStr code) = true)
                (rows data) row) as [rest Hrest].
    { exists k. split; [done|]. split; [by apply (has_code_cell i0)|].
      intros j y Hj Hy Hcell. apply (Hbefore j y Hj Hy). by apply (has_code_cell i0). }
    fold found in Hrest. rewrite Hrest in Hfound |- *.
    split_and!.
    + intros s i -> Hs Hi. rewrite decide_False by done. simpl.
      rewrite (position_lookup (mk_frame (columns data) (row :: rest)) i s eq_refl Hi).
      simpl.
      assert (i < length row) as Hlt.
      { inversion Hfound as [|? ? Hlen _]; subst. rewrite Hlen.
        by eapply lookup_lt_Some. }
      destruct (lookup_lt_is_Some_2 row i Hlt) as [v Hv].
      exists v. split; [done|]. unfold cell_at. by rewrite Hv.
    + intros s -> Hs Hmissing. rewrite decide_False by done. simpl.
      by rewrite (position_missing (mk_frame (columns data) (row :: rest)) s eq_refl
                    Hmissing).
    + intros Hall Hlen.
      assert (match subset with
              | Some s => if decide (s = "") then Py.Lst (columns data) else Py.Str s
              | None => Py.Lst (columns data)
              end = Py.Lst (columns data)) as ->.
      { destruct Hall as [->| ->]; [done|]. by rewrite decide_True. }
      rewrite decide_False by done.
      destruct (decide (columns data = [])) as [Hnil|_].
      { rewrite Hnil in Hi0. done. }
      rewrite (select_all (row :: rest)) by done. simpl. done.
Qed.

(** A code that no cell equals finds no row. *)
Lemma exchange_data_nan (tickers : string) (subset : option string) :
  "bbg_exch_code" ∈ columns data ->
  exchange_data (P:=P) data tickers
    (match subset with
     | Some s => if decide (s = "") then Py.Lst (columns data) else Py.Str s
     | None => Py.Lst (columns data)
     end)
    Ref.SNaN
  = Py.Raise (Py.ValueErrorMsg ("No exchange data found for " +:+ tickers)).
Proof.
  intros Hcol. apply list_elem_of_lookup in Hcol as [i0 Hi0].
  pose proof Htable as [Hnd Hrows].
  unfold exchange_data, column.
  rewrite (position_lookup data i0 _ eq_refl Hi0). simpl.
  unfold loc_rows. rewrite map_map, filter_mask.
  rewrite (filter_none (fun row => cell_eq (cell_at i0 row) Ref.SNaN = true)).
  2:{ intros row _. unfold cell_eq. by destruct (cell_at i0 row). }
  destruct subset as [s|]; [destruct (decide (s = ""))|]; simpl.
  - destruct (decide (length (columns data) = 1)); simpl; [done|].
    destruct (decide (columns data = [])) as [Hnil|_]; [done|].
    by rewrite (select_all []).
  - done.
  - destruct (decide (length (columns data) = 1)); simpl; [done|].
    destruct (decide (columns data = [])) as [Hnil|_]; [done|].
    by rewrite (select_all []).
Qed.

(** X22: [_EPRX] on a ticker given as a str, the sheet being a table
    with a column [bbg_exch_code]. It raises the [ValueError] of a code
    that cannot be derived exactly when the ticker has no code: it is
    not two characters long and holds no two-character code between two
    spaces, as when the code ends the ticker. Otherwise the code is
    looked up in the sheet, unless [decomp] is set and the code is a
    composite one: then [_BDP] is asked for the primary exchange, its
    error is passed on, and its answer is looked up instead. Looking a
    code up raises the [ValueError] of no exchange data when no row
    holds the code, and otherwise returns, from the first row that
    holds it, the cell under the column that [subset] names, or the
    whole row when [subset] is empty. *)
Theorem eprx_exchange_code (tickers : string) (subset : option string) (decomp : bool) :
  "bbg_exch_code" ∈ columns data ->
  let run := _EPRX (P:=P) vendor data tickers subset decomp in
  (code_of tickers = None ->
   run = Py.Raise (Py.ValueErrorMsg ("Could not derive exchange from " +:+ tickers))) /\
  (forall code, code_of tickers = Some code -> decomp = false \/ code ∉ comps ->
     looked_up data tickers subset code run) /\
  (forall code, code_of tickers = Some code -> decomp = true -> code ∈ comps ->
     match (Bdp._BDP (P:=P) vendor (Py.Str tickers) (Py.Str "EQY_PRIM_EXCH_SHRT") []).1 with
     | Py.Raise e => run = Py.Raise e
     | Py.Ok [] => run = Py.Raise Py.IndexError
     | Py.Ok (Ref.SStr primary :: _) => looked_up data tickers subset primary run
     | Py.Ok (Ref.SNaN :: _) =>
         run = Py.Raise (Py.ValueErrorMsg ("No exchange data found for " +:+ tickers))
     | Py.Ok _ => True
     end).
Proof.
  intros Hcol run. unfold run, _EPRX. rewrite exchange_code_of.
  destruct (code_of tickers) as [code|]; simpl.
  - split_and!.
    + done.
    + intros ? [= <-] Hplain.
      assert (primary_exchange (P:=P) vendor tickers code decomp = Py.Ok (Ref.SStr code))
        as ->.
      { unfold primary_exchange. destruct Hplain as [->|Hnot].
        - by rewrite andb_false_r.
        - by rewrite bool_decide_eq_false_2. }
      simpl. by apply exchange_data_looked_up.
    + intros ? [= <-] -> Hcomp.
      unfold primary_exchange. rewrite bool_decide_eq_true_2 by done. simpl.
      destruct ((Bdp._BDP vendor (Py.Str tickers) (Py.Str "EQY_PRIM_EXCH_SHRT") []).1)
        as [[|[primary|q|z|] vs]|e]; simpl; try done.
      * by apply exchange_data_looked_up.
      * by apply exchange_data_nan.
  - split_and!; done.
Qed.

End Session.

Lemma small_sheet_table : table small_sheet.
Proof.
  split.
  - by apply (bool_decide_unpack _).
  - by repeat constructor.
Qed.

Lemma eprx_exchange_code_witness :
  table small_sheet /\ "bbg_exch_code" ∈ columns small_sheet /\
  looked_up small_sheet "vod ln equity" (Some "pytz_timezone") "LN"
    (_EPRX (P:=Empty_set) primary_un small_sheet "vod ln equity"
       (Some "pytz_timezone") false).
Proof.
  assert ("bbg_exch_code" ∈ columns small_sheet) as Hcol by apply list_elem_of_here.
  split; [exact small_sheet_table|]. split; [exact Hcol|].
  apply (proj1 (proj2 (eprx_exchange_code (P:=Empty_set) primary_un small_sheet
                         small_sheet_table "vod ln equity" (Some "pytz_timezone")
                         false Hcol))).
  - reflexivity.
  - by left.
Defined.

(** The zone of the London exchange; the primary exchange of a
    security with a composite code, when it is asked for; a code that
    the sheet does not hold; a code that ends the ticker; and a whole
    row. *)
Example eprx_examples :
  _EPRX (P:=Empty_set) primary_un small_sheet "vod ln equity" (Some "pytz_timezone") false
  = Py.Ok (Cell (Ref.SStr "Europe/London")) /\
  _EPRX (P:=Empty_set) primary_un small_sheet "IBM US Equity" (Some "pytz_timezone") true
  = Py.Ok (Cell (Ref.SStr "America/New_York")) /\
  _EPRX (P:=Empty_set) primary_un small_sheet "IBM US Equity" (Some "pytz_timezone") false
  = Py.Raise (Py.ValueErrorMsg "No exchange data found for IBM US Equity") /\
  _EPRX (P:=Empty_set) primary_un small_sheet "VOD LN" (Some "pytz_timezone") false
  = Py.Raise (Py.ValueErrorMsg "Could not derive exchange from VOD LN") /\
  _EPRX (P:=Empty_set) primary_un small_sheet "gy" None false
  = Py.Ok (Dict [("bbg_exch_code", Ref.SStr "GY"); ("pytz_timezone", Ref.SStr "Europe/Berlin");
                 ("equity_market_open", Ref.SStr "09:00")]).
Proof. split_and!; vm_compute; reflexivity. Qed.

End EprxFacts.

(** ** When the time-weighted spread is not a number *)

Module TwaFacts.
Import Bbat BbatSpec.

Lemma total_seconds_nonneg (ns : Z) : (0 <= ns)%Z -> (0 <= total_seconds ns)%Qc.
Proof.
  intros Hns. unfold total_seconds, Qcle.
  change (0 <= Qred (ns # 1000000000))%Q.
  rewrite (Qred_correct (ns # 1000000000)). unfold Qle. simpl. lia.
Qed.

Lemma live_seconds_nonneg (tz : zone) (df : list row) (i : nat) :
  StronglySorted row_le df -> (0 <= live_seconds tz df i)%Qc.
Proof.
  intros Hs. unfold live_seconds, next_row_life.
  destruct (df !! i) as [r|] eqn:Hr; [|done].
  destruct (bid_ask_spread_bps r); [|done].
  destruct (df !! S i) as [r'|] eqn:Hr'; [|done].
  destruct (decide (same_ticker_and_date tz r r')) as [[Ht _]|]; [|done]. simpl.
  rewrite BbatFacts.seconds_between_total. apply total_seconds_nonneg.
  destruct (BbatFacts.sorted_neighbours df i r r' Hs Hr Hr') as [[_ Hle] _].
  specialize (Hle Ht). lia.
Qed.

Lemma sum_nonneg (f : nat -> Qc) (l : list nat) :
  (forall i, i ∈ l -> (0 <= f i)%Qc) ->
  (0 <= foldr (fun i acc => (f i + acc)%Qc) 0%Qc l)%Qc.
Proof.
  induction l as [|i l IH]; intros Hf; simpl; [done|].
  rewrite <- (Qcplus_0_l 0). apply Qcplus_le_compat.
  - apply Hf, list_elem_of_here.
  - apply IH. intros j Hj. by apply Hf, list_elem_of_further.
Qed.

Lemma sum_zero_iff (f : nat -> Qc) (l : list nat) :
  (forall i, i ∈ l -> (0 <= f i)%Qc) ->
  foldr (fun i acc => (f i + acc)%Qc) 0%Qc l = 0%Qc <-> forall i, i ∈ l -> f i = 0%Qc.
Proof.
  induction l as [|i l IH]; intros Hf; simpl.
  - split; [|done]. intros _ i Hi. by apply not_elem_of_nil in Hi.
  - assert (forall j, j ∈ l -> (0 <= f j)%Qc) as Hf'
      by (intros j Hj; by apply Hf, list_elem_of_further).
    pose proof (sum_nonneg f l Hf') as Hrest.
    pose proof (Hf i (list_elem_of_here _ _)) as Hi.
    set (rest := foldr (fun i acc => (f i + acc)%Qc) 0%Qc l) in *.
    split.
    + intros Hsum.
      assert (f i = 0%Qc) as Hfi.
      { apply Qcle_antisym; [|done]. rewrite <- Hsum.
        rewrite <- (Qcplus_0_r (f i)) at 1. apply Qcplus_le_compat; [apply Qcle_refl|done]. }
      rewrite Hfi, Qcplus_0_l in Hsum.
      intros j Hj. apply elem_of_cons in Hj as [->|Hj]; [done|].
      by apply (proj1 (IH Hf') Hsum).
    + intros Hall. rewrite (Hall i (list_elem_of_here _ _)), Qcplus_0_l.
      apply IH; [done|]. intros j Hj. by apply Hall, list_elem_of_further.
Qed.

Lemma sum_zeros (f : nat -> Qc) (l : list nat) :
  (forall i, i ∈ l -> f i = 0%Qc) ->
  foldr (fun i acc => (f i + acc)%Qc) 0%Qc l = 0%Qc.
Proof.
  induction l as [|i l IH]; intros Hf; simpl; [done|].
  rewrite (Hf i (list_elem_of_here _ _)), Qcplus_0_l.
  apply IH. intros j Hj. by apply Hf, list_elem_of_further.
Qed.

(** X23: on a frame whose calendar dates do not go back, the summary
    statistic [twa_spread_bps] is [NaN] exactly when no row counts for
    any time, that is when no row with a valid spread is followed by a
    later row of the same ticker and calendar date; the statistic is
    then zero over zero. A day with a single quote has no time-weighted
    spread. *)
Theorem twa_spread_nan_iff (tz_info : zone) (rows : list row) :
  dates_in_order tz_info rows ->
  let df := sort_values rows in
  ((exists vwap, _bbat tz_info rows true = Summary None vwap)
   <-> (forall i, i < length df -> live_seconds tz_info df i = 0%Qc)) /\
  ((forall i, i < length df -> live_seconds tz_info df i = 0%Qc) ->
   sum_rows (length df) (fun i => spread_at df i * live_seconds tz_info df i)%Qc = 0%Qc /\
   sum_rows (length df) (live_seconds tz_info df) = 0%Qc).
Proof.
  intros Hrows df.
  pose proof (BbatFacts.sort_values_sorted rows) as Hs. fold df in Hs.
  assert (dates_in_order tz_info df) as Hord.
  { apply (BbatFacts.dates_in_order_perm tz_info rows); [|done].
    apply merge_sort_Permutation. }
  assert (twa_spread_bps tz_info df = None
          <-> sum_rows (length df) (live_seconds tz_info df) = 0%Qc) as Hden.
  { unfold twa_spread_bps.
    rewrite (BbatFacts.adj_column tz_info df Hs Hord).
    rewrite BbatFacts.col_sum_cells. unfold fdiv, sum_rows.
    destruct (decide (_ = 0%Qc)) as [Hz|Hnz]; [done|]. split; [done|]. intros Hz. done. }
  assert (sum_rows (length df) (live_seconds tz_info df) = 0%Qc
          <-> forall i, i < length df -> live_seconds tz_info df i = 0%Qc) as Hsum.
  { unfold sum_rows. rewrite sum_zero_iff.
    - split; intros H i Hi.
      + apply H, elem_of_seq. lia.
      + apply elem_of_seq in Hi. apply H. lia.
    - intros i _. by apply live_seconds_nonneg. }
  split.
  - rewrite <- Hsum, <- Hden. unfold _bbat. fold df. split.
    + by intros [vwap [= -> _]].
    + intros ->. by eexists.
  - intros Hall. split; [|by apply Hsum].
    unfold sum_rows. apply sum_zeros. intros i Hi. apply elem_of_seq in Hi.
    rewrite Hall by lia. ring.
Qed.

Lemma twa_spread_nan_iff_witness :
  dates_in_order utc [quote 0 (Some 5%Z)] /\
  ((exists vwap, _bbat utc [quote 0 (Some 5%Z)] true = Summary None vwap)
   <-> (forall i, i < length (sort_values [quote 0 (Some 5%Z)]) ->
          live_seconds utc (sort_values [quote 0 (Some 5%Z)]) i = 0%Qc)).
Proof.
  assert (dates_in_order utc [quote 0 (Some 5%Z)]) as Hord.
  { apply (BbatFacts.one_date_in_order utc _ 0%Z). intros r Hr.
    apply elem_of_cons in Hr as [->|Hr]; [reflexivity|by apply elem_of_nil in Hr]. }
  split; [exact Hord|].
  exact (proj1 (twa_spread_nan_iff utc [quote 0 (Some 5%Z)] Hord)).
Defined.

(** A single quote: no time to weigh the spread by. *)
Example twa_spread_single_quote :
  _bbat utc [quote 0 (Some 5%Z)] true = Summary None None.
Proof. reflexivity. Qed.

End TwaFacts.

